(** * Jellystat webhook dispatch engine: a shallow embedding

    The development follows [backend/classes/webhook-manager.js]:
    the template compiler ([compileTemplate]), the single-webhook delivery
    ([executeWebhook]), the event fan-out ([triggerEventWebhooks]) and the
    monthly digest builder ([getTopWatchedContent], [getMonthlySummaryData]).

    JavaScript values are a tagged union, exceptions are an explicit
    completion type, and the effects of the asynchronous methods (console
    output, HTTP calls through axios, data-store queries) are threaded
    through a trace of events.  What the JavaScript runtime, axios, the
    data store and the clock answer is not code of this repository: it
    enters as Section variables that may depend on everything that happened
    before, so every theorem holds for every behaviour of theirs.

    The deliveries of one fan-out are run in the order they are launched,
    each to its end; how the engine interleaves them at their [await]
    points is not modelled. *)

From Stdlib Require Import ZArith String Ascii List Lia Bool.
From stdpp Require Import base list strings pretty.

Local Open Scope Z_scope.

(** ** JavaScript values *)

Set Warnings "-register-all".

(** A Number.  An integer is given exactly; as in a numeric literal, one
    that is not a double stands for the double nearest to it.  Any other
    Number (a fraction, NaN, an infinity) is given by the text that
    Number::toString writes for it, which determines it. *)
Inductive Num : Type :=
  | Int (n : Z)
  | NonInt (text : string).

Coercion Int : Z >-> Num.
Bind Scope Z_scope with Num.

(** JSON-like trees as the engine sees them.  Objects list their own
    enumerable properties in enumeration order; the keys of one object are
    pairwise distinct. *)
Inductive value : Type :=
  | VUndef
  | VNull
  | VBool (b : bool)
  | VNum (x : Num)
  | VStr (s : string)
  | VObj (props : list (string * value))
  | VArr (elems : list value)
  | VFun (src : string).

(** An HTTP response as axios hands it over. *)
Record Response : Type := mkResponse {
  status : Z;
  resp_data : value
}.

(** What can be thrown.  [AxiosError] carries the response when the
    server answered (the [error.response] the handlers print). *)
Inductive JsError : Type :=
  | TypeError (msg : string)
  | SyntaxError (msg : string)
  | AxiosError (msg : string) (resp : option Response)
  | DbError (msg : string).

Definition message (e : JsError) : string :=
  match e with
  | TypeError m | SyntaxError m | AxiosError m _ | DbError m => m
  end.

Definition response (e : JsError) : option Response :=
  match e with
  | AxiosError _ r => r
  | _ => None
  end.

(** The outcome of evaluating an expression: a value or a thrown error. *)
Inductive Completion (A : Type) : Type :=
  | Normal (a : A)
  | Throw (e : JsError).
Arguments Normal {A} a.
Arguments Throw {A} e.

Definition cbind {A B} (c : Completion A) (k : A -> Completion B) : Completion B :=
  match c with
  | Normal a => k a
  | Throw e => Throw e
  end.

#[global] Instance Completion_ret : MRet Completion := fun A a => Normal a.
#[global] Instance Completion_bind : MBind Completion := fun A B k c => cbind c k.

Definition typeof (v : value) : string :=
  match v with
  | VUndef => "undefined"
  | VNull => "object"
  | VBool _ => "boolean"
  | VNum _ => "number"
  | VStr _ => "string"
  | VObj _ => "object"
  | VArr _ => "object"
  | VFun _ => "function"
  end.

(** ToBoolean, as used by [||]. *)
Definition truthy (v : value) : bool :=
  match v with
  | VUndef | VNull => false
  | VBool b => b
  | VNum (Int n) => negb (n =? 0)%Z
  | VNum (NonInt text) => negb (text =? "NaN")%string
  | VStr s => negb (s =? EmptyString)%string
  | VObj _ | VArr _ | VFun _ => true
  end.

(** [a || b] *)
Definition js_or (a b : value) : value := if truthy a then a else b.

(** ** Strings *)

Fixpoint starts_with (p s : string) : bool :=
  match p, s with
  | EmptyString, _ => true
  | String a p', String b s' => Ascii.eqb a b && starts_with p' s'
  | String _ _, EmptyString => false
  end.

(** [s.includes(sub)] *)
Fixpoint includes (s sub : string) : bool :=
  starts_with sub s ||
  match s with
  | EmptyString => false
  | String _ s' => includes s' sub
  end.

(** White space removed by [trim], among the code units below 256. *)
Definition is_white (c : ascii) : bool :=
  let n := nat_of_ascii c in
  ((9 <=? n) && (n <=? 13) || (n =? 32) || (n =? 160))%nat.

Fixpoint trim_start (s : string) : string :=
  match s with
  | String c s' => if is_white c then trim_start s' else s
  | EmptyString => EmptyString
  end.

Fixpoint trim_end (s : string) : string :=
  match s with
  | String c s' =>
      match trim_end s' with
      | EmptyString => if is_white c then EmptyString else String c EmptyString
      | t => String c t
      end
  | EmptyString => EmptyString
  end.

Definition trim (s : string) : string := trim_end (trim_start s).

(** [s.split('.')] *)
Fixpoint split_dot (s : string) : list string :=
  match s with
  | EmptyString => [EmptyString]
  | String c s' =>
      if Ascii.eqb c "."%char then EmptyString :: split_dot s'
      else match split_dot s' with
           | p :: ps => String c p :: ps
           | [] => [String c EmptyString]
           end
  end.

(** [arr.join(sep)] over already converted elements *)
Fixpoint join (sep : string) (l : list string) : string :=
  match l with
  | [] => EmptyString
  | [x] => x
  | x :: r => x +:+ sep +:+ join sep r
  end.

(** ** The regular expression of the compiler: [/\{\{([^}]+)\}\}/g] *)

(** The longest prefix without a closing brace, and what follows it. *)
Fixpoint span_open (s : string) : string * string :=
  match s with
  | EmptyString => (EmptyString, EmptyString)
  | String c s' =>
      if Ascii.eqb c "}"%char then (EmptyString, s)
      else let '(run, rest) := span_open s' in (String c run, rest)
  end.

(** A match of the expression that starts at the head of [s]: the text
    captured by the group.  The group is greedy and cannot give back a
    character, since what follows it must be a closing brace. *)
Definition placeholder_at (s : string) : option string :=
  match s with
  | String "{" (String "{" s') =>
      let '(run, rest) := span_open s' in
      if (negb (run =? EmptyString)%string) && starts_with "}}" rest then Some run else None
  | _ => None
  end.

Inductive token : Type :=
  | TChar (c : ascii)
  | TPlaceholder (path : string).

(** The text a token stands for in the subject string. *)
Definition token_text (t : token) : string :=
  match t with
  | TChar c => String c EmptyString
  | TPlaceholder p => "{{" +:+ p +:+ "}}"
  end.

(** Left-to-right, non-overlapping matches.  [skip] counts the characters
    of the current match still to be passed over. *)
Fixpoint scan (skip : nat) (s : string) : list token :=
  match s with
  | EmptyString => []
  | String c s' =>
      match skip with
      | S k => scan k s'
      | O =>
          match placeholder_at s with
          | Some p => TPlaceholder p :: scan (3 + String.length p) s'
          | None => TChar c :: scan 0 s'
          end
      end
  end.

Definition tokens (s : string) : list token := scan 0 s.

(** [subject.replace(re, replacer)] for a replacer [(match, path) => ...]
    whose result is already a string. *)
Fixpoint replace_tokens (replacer : string -> string -> Completion string)
    (ts : list token) : Completion string :=
  match ts with
  | [] => Normal EmptyString
  | TChar c :: r =>
      out ← replace_tokens replacer r; Normal (String c out)
  | TPlaceholder p :: r =>
      (* every match is replaced in turn; the first throw wins *)
      x ← replacer (token_text (TPlaceholder p)) p;
      out ← replace_tokens replacer r; Normal (x +:+ out)
  end.

(** ** Property access and conversions *)

Fixpoint assoc (key : string) (props : list (string * value)) : option value :=
  match props with
  | [] => None
  | (k, v) :: r => if (k =? key)%string then Some v else assoc key r
  end.

(** The position an array index key denotes ("0", "1", ...; not "01"). *)
Definition index_of_key (key : string) (len : nat) : option nat :=
  List.find (fun i => (pretty i =? key)%string) (seq 0 len).

Fixpoint string_nth (s : string) (i : nat) : option ascii :=
  match s, i with
  | EmptyString, _ => None
  | String c _, O => Some c
  | String _ s', S j => string_nth s' j
  end.

(** ** Number::toString *)

(** The double nearest to a positive integer, as mantissa and binary
    exponent: [m * 2 ^ e] with [m < 2 ^ 53]; halves go to the even mantissa. *)
Definition nearest_double (a : Z) : Z * Z :=
  let bits := Z.log2 a + 1 in
  if bits <=? 53 then (a, 0)
  else
    let e := bits - 53 in
    let m := a / 2 ^ e in
    let r := a mod 2 ^ e in
    let half := 2 ^ (e - 1) in
    let m' := if (half <? r) || ((r =? half) && Z.odd m) then m + 1 else m in
    if m' =? 9007199254740992 then (4503599627370496, e + 1) else (m', e).

(** Whether the integer [v] is read back as the double [m * 2 ^ e], for
    [1 <= e]: it lies within half a gap of it, the ends included when the
    mantissa is even.  Below a power of two the gap is half as wide.
    Everything is counted in quarters of [2 ^ e]. *)
Definition reads_back (m e v : Z) : bool :=
  let x4 := 4 * m * 2 ^ e in
  let hi4 := 2 ^ (e + 1) in
  let lo4 := if m =? 4503599627370496 then 2 ^ e else 2 ^ (e + 1) in
  let v4 := 4 * v in
  if Z.even m then (x4 - lo4 <=? v4) && (v4 <=? x4 + hi4)
  else (x4 - lo4 <? v4) && (v4 <? x4 + hi4).

Definition decimal_length (a : Z) : Z := Z.of_nat (String.length (pretty a)).

(** The integer with the fewest significant digits that is read back as
    the double [x = m * 2 ^ e], the nearest to [x] when there are two; [k]
    is the number of significant digits tried, [len] the decimal length
    of [x]. *)
Fixpoint shortest (fuel : nat) (k m e x len : Z) : Z :=
  match fuel with
  | O => x
  | S f =>
      let p := len - k in
      if p <=? 0 then x
      else
        let q := 10 ^ p in
        let v1 := x / q * q in
        let v2 := v1 + q in
        let ok1 := reads_back m e v1 in
        let ok2 := reads_back m e v2 in
        if ok1 && ok2 then
          if x - v1 <? v2 - x then v1
          else if v2 - x <? x - v1 then v2
          else if Z.even (x / q) then v1 else v2
        else if ok1 then v1
        else if ok2 then v2
        else shortest f (k + 1) m e x len
  end.

Fixpoint strip_zeros (s : string) : string :=
  match s with
  | EmptyString => EmptyString
  | String c r =>
      match strip_zeros r with
      | EmptyString => if Ascii.eqb c "0"%char then EmptyString else String c EmptyString
      | t => String c t
      end
  end.

(** [d.ddde+n], for a positive integer of more than 21 digits. *)
Definition exponent_form (v : Z) : string :=
  match strip_zeros (pretty v) with
  | EmptyString => pretty v
  | String d EmptyString => String d ("e+" +:+ pretty (decimal_length v - 1))
  | String d rest => String d ("." +:+ rest +:+ "e+" +:+ pretty (decimal_length v - 1))
  end.

Definition positive_text (a : Z) : string :=
  if a <=? 9007199254740992 then pretty a
  else
    let '(m, e) := nearest_double a in
    if 972 <=? e then "Infinity"
    else
      let x := m * 2 ^ e in
      let v := shortest 17 1 m e x (decimal_length x) in
      if decimal_length v <=? 21 then pretty v else exponent_form v.

(** The text of the Number an integer stands for. *)
Definition integer_text (a : Z) : string :=
  if a =? 0 then "0"
  else if a <? 0 then "-" +:+ positive_text (- a)
  else positive_text a.

Definition Number_toString (x : Num) : string :=
  match x with
  | Int n => integer_text n
  | NonInt text => text
  end.

(** ToString.  A plain object converts through Object.prototype.toString;
    one with a property [toString] of its own, which in a JSON-like tree
    is never callable, cannot be converted.  An array joins its elements. *)
Fixpoint ToString (v : value) : Completion string :=
  match v with
  | VUndef => Normal "undefined"
  | VNull => Normal "null"
  | VBool true => Normal "true"
  | VBool false => Normal "false"
  | VNum x => Normal (Number_toString x)
  | VStr s => Normal s
  | VObj props =>
      match assoc "toString" props with
      | None => Normal "[object Object]"
      | Some _ => Throw (TypeError "Cannot convert object to primitive value")
      end
  | VArr elems =>
      parts ← (fix each (es : list value) : Completion (list string) :=
                 match es with
                 | [] => Normal []
                 | e :: r =>
                     x ← match e with
                         | VUndef | VNull => Normal EmptyString
                         | _ => ToString e
                         end;
                     xs ← each r; Normal (x :: xs)
                 end) elems;
      Normal (join "," parts)
  | VFun src => Normal src
  end.

(** [result[key] = v] on an ordinary object: a property named
    [__proto__] is the accessor of Object.prototype, so no own property
    appears for it. *)
Fixpoint put (key : string) (v : value) (props : list (string * value))
  : list (string * value) :=
  match props with
  | [] => [(key, v)]
  | (k, w) :: r => if (k =? key)%string then (k, v) :: r else (k, w) :: put key v r
  end.

Definition set_prop (props : list (string * value)) (key : string) (v : value)
  : list (string * value) :=
  if (key =? "__proto__")%string then props else put key v props.

(** [{...src}]: the own enumerable properties that object spread copies. *)
Definition own_entries (v : value) : list (string * value) :=
  match v with
  | VObj props => props
  | VArr elems => imap (fun i e => (pretty i, e)) elems
  | VStr s => imap (fun i c => (pretty i, VStr (String c EmptyString))) (list_ascii_of_string s)
  | _ => []
  end.

(** ** The template compiler *)

Section Compiler.

(** What a property read finds along the prototype chain when the
    receiver has no own property of that name ([VUndef] when nothing is
    found): the built-in members of Object.prototype, Array.prototype
    and the like. *)
Variable proto : value -> string -> value.

(** [value[key]] *)
Definition get_prop (v : value) (key : string) : Completion value :=
  match v with
  | VUndef => Throw (TypeError "Cannot read properties of undefined")
  | VNull => Throw (TypeError "Cannot read properties of null")
  | VObj props =>
      match assoc key props with
      | Some x => Normal x
      | None => Normal (proto v key)
      end
  | VArr elems =>
      match index_of_key key (List.length elems) with
      | Some i => Normal (List.nth i elems VUndef)
      | None =>
          if (key =? "length")%string then Normal (VNum (Z.of_nat (List.length elems)))
          else Normal (proto v key)
      end
  | VStr s =>
      match index_of_key key (String.length s) with
      | Some i =>
          match string_nth s i with
          | Some c => Normal (VStr (String c EmptyString))
          | None => Normal VUndef
          end
      | None =>
          if (key =? "length")%string then Normal (VNum (Z.of_nat (String.length s)))
          else Normal (proto v key)
      end
  | VBool _ | VNum _ | VFun _ => Normal (proto v key)
  end.

(** The loop of the replacer:
    [for (const key of keys) { if (value === undefined) return match; value = value[key]; }].
    Leaving the loop early and leaving it with [undefined] both make the
    replacer answer [match], so the walk answers [VUndef] in both. *)
Fixpoint walk (v : value) (keys : list string) : Completion value :=
  match keys with
  | [] => Normal v
  | key :: rest =>
      match v with
      | VUndef => Normal VUndef
      | _ => x ← get_prop v key; walk x rest
      end
  end.

(** The value a placeholder path denotes in [data]. *)
Definition resolve (data : value) (path : string) : Completion value :=
  walk data (split_dot (trim path)).

(** The replacer, followed by the string conversion [replace] applies
    to its result. *)
Definition replacer (data : value) (matched path : string) : Completion string :=
  x ← resolve data path;
  match x with
  | VUndef => Normal matched
  | _ => ToString x
  end.

Fixpoint compileTemplate (template data : value) {struct template} : Completion value :=
  if (typeof template =? "object")%string then
    match template with
    | VObj props =>
        (* Object.keys(template).reduce((result, key) => ..., {}) *)
        (fix reduce (result : list (string * value)) (ps : list (string * value))
           : Completion value :=
           match ps with
           | [] => Normal (VObj result)
           | (key, sub) :: r =>
               x ← compileTemplate sub data;
               reduce (set_prop result key x) r
           end) [] props
    | VArr elems =>
        (* the keys of an array are its indices; the accumulator is [{}] *)
        (fix reduce (result : list (string * value)) (i : nat) (es : list value)
           : Completion value :=
           match es with
           | [] => Normal (VObj result)
           | sub :: r =>
               x ← compileTemplate sub data;
               reduce (set_prop result (pretty i) x) (S i) r
           end) [] O elems
    | _ =>
        (* Object.keys(null) *)
        Throw (TypeError "Cannot convert undefined or null to object")
    end
  else if (typeof template =? "string")%string then
    match template with
    | VStr s =>
        out ← replace_tokens (replacer data) (tokens s); Normal (VStr out)
    | _ => Normal template
    end
  else Normal template.

End Compiler.

(** ** Calendar dates *)

(** A calendar day; [month] counts from 0 as in JavaScript.  The query
    parameters of the digest are such days, passed as [YYYY-MM-DD] text. *)
Record Date : Type := mkDay {
  year : Z;
  month : Z;
  day : Z
}.

Definition is_leap (y : Z) : bool :=
  ((y mod 4 =? 0) && negb (y mod 100 =? 0) || (y mod 400 =? 0))%Z.

Definition days_in_month (y m : Z) : Z :=
  if (m =? 1)%Z then (if is_leap y then 29 else 28)
  else if ((m =? 3) || (m =? 5) || (m =? 8) || (m =? 10))%Z then 30
  else 31.

Definition norm_month (y m : Z) : Z * Z := (y + m / 12, m mod 12).

(** Days outside the month carry into the neighbouring months. *)
Fixpoint carry (fuel : nat) (y m d : Z) : Date :=
  match fuel with
  | O => mkDay y m d
  | S k =>
      if (d <? 1)%Z then
        let '(y', m') := norm_month y (m - 1) in
        carry k y' m' (d + days_in_month y' m')
      else if (days_in_month y m <? d)%Z then
        let '(y', m') := norm_month y (m + 1) in
        carry k y' m' (d - days_in_month y m)
      else mkDay y m d
  end.

(** MakeDay: the day reached from a year, a month and a day of the month
    given as arbitrary integers. *)
Definition make_day (y m d : Z) : Date :=
  let '(y', m') := norm_month y m in
  carry (S (Z.abs_nat d)) y' m' d.

(** [new Date(y, m, d)]: local midnight of that day; a year from 0 to 99
    is read as 19xx. *)
Definition new_Date (y m d : Z) : Date :=
  make_day (if ((0 <=? y) && (y <=? 99))%Z then 1900 + y else y) m d.

(** [date.setMonth(m)] keeps the day of the month. *)
Definition setMonth (date : Date) (m : Z) : Date :=
  make_day (year date) m (day date).

(** What [new Date()] reads: the local calendar day and the day of the week. *)
Record Clock : Type := mkClock {
  local : Date;
  weekday : Z
}.

(** ** Effects: console, axios and the data store *)

(** A row of a query result: an object, given by its columns. *)
Definition Row : Type := list (string * value).

(** A row of the webhooks table.  [name] is a text column, [NULL] when
    not set; the other columns are taken as they come, [undefined] when
    absent. *)
Record Webhook : Type := mkWebhook {
  id : value;
  name : option string;
  url : value;
  method : value;
  headers : value;
  payload : value
}.

(** [`${webhook.name}`] *)
Definition label (name : option string) : string :=
  match name with
  | Some text => text
  | None => "null"
  end.

(** The configuration object passed to [axios(...)]. *)
Record Request : Type := mkRequest {
  req_method : value;
  req_url : value;
  req_headers : value;
  req_data : value;
  req_timeout : Z
}.

(** The SQL statements of the manager, with their parameters. *)
Inductive Query : Type :=
  | UpdateLastTriggered (id : value)
      (* UPDATE webhooks SET last_triggered = NOW() WHERE id = $1 *)
  | TopMovies (since : Date) (limit : Z)
      (* ... WHERE "ActivityDateInserted" >= $1 ... AND "SeriesName" IS NULL
         ... ORDER BY total_minutes DESC LIMIT $2 *)
  | TopSeries (since : Date) (limit : Z)
      (* ... WHERE "ActivityDateInserted" >= $1 AND "SeriesName" IS NOT NULL
         ... ORDER BY total_minutes DESC LIMIT $2 *)
  | GeneralStats (from to : Date)
      (* ... WHERE "ActivityDateInserted" BETWEEN $1 AND $2 *)
  | NoQuery. (* the query text left [undefined] *)

Inductive LogArg : Type :=
  | ArgStr (s : string)
  | ArgVal (v : value)
  | ArgErr (e : JsError).

(** What the engine does to the outside, in the order it does it; calls
    are recorded with what came back. *)
Inductive Event : Type :=
  | ConsoleLog (msg : string)
  | ConsoleError (msg : string) (args : list LogArg)
  | AxiosCall (req : Request) (out : Completion Response)
  | DbSelect (eventType : string) (out : Completion (list Webhook))
      (* SELECT * FROM webhooks WHERE trigger_type = 'event'
         AND event_type = $2 AND enabled = true *)
  | DbQuery (q : Query) (out : Completion (list Row)).

Definition Trace : Type := list Event.

(** An asynchronous method: it extends the trace and settles with a value
    or a rejection. *)
Definition M (A : Type) : Type := Trace -> Completion A * Trace.

#[global] Instance M_ret : MRet M := fun A a t => (Normal a, t).
#[global] Instance M_bind : MBind M := fun A B k m t =>
  match m t with
  | (Normal a, t') => k a t'
  | (Throw e, t') => (Throw e, t')
  end.

Definition lift {A} (c : Completion A) : M A := fun t => (c, t).

(** [try { body } catch (error) { handler }] *)
Definition try_catch {A} (body : M A) (handler : JsError -> M A) : M A := fun t =>
  match body t with
  | (Normal a, t') => (Normal a, t')
  | (Throw e, t') => handler e t'
  end.

Definition emit (ev : Event) : M unit := fun t => (Normal tt, (t ++ [ev])%list).

Definition console_log (msg : string) : M unit := emit (ConsoleLog msg).
Definition console_error (msg : string) (args : list LogArg) : M unit :=
  emit (ConsoleError msg args).

(** The promise of a call, once settled: fulfilled or rejected. *)
Definition settle {A} (m : M A) : M (Completion A) := fun t =>
  let '(c, t') := m t in (Normal c, t').

(** [await Promise.all(promises)] over settled promises: rejects when one
    of them is rejected, and is fulfilled with all the values otherwise. *)
Fixpoint Promise_all {A} (ps : list (Completion A)) : Completion (list A) :=
  match ps with
  | [] => Normal []
  | p :: r => a ← p; l ← Promise_all r; Normal (a :: l)
  end.

(** [xs.map(x => f(x))] for an asynchronous [f]: every call is made, in
    order, whatever the earlier ones settled with. *)
Fixpoint map_async {A B} (f : A -> M B) (xs : list A) : M (list (Completion B)) :=
  match xs with
  | [] => mret []
  | x :: r => p ← settle (f x); ps ← map_async f r; mret (p :: ps)
  end.

(** The requests sent and the rows touched, read off a trace. *)
Definition http_calls (t : Trace) : list Request :=
  omap (fun ev => match ev with AxiosCall req _ => Some req | _ => None end) t.

Definition touched (t : Trace) : list value :=
  omap (fun ev => match ev with
                  | DbQuery (UpdateLastTriggered id) _ => Some id
                  | _ => None
                  end) t.

(** [url.includes(marker)]: a string searches for a substring, an array
    for an element; nothing else stored in a column has the method. *)
Definition call_includes (v : value) (marker : string) : Completion bool :=
  match v with
  | VStr s => Normal (includes s marker)
  | VArr elems =>
      Normal (existsb (fun e => match e with
                                | VStr x => (x =? marker)%string
                                | _ => false
                                end) elems)
  | VUndef => Throw (TypeError "Cannot read properties of undefined (reading 'includes')")
  | VNull => Throw (TypeError "Cannot read properties of null (reading 'includes')")
  | _ => Throw (TypeError "webhook.url.includes is not a function")
  end.

Definition json_content_type : value :=
  VObj [("Content-Type", VStr "application/json")].

Section Manager.

Variable proto : value -> string -> value.
(** [JSON.parse]: the parsed value, or a SyntaxError. *)
Variable JSON_parse : string -> Completion value.
(** What axios and the data store answer, given all that happened so far. *)
Variable axios : Trace -> Request -> Completion Response.
Variable db : Trace -> Query -> Completion (list Row).
(** The rows of the enabled webhooks of an event, as the store returns them. *)
Variable registry : Trace -> string -> Completion (list Webhook).
(** [new Date().toISOString()] *)
Variable now_iso : Trace -> string.

Definition call_axios (req : Request) : M Response := fun t =>
  let out := axios t req in (out, (t ++ [AxiosCall req out])%list).

Definition dbInstance_query (q : Query) : M (list Row) := fun t =>
  let out := db t q in (out, (t ++ [DbQuery q out])%list).

Definition getWebhooksByEventType (eventType : string) : M (list Webhook) := fun t =>
  let out := registry t eventType in (out, (t ++ [DbSelect eventType out])%list).

(** [typeof x === 'string' ? JSON.parse(x || '{}') : (x || {})] *)
Definition parse_column (x : value) : Completion value :=
  if (typeof x =? "string")%string then
    match js_or x (VStr "{}") with
    | VStr text => JSON_parse text
    | other => Normal other
    end
  else Normal (js_or x (VObj [])).

(** The inner [try] block: both columns are parsed, a SyntaxError of
    either leaves the block. *)
Definition parse_webhook (webhook : Webhook) : Completion (value * value) :=
  headers ← parse_column (headers webhook);
  payload ← parse_column (payload webhook);
  Normal (headers, payload).

(** The two delivery branches. *)
Definition send (webhook : Webhook) (isDiscordWebhook : bool) (headers payload data : value)
  : M unit :=
  if isDiscordWebhook then
    console_log "[WEBHOOK] Webhook Discord detected";;
    call_axios {| req_method := js_or (method webhook) (VStr "POST");
                  req_url := url webhook;
                  req_headers := json_content_type;
                  req_data := payload;
                  req_timeout := 10000 |};;
    console_log ("[WEBHOOK] Discord webhook " +:+ label (name webhook)
                 +:+ " send successfully")
  else
    compiledPayload ← lift (compileTemplate proto payload data);
    call_axios {| req_method := js_or (method webhook) (VStr "POST");
                  req_url := url webhook;
                  req_headers := headers;
                  req_data := compiledPayload;
                  req_timeout := 10000 |};;
    console_log ("[WEBHOOK] Webhook " +:+ label (name webhook)
                 +:+ " send successfully").

(** The outer [catch] block. *)
Definition report_failure (webhook : Webhook) (error : JsError) : M bool :=
  console_error ("[WEBHOOK] Error triggering webhook "
                 +:+ label (name webhook) +:+ ":")
                [ArgStr (message error)];;
  match response error with
  | Some r =>
      console_error ("[WEBHOOK] Response status: " +:+ integer_text (status r)) [];;
      console_error "[WEBHOOK] Response data:" [ArgVal (resp_data r)]
  | None => mret tt
  end;;
  mret false.

Definition executeWebhook (webhook : Webhook) (data : value) : M bool :=
  try_catch
    (isDiscordWebhook ← lift (call_includes (url webhook) "discord.com/api/webhooks");
     match parse_webhook webhook with
     | Throw e =>
         (* the inner catch block *)
         console_error "[WEBHOOK] Error while parsing:" [ArgErr e];;
         mret false
     | Normal (headers, payload) =>
         send webhook isDiscordWebhook headers payload data;;
         (* Update the last triggered timestamp *)
         dbInstance_query (UpdateLastTriggered (id webhook));;
         mret true
     end)
    (report_failure webhook).

(** [{ ...data, event: eventType, triggeredAt: new Date().toISOString() }] *)
Definition enrich (data : value) (eventType : string) (triggeredAt : string) : value :=
  VObj (put "triggeredAt" (VStr triggeredAt)
          (put "event" (VStr eventType) (own_entries data))).

(** The default of the parameter: [data = {}]. *)
Definition default_data (data : value) : value :=
  match data with
  | VUndef => VObj []
  | _ => data
  end.

(** The method answers [true], [false] or nothing ([undefined]). *)
Definition triggerEventWebhooks (eventType : string) (data0 : value) : M value :=
  let data := default_data data0 in
  try_catch
    (webhooks ← getWebhooksByEventType eventType;
     if (List.length webhooks =? 0)%nat then
       console_log ("[WEBHOOK] No webhooks registered for event: " +:+ eventType);;
       mret VUndef
     else
       console_log ("[WEBHOOK] Triggering " +:+ pretty (List.length webhooks)
                    +:+ " webhooks for event: " +:+ eventType);;
       triggeredAt ← (fun t => (Normal (now_iso t), t));
       let enrichedData := enrich data eventType triggeredAt in
       promises ← map_async (fun webhook => executeWebhook webhook enrichedData) webhooks;
       lift (Promise_all promises);;
       mret (VBool true))
    (fun error =>
       console_error ("[WEBHOOK] Error triggering webhooks for event " +:+ eventType +:+ ":")
                     [ArgErr error];;
       mret (VBool false)).

End Manager.

(** ** The monthly digest *)

Record Digest : Type := mkDigest {
  period_start : Date;
  period_end : Date;
  period_name : string;
  topMovies : list Row;
  topSeries : list Row;
  stats : Row
}.

Section Digest.

Variable db : Trace -> Query -> Completion (list Row).
(** [new Date()] *)
Variable clock : Trace -> Clock.
(** Whether local midnight of a day still belongs to the previous day in
    UTC (a zone ahead of UTC). *)
Variable ahead_of_utc : Date -> bool.
(** [toLocaleString('fr-FR', { month: 'long', year: 'numeric' })] *)
Variable month_label : Date -> string.

(** [date.toISOString().split('T')[0]] for a local midnight. *)
Definition iso_day (date : Date) : Date :=
  if ahead_of_utc date then make_day (year date) (month date) (day date - 1)
  else date.

Definition new_Date_now : M Clock := fun t => (Normal (clock t), t).

Definition getTopWatchedContent (contentType period : string) (limit : Z) : M (list Row) :=
  today ← new_Date_now;
  let y := year (local today) in
  let m := month (local today) in
  let startDate :=
    if (period =? "month")%string then new_Date y (m - 1) 1
    else if (period =? "week")%string then
      new_Date y m (day (local today) - weekday today - 7)
    else new_Date y (m - 1) 1 in
  let formattedStartDate := iso_day startDate in
  let query :=
    if (contentType =? "movie")%string then TopMovies formattedStartDate limit
    else if (contentType =? "series")%string then TopSeries formattedStartDate limit
    else NoQuery in
  try_catch
    (dbInstance_query db query)
    (fun error =>
       console_error ("[WEBHOOK] SQL ERROR (" +:+ contentType +:+ "):")
                     [ArgStr (message error)];;
       mret []).

Definition getMonthlySummaryData : M Digest :=
  try_catch
    (movies ← getTopWatchedContent "movie" "month" 5;
     series ← getTopWatchedContent "series" "month" 5;
     now ← new_Date_now;
     let prevMonth := setMonth (local now) (month (local now) - 1) in
     let prevMonthStart := new_Date (year prevMonth) (month prevMonth) 1 in
     let prevMonthEnd := new_Date (year prevMonth) (month prevMonth + 1) 0 in
     let formattedStart := iso_day prevMonthStart in
     let formattedEnd := iso_day prevMonthEnd in
     rows ← dbInstance_query db (GeneralStats formattedStart formattedEnd);
     let generalStats :=
       match rows with
       | r :: _ => r
       | [] => [("active_users", VNum 0); ("total_plays", VNum 0); ("total_hours", VNum 0)]
       end in
     mret {| period_start := formattedStart;
             period_end := formattedEnd;
             period_name := month_label prevMonth;
             topMovies := movies;
             topSeries := series;
             stats := generalStats |})
    (fun error =>
       console_error "[WEBHOOK] Error while getting data:" [ArgStr (message error)];;
       lift (Throw error)).

End Digest.

(** The window a statement puts on ["ActivityDateInserted"]: the day
    passed as its lower bound, and the one passed as its upper bound when
    the statement has one. *)
Definition lower_bound (q : Query) : option Date :=
  match q with
  | TopMovies since _ | TopSeries since _ => Some since
  | GeneralStats from _ => Some from
  | _ => None
  end.

Definition upper_bound (q : Query) : option Date :=
  match q with
  | GeneralStats _ to => Some to
  | _ => None
  end.

(** The statements sent to the data store, in order. *)
Definition queries (t : Trace) : list Query :=
  omap (fun ev => match ev with DbQuery q _ => Some q | _ => None end) t.

(** ** Reading a run *)

(** The events a run added to the trace it started from. *)
Definition new_events (before after : Trace) : list Event :=
  drop (List.length before) after.

(** What the outer catch block of [executeWebhook] prints for an error. *)
Definition failure_log (webhook : Webhook) (e : JsError) : list Event :=
  ConsoleError ("[WEBHOOK] Error triggering webhook "
                +:+ label (name webhook) +:+ ":") [ArgStr (message e)]
  :: match response e with
     | Some r =>
         [ConsoleError ("[WEBHOOK] Response status: " +:+ integer_text (status r)) [];
          ConsoleError "[WEBHOOK] Response data:" [ArgVal (resp_data r)]]
     | None => []
     end.

(** The server answered the call: axios resolved, or rejected with an
    error that carries the response. *)
Definition answered (out : Completion Response) : bool :=
  match out with
  | Normal _ => true
  | Throw e => match response e with Some _ => true | None => false end
  end.

(** A delivery whose HTTP call resolved and whose timestamp update went through. *)
Definition call_resolved (evs : list Event) : Prop :=
  exists req resp, In (AxiosCall req (Normal resp)) evs.

Definition update_done (id : value) (evs : list Event) : Prop :=
  exists rows, In (DbQuery (UpdateLastTriggered id) (Normal rows)) evs.

(** The text of a list of tokens. *)
Fixpoint text_of (ts : list token) : string :=
  match ts with
  | [] => EmptyString
  | t :: r => token_text t +:+ text_of r
  end.

Fixpoint string_drop (n : nat) (s : string) : string :=
  match n, s with
  | O, _ => s
  | S k, String _ s' => string_drop k s'
  | S _, EmptyString => EmptyString
  end.

(** The [reduce] of [compileTemplate] over the properties of an object,
    for a given compilation of the sub-templates. *)
Fixpoint reduce_props (f : value -> Completion value)
    (result ps : list (string * value)) : Completion value :=
  match ps with
  | [] => Normal (VObj result)
  | (key, sub) :: r => x ← f sub; reduce_props f (set_prop result key x) r
  end.

(** The two configurations [executeWebhook] hands to axios. *)
Definition chat_request (webhook : Webhook) (payload : value) : Request :=
  {| req_method := js_or (method webhook) (VStr "POST");
     req_url := url webhook;
     req_headers := json_content_type;
     req_data := payload;
     req_timeout := 10000 |}.

Definition generic_request (webhook : Webhook) (headers compiledPayload : value) : Request :=
  {| req_method := js_or (method webhook) (VStr "POST");
     req_url := url webhook;
     req_headers := headers;
     req_data := compiledPayload;
     req_timeout := 10000 |}.

Definition sent_log (webhook : Webhook) (isDiscordWebhook : bool) : Event :=
  if isDiscordWebhook
  then ConsoleLog ("[WEBHOOK] Discord webhook " +:+ label (name webhook)
                   +:+ " send successfully")
  else ConsoleLog ("[WEBHOOK] Webhook " +:+ label (name webhook)
                   +:+ " send successfully").

Definition detected_log (isDiscordWebhook : bool) : list Event :=
  if isDiscordWebhook then [ConsoleLog "[WEBHOOK] Webhook Discord detected"] else [].

(** The ways a delivery can go, with what it answers and what it adds to
    the trace. *)
Inductive Delivery (webhook : Webhook) : bool -> list Event -> Prop :=
  | D_no_url (e : JsError) :
      (* reading [url.includes] threw *)
      Delivery webhook false (failure_log webhook e)
  | D_malformed (e : JsError) :
      (* the inner catch block *)
      Delivery webhook false [ConsoleError "[WEBHOOK] Error while parsing:" [ArgErr e]]
  | D_not_compiled (e : JsError) :
      (* [compileTemplate] threw *)
      Delivery webhook false (failure_log webhook e)
  | D_rejected (chat : bool) (req : Request) (e : JsError) :
      req_url req = url webhook ->
      Delivery webhook false
        (detected_log chat ++ AxiosCall req (Throw e) :: failure_log webhook e)
  | D_not_recorded (chat : bool) (req : Request) (r : Response) (e : JsError) :
      req_url req = url webhook ->
      Delivery webhook false
        (detected_log chat ++
         [AxiosCall req (Normal r); sent_log webhook chat;
          DbQuery (UpdateLastTriggered (id webhook)) (Throw e)] ++
         failure_log webhook e)
  | D_delivered (chat : bool) (req : Request) (r : Response) (rows : list Row) :
      req_url req = url webhook ->
      Delivery webhook true
        (detected_log chat ++
         [AxiosCall req (Normal r); sent_log webhook chat;
          DbQuery (UpdateLastTriggered (id webhook)) (Normal rows)]).

(** ** Concrete runtimes, used to evaluate the engine *)

(** A runtime without inherited members. *)
Definition no_proto : value -> string -> value := fun _ _ => VUndef.

(** [JSON.parse] on the texts of the examples: the empty object, and
    texts that are not JSON. *)
Definition parse_examples (text : string) : Completion value :=
  if (text =? "{}")%string then Normal (VObj [])
  else Throw (SyntaxError "Unexpected token").

(** A webhook to a generic receiver, one to a chat endpoint with headers
    of its own, and one whose payload text is not JSON. *)
Definition hook_generic : Webhook :=
  {| id := VNum 1; name := Some "receiver";
     url := VStr "https://example.org/hook"; method := VStr "PUT";
     headers := VStr "{}";
     payload := VObj [("user", VStr "{{userName}}")] |}.

Definition hook_chat : Webhook :=
  {| id := VNum 2; name := Some "chat";
     url := VStr "https://discord.com/api/webhooks/42/token"; method := VUndef;
     headers := VObj [("X-Custom", VStr "1")];
     payload := VObj [("content", VStr "hi {{userName}}")] |}.

Definition hook_malformed : Webhook :=
  {| id := VNum 3; name := Some "broken";
     url := VStr "https://example.org/other"; method := VUndef;
     headers := VStr "{}";
     payload := VStr "{oops" |}.

Definition two_hooks : list Webhook := [hook_malformed; hook_generic].
Definition three_hooks : list Webhook := [hook_generic; hook_malformed; hook_chat].

Definition event_data : value := VObj [("userName", VStr "alice")].

(** The server answers 204; the server answers 500, which axios turns
    into a rejection that carries the response; nobody answers in time. *)
Definition axios_ok : Trace -> Request -> Completion Response :=
  fun _ _ => Normal {| status := 204; resp_data := VNull |}.

Definition axios_500 : Trace -> Request -> Completion Response :=
  fun _ _ => Throw (AxiosError "Request failed with status code 500"
                      (Some {| status := 500; resp_data := VStr "Internal Server Error" |})).

Definition axios_timeout : Trace -> Request -> Completion Response :=
  fun _ _ => Throw (AxiosError "timeout of 10000ms exceeded" None).

(** A store that accepts every statement and has no rows to return, one
    that refuses to write, and a registry that holds the given webhooks. *)
Definition db_ok : Trace -> Query -> Completion (list Row) :=
  fun _ _ => Normal [].

Definition db_read_only : Trace -> Query -> Completion (list Row) :=
  fun _ q => match q with
             | UpdateLastTriggered _ =>
                 Throw (DbError "cannot execute UPDATE in a read-only transaction")
             | _ => Normal []
             end.

Definition registry_with (webhooks : list Webhook)
  : Trace -> string -> Completion (list Webhook) :=
  fun _ _ => Normal webhooks.

Definition fixed_time : Trace -> string := fun _ => "2025-03-15T10:00:00.000Z".

(** ** Statements of the specification the engine does not meet *)

(** C1 as stated: the timestamp is written exactly when the server
    answered the call, whatever the status. *)
Definition records_iff_answered
    (proto : value -> string -> value) (JSON_parse : string -> Completion value)
    (axios : Trace -> Request -> Completion Response)
    (db : Trace -> Query -> Completion (list Row))
    (webhook : Webhook) (data : value) (t : Trace) : Prop :=
  let evs := new_events t (snd (executeWebhook proto JSON_parse axios db webhook data t)) in
  forall req out, In (AxiosCall req out) evs ->
    (touched evs <> [] <-> answered out = true).

(** C2 as stated: once the call has completed, a failure of the
    timestamp update leaves the delivery successful. *)
Definition update_failure_swallowed
    (proto : value -> string -> value) (JSON_parse : string -> Completion value)
    (axios : Trace -> Request -> Completion Response)
    (db : Trace -> Query -> Completion (list Row))
    (webhook : Webhook) (data : value) (t : Trace) : Prop :=
  let r := executeWebhook proto JSON_parse axios db webhook data t in
  let evs := new_events t (snd r) in
  forall id e, call_resolved evs ->
    In (DbQuery (UpdateLastTriggered id) (Throw e)) evs ->
    fst r = Normal true.

(** C6 as stated: with no webhook for the event, the dispatch answers
    [true] and sends nothing. *)
Definition no_webhooks_returns_true
    (proto : value -> string -> value) (JSON_parse : string -> Completion value)
    (axios : Trace -> Request -> Completion Response)
    (db : Trace -> Query -> Completion (list Row))
    (registry : Trace -> string -> Completion (list Webhook)) (now_iso : Trace -> string)
    (eventType : string) (data : value) (t : Trace) : Prop :=
  registry t eventType = Normal [] ->
  let r := triggerEventWebhooks proto JSON_parse axios db registry now_iso eventType data t in
  fst r = Normal (VBool true) /\ http_calls (new_events t (snd r)) = [].

(** The trace of a dispatch once the webhooks are known. *)
Definition dispatch_start (eventType : string) (webhooks : list Webhook) (t : Trace) : Trace :=
  (t ++ [DbSelect eventType (Normal webhooks);
         ConsoleLog ("[WEBHOOK] Triggering " +:+ pretty (List.length webhooks)
                     +:+ " webhooks for event: " +:+ eventType)])%list.

(** A webhook with malformed JSON in [headers] or [payload]: the inner
    [try] block throws. *)
Definition malformed (JSON_parse : string -> Completion value) (webhook : Webhook) : Prop :=
  exists e, parse_webhook JSON_parse webhook = Throw e.

(** A webhook for which a request can be built: [url] has the method
    [includes], both columns parse, and on the generic path the payload
    compiles against the data. *)
Definition deliverable (proto : value -> string -> value)
    (JSON_parse : string -> Completion value) (webhook : Webhook) (data : value) : Prop :=
  exists chat headers payload,
    call_includes (url webhook) "discord.com/api/webhooks" = Normal chat /\
    parse_webhook JSON_parse webhook = Normal (headers, payload) /\
    (chat = true \/ exists compiled, compileTemplate proto payload data = Normal compiled).

(** The deliveries of a fan-out, each with its answer and the events it
    added, and the events of them all, in order. *)
Definition events_of (runs : list (bool * list Event)) : list Event :=
  concat (List.map snd runs).

(** C7 as stated, on the fan-out: with exactly one malformed webhook, it
    reports failure and every other one reports success as soon as its
    HTTP call completed. *)
Definition siblings_succeed_on_completed_call
    (proto : value -> string -> value) (JSON_parse : string -> Completion value)
    (axios : Trace -> Request -> Completion Response)
    (db : Trace -> Query -> Completion (list Row))
    (ws : list Webhook) (data : value) (t : Trace) : Prop :=
  let r := map_async (fun w => executeWebhook proto JSON_parse axios db w data) ws t in
  let evs := new_events t (snd r) in
  forall (i : nat) (bad : Webhook),
    ws !! i = Some bad -> malformed JSON_parse bad ->
    (forall (j : nat) (w : Webhook), j <> i -> ws !! j = Some w -> ~ malformed JSON_parse w) ->
    exists bs,
      fst r = Normal (List.map Normal bs) /\
      bs !! i = Some false /\
      forall (j : nat) (w : Webhook) req resp,
        j <> i -> ws !! j = Some w ->
        In (AxiosCall req (Normal resp)) evs -> req_url req = url w ->
        bs !! j = Some true.

(** ** The digest: windows and concrete clocks *)

(** The previous calendar month of a day, its first and its last day. *)
Definition prev_month (today : Date) : Z * Z :=
  if (month today =? 0)%Z then (year today - 1, 11) else (year today, month today - 1).

Definition first_of_prev (today : Date) : Date :=
  let '(y, m) := prev_month today in mkDay y m 1.

Definition last_of_prev (today : Date) : Date :=
  let '(y, m) := prev_month today in mkDay y m (days_in_month y m).

(** C3 as stated: the three statements of the digest look at the same
    window, with the same first and the same last day. *)
Definition same_window (q1 q2 q3 : Query) : Prop :=
  lower_bound q1 = lower_bound q2 /\ lower_bound q2 = lower_bound q3 /\
  upper_bound q1 = upper_bound q2 /\ upper_bound q2 = upper_bound q3.

Definition digest_queries_share_window
    (db : Trace -> Query -> Completion (list Row)) (clock : Trace -> Clock)
    (ahead_of_utc : Date -> bool) (month_label : Date -> string) (t : Trace) : Prop :=
  exists q1 q2 q3,
    queries (new_events t (snd (getMonthlySummaryData db clock ahead_of_utc month_label t)))
    = [q1; q2; q3] /\
    same_window q1 q2 q3.

(** A clock stopped on a day, a zone not ahead of UTC, and a label that
    spells the month in figures. *)
Definition clock_on (today : Date) (dow : Z) : Trace -> Clock :=
  fun _ => {| local := today; weekday := dow |}.

Definition zone_utc : Date -> bool := fun _ => false.

Definition figures_label (d : Date) : string :=
  pretty (month d + 1) +:+ "/" +:+ pretty (year d).

(** ** Shapes of templates, keys and texts *)

(** No key occurs twice. *)
Fixpoint distinct (keys : list string) : bool :=
  match keys with
  | [] => true
  | k :: r => negb (existsb (String.eqb k) r) && distinct r
  end.

(** A template made of mappings, numbers, booleans and strings without
    the opening of a placeholder; no key is [__proto__]. *)
Fixpoint static_template (t : value) : bool :=
  match t with
  | VStr s => negb (includes s "{{")
  | VObj props =>
      distinct (List.map fst props) &&
      (fix all (ps : list (string * value)) : bool :=
         match ps with
         | [] => true
         | (k, v) :: r => negb (k =? "__proto__")%string && static_template v && all r
         end) props
  | VArr _ | VNull => false
  | _ => true
  end.

(** A [null] somewhere in the template, at any depth. *)
Fixpoint contains_null (t : value) : bool :=
  match t with
  | VNull => true
  | VObj props =>
      (fix any (ps : list (string * value)) : bool :=
         match ps with
         | [] => false
         | (_, v) :: r => contains_null v || any r
         end) props
  | VArr elems =>
      (fix any (es : list value) : bool :=
         match es with
         | [] => false
         | v :: r => contains_null v || any r
         end) elems
  | _ => false
  end.

(** The [reduce] of [compileTemplate] over the elements of an array, for
    a given compilation of the elements. *)
Fixpoint reduce_elems (f : value -> Completion value)
    (result : list (string * value)) (i : nat) (es : list value) : Completion value :=
  match es with
  | [] => Normal (VObj result)
  | sub :: r => x ← f sub; reduce_elems f (set_prop result (pretty i) x) (S i) r
  end.

(** The properties an array of compiled elements ends up as. *)
Fixpoint indexed (i : nat) (vs : list value) : list (string * value) :=
  match vs with
  | [] => []
  | v :: r => (pretty i, v) :: indexed (S i) r
  end.

Fixpoint all_chars (p : ascii -> bool) (s : string) : bool :=
  match s with
  | EmptyString => true
  | String c r => p c && all_chars p r
  end.

(** A key that can be written between the braces as it is: not empty, and
    free of closing braces, dots and white space. *)
Definition key_char (c : ascii) : bool :=
  negb (Ascii.eqb c "}"%char || Ascii.eqb c "."%char || is_white c).

Definition plain_key (k : string) : bool :=
  match k with
  | EmptyString => false
  | _ => all_chars key_char k
  end.

Definition not_open_brace (c : ascii) : bool := negb (Ascii.eqb c "{"%char).

Fixpoint chars (s : string) : list token :=
  match s with
  | EmptyString => []
  | String c r => TChar c :: chars r
  end.

Definition not_proto_key (kv : string * value) : bool :=
  negb (fst kv =? "__proto__")%string.

(** The value found by following own properties of nested mappings. *)
Fixpoint nested (v : value) (keys : list string) : option value :=
  match keys with
  | [] => Some v
  | k :: r =>
      match v with
      | VObj props =>
          match assoc k props with
          | Some x => nested x r
          | None => None
          end
      | _ => None
      end
  end.

(** A dotted path written from plain keys. *)
Definition plain_path (keys : list string) : bool :=
  match keys with
  | [] => false
  | _ => forallb plain_key keys
  end.

(** The text of a plain path: its characters are those of keys, or dots. *)
Definition path_char (c : ascii) : bool := key_char c || Ascii.eqb c "."%char.

(** A request built by [executeWebhook] for a webhook: to its url, with
    its method or [POST], and the timeout of ten seconds. *)
Definition own_request (webhook : Webhook) (req : Request) : Prop :=
  req_url req = url webhook /\
  req_method req = js_or (method webhook) (VStr "POST") /\
  req_timeout req = 10000.

(** Something was printed with [console.error]. *)
Definition printed_error (evs : list Event) : Prop :=
  exists msg args, In (ConsoleError msg args) evs.

(** A generic webhook whose payload holds a [null], a chat webhook whose
    headers are not JSON, a webhook with nothing but a url, and one
    without a url. *)
Definition hook_null_payload : Webhook :=
  {| id := VNum 4; name := Some "nullable";
     url := VStr "https://example.org/hook"; method := VUndef;
     headers := VObj [];
     payload := VObj [("content", VStr "{{userName}}"); ("avatar", VNull)] |}.

Definition hook_chat_bad_headers : Webhook :=
  {| id := VNum 5; name := Some "chat";
     url := VStr "https://discord.com/api/webhooks/42/token"; method := VUndef;
     headers := VStr "{oops";
     payload := VObj [("content", VStr "hi")] |}.

Definition hook_bare : Webhook :=
  {| id := VNum 6; name := None;
     url := VStr "https://example.org/bare"; method := VUndef;
     headers := VNull;
     payload := VStr EmptyString |}.

Definition hook_no_url : Webhook :=
  {| id := VNum 7; name := Some "nowhere";
     url := VNull; method := VUndef;
     headers := VStr "{oops";
     payload := VObj [] |}.

(** C8 as stated: on the chat path the declared headers are ignored, so
    that a webhook with the marker in its url whose payload parses has this
    payload sent as it is, under the fixed header, whatever its headers
    column holds. *)
Definition chat_path_ignores_headers
    (proto : value -> string -> value) (JSON_parse : string -> Completion value)
    (axios : Trace -> Request -> Completion Response)
    (db : Trace -> Query -> Completion (list Row))
    (webhook : Webhook) (data : value) (t : Trace) : Prop :=
  forall (u : string) (parsedPayload : value),
    url webhook = VStr u ->
    includes u "discord.com/api/webhooks" = true ->
    parse_column JSON_parse (payload webhook) = Normal parsedPayload ->
    exists req,
      http_calls (new_events t (snd (executeWebhook proto JSON_parse axios db webhook data t)))
      = [req] /\
      req_data req = parsedPayload /\
      req_headers req = json_content_type.

(** A malformed webhook, one whose payload does not compile, and one that
    can be delivered. *)
Definition mixed_hooks : list Webhook := [hook_malformed; hook_null_payload; hook_generic].

(** A registry that cannot be read. *)
Definition registry_down : Trace -> string -> Completion (list Webhook) :=
  fun _ _ => Throw (DbError "connection refused").

(** What [getTopWatchedContent] answers for an outcome of its statement,
    and what it prints. *)
Definition rows_or_empty (out : Completion (list Row)) : list Row :=
  match out with
  | Normal rows => rows
  | Throw _ => []
  end.

Definition sql_error_log (contentType : string) (out : Completion (list Row)) : list Event :=
  match out with
  | Normal _ => []
  | Throw e =>
      [ConsoleError ("[WEBHOOK] SQL ERROR (" +:+ contentType +:+ "):") [ArgStr (message e)]]
  end.

(** The last day of the month before the month of a day. *)
Definition last_of_month_before (d : Date) : Date :=
  let '(y, m) := prev_month d in mkDay y m (days_in_month y m).

(** A zone ahead of UTC, and a store that cannot compute the statistics. *)
Definition zone_ahead : Date -> bool := fun _ => true.

Definition db_no_stats : Trace -> Query -> Completion (list Row) :=
  fun _ q => match q with
             | GeneralStats _ _ => Throw (DbError "statement timeout")
             | _ => Normal []
             end.

Definition db_no_tops : Trace -> Query -> Completion (list Row) :=
  fun _ q => match q with
             | TopMovies _ _ | TopSeries _ _ => Throw (DbError "statement timeout")
             | _ => Normal []
             end.

(** ** The Discord helper *)

(** [axios.post(url, data, config)]: the request
    [{ ...config, method: 'post', url, data }].  No timeout is asked for,
    which axios takes as 0: none. *)
Definition post_request (u data : value) : Request :=
  {| req_method := VStr "post";
     req_url := u;
     req_headers := json_content_type;
     req_data := data;
     req_timeout := 0 |}.

Section Discord.

Variable axios : Trace -> Request -> Completion Response.

Definition executeDiscordWebhook (webhook : Webhook) (data : value) : M bool :=
  try_catch
    (console_log ("Execution of discord webhook: " +:+ label (name webhook));;
     response ← call_axios axios (post_request (url webhook) data);
     console_log ("[WEBHOOK] Discord response: " +:+ integer_text (status response));;
     mret ((200 <=? status response) && (status response <? 300)))
    (fun error =>
       console_error ("[WEBHOOK] Error with Discord webhook "
                      +:+ label (name webhook) +:+ ":")
                     [ArgStr (message error)];;
       match response error with
       | Some r =>
           console_error "[WEBHOOK] Response status:" [ArgVal (VNum (status r))];;
           console_error "[WEBHOOK] Response data:" [ArgVal (resp_data r)]
       | None => mret tt
       end;;
       mret false).

End Discord.

(** ** The event emitter of the manager *)

(** A listener of an EventEmitter: the event it was registered for and
    the asynchronous function to call. *)
Definition Listener : Type := string * (value -> M unit).

(** The manager object: its emitter, given by the listeners in the order
    of their registration. *)
Record Manager : Type := mkManager {
  eventEmitter : list Listener
}.

Section Emitter.

Variable proto : value -> string -> value.
Variable JSON_parse : string -> Completion value.
Variable axios : Trace -> Request -> Completion Response.
Variable db : Trace -> Query -> Completion (list Row).
Variable registry : Trace -> string -> Completion (list Webhook).
Variable now_iso : Trace -> string.
(** What [emit] throws for an ['error'] event that nobody listens to. *)
Variable unhandled : value -> JsError.

(** The listener one expects for an event:
    [async (data) => { await this.triggerEventWebhooks(eventType, data); }],
    registered under [eventType]. *)
Definition listener_for (eventType : string) : Listener :=
  (eventType,
   fun data =>
     triggerEventWebhooks proto JSON_parse axios db registry now_iso eventType data;;
     mret tt).

(** The three registrations of [setupEventListeners], as written; [on]
    adds a listener after those already registered. *)
Definition setupEventListeners (listeners : list Listener) : list Listener :=
  listeners ++ [("playback_started",
                 fun data =>
                   triggerEventWebhooks proto JSON_parse axios db registry now_iso
                     "playback_started" data;;
                   mret tt);
                ("playback_ended",
                 fun data =>
                   triggerEventWebhooks proto JSON_parse axios db registry now_iso
                     "playback_ended" data;;
                   mret tt);
                ("media_recently_added",
                 fun data =>
                   triggerEventWebhooks proto JSON_parse axios db registry now_iso
                     "media_recently_added" data;;
                   mret tt)].

(** [new WebhookManager()], given [WebhookManager.instance]: the manager
    obtained and the instance kept afterwards. *)
Definition constructor (instance : option Manager) : Manager * option Manager :=
  match instance with
  | Some existing => (existing, instance)
  | None =>
      let this := {| eventEmitter := setupEventListeners [] |} in
      (this, Some this)
  end.

(** The listeners are called in order; the promise each one returns is
    dropped, settled one way or the other.  Each listener is run to its
    end before the next one, as the deliveries of [map_async] are. *)
Fixpoint call_listeners (handlers : list Listener) (data : value) : M unit :=
  match handlers with
  | [] => mret tt
  | (_, handler) :: r => settle (handler data);; call_listeners r data
  end.

(** [emitter.emit(eventType, data)]: whether there were listeners. *)
Definition EventEmitter_emit (listeners : list Listener) (eventType : string) (data : value)
  : M bool :=
  match List.filter (fun l => (fst l =? eventType)%string) listeners with
  | [] =>
      if (eventType =? "error")%string then lift (Throw (unhandled data))
      else mret false
  | handlers => call_listeners handlers data;; mret true
  end.

Definition emitEvent (this : Manager) (eventType : string) (data : value) : M unit :=
  EventEmitter_emit (eventEmitter this) eventType data;;
  mret tt.

(** The instance kept after [n] constructions. *)
Fixpoint constructed (n : nat) (instance : option Manager) : option Manager :=
  match n with
  | O => instance
  | S k => constructed k (snd (constructor instance))
  end.

End Emitter.

(** The events the manager listens to. *)
Definition known_events : list string :=
  ["playback_started"; "playback_ended"; "media_recently_added"].

(** ** The monthly report *)

(** [row.key] on a row of a query result. *)
Definition column (row : Row) (key : string) : value :=
  match assoc key row with
  | Some v => v
  | None => VUndef
  end.

Section Report.

Variable db : Trace -> Query -> Completion (list Row).
Variable clock : Trace -> Clock.
Variable ahead_of_utc : Date -> bool.
Variable month_label : Date -> string.
Variable axios : Trace -> Request -> Completion Response.
(** The rows of [SELECT * FROM webhooks WHERE id = $1 AND enabled = true];
    this read is an input of the run, the trace records what follows it. *)
Variable find_webhook : Trace -> value -> Completion (list Webhook).
(** The text of [Math.round(x)] in a template literal. *)
Variable round_text : value -> Completion string.
(** [new Date(day).toLocaleDateString('en-US')] *)
Variable en_US_date : Date -> string.

(** The callback of [data.topMovies.map((movie, index) => ...)]. *)
Definition top_field (index : nat) (row : Row) : Completion value :=
  title ← ToString (column row "title");
  minutes ← round_text (column row "total_minutes");
  viewers ← ToString (column row "unique_viewers");
  Normal (VObj [("name", VStr (pretty (index + 1)%nat +:+ ". " +:+ title));
                ("value", VStr (minutes +:+ " minutes • " +:+ viewers +:+ " viewers"));
                ("inline", VBool false)]).

Fixpoint top_fields (index : nat) (rows : list Row) : Completion (list value) :=
  match rows with
  | [] => Normal []
  | row :: rest =>
      field ← top_field index row;
      fields ← top_fields (S index) rest;
      Normal (field :: fields)
  end.

(** [fields.length > 0 ? fields : [{ name: "No data", value: text }]] *)
Definition fields_or_none (fields : list value) (text : string) : value :=
  match fields with
  | [] => VArr [VObj [("name", VStr "No data"); ("value", VStr text)]]
  | _ => VArr fields
  end.

Definition monthlyPayload (data : Digest) : Completion value :=
  moviesFields ← top_fields 0 (topMovies data);
  seriesFields ← top_fields 0 (topSeries data);
  users ← ToString (js_or (column (stats data) "active_users") (VNum 0));
  plays ← ToString (js_or (column (stats data) "total_plays") (VNum 0));
  hours ← round_text (js_or (column (stats data) "total_hours") (VNum 0));
  Normal
    (VObj
       [("content", VStr ("📊 **Monthly Report - " +:+ period_name data +:+ "**"));
        ("embeds",
         VArr
           [VObj [("title", VStr "🎬 Most Watched Movies");
                  ("color", VNum 15844367);
                  ("fields", fields_or_none moviesFields "No movies watch this month")];
            VObj [("title", VStr "📺 Most Watched Series");
                  ("color", VNum 5793266);
                  ("fields", fields_or_none seriesFields "No Series watch this month")];
            VObj [("title", VStr "📈 General Statistics");
                  ("color", VNum 5763719);
                  ("fields",
                   VArr [VObj [("name", VStr "Active Users"); ("value", VStr users);
                               ("inline", VBool true)];
                         VObj [("name", VStr "Total Plays"); ("value", VStr plays);
                               ("inline", VBool true)];
                         VObj [("name", VStr "Total Hours Watched"); ("value", VStr hours);
                               ("inline", VBool true)]]);
                  ("footer",
                   VObj [("text",
                          VStr ("Period: from " +:+ en_US_date (period_start data)
                                +:+ " to " +:+ en_US_date (period_end data)))])]])]).

Definition triggerMonthlySummaryWebhook (webhookId : value) : M bool :=
  try_catch
    (rows ← (fun t => (find_webhook t webhookId, t));
     match rows with
     | [] =>
         idText ← lift (ToString webhookId);
         console_error ("[WEBHOOK] Webhook ID " +:+ idText +:+ " not found or disable") [];;
         mret false
     | webhook :: _ =>
         (* Generate the monthly summary data *)
         try_catch
           (data ← getMonthlySummaryData db clock ahead_of_utc month_label;
            body ← lift (monthlyPayload data);
            (* Send the webhook *)
            call_axios axios {| req_method := js_or (method webhook) (VStr "POST");
                                req_url := url webhook;
                                req_headers := json_content_type;
                                req_data := body;
                                req_timeout := 10000 |};;
            console_log ("[WEBHOOK] Monthly report webhook " +:+ label (name webhook)
                         +:+ " sent successfully");;
            (* Update the last triggered timestamp *)
            dbInstance_query db (UpdateLastTriggered (id webhook));;
            mret true)
           (fun dataError =>
              console_error "[WEBHOOK] Error while preparing the data:"
                            [ArgStr (message dataError)];;
              mret false)
     end)
    (fun error =>
       console_error "[WEBHOOK] Error while sending the monthly report:"
                     [ArgStr (message error)];;
       mret false).

End Report.

(** What the inner catch block of [triggerMonthlySummaryWebhook] prints. *)
Definition prepare_log (e : JsError) : Event :=
  ConsoleError "[WEBHOOK] Error while preparing the data:" [ArgStr (message e)].

(** The [fields] of an embed. *)
Definition embed_fields (embed : value) : list value :=
  match assoc "fields" (own_entries embed) with
  | Some (VArr fields) => fields
  | _ => []
  end.

(** Oracles for the examples: no webhook has the id; the row of the chat
    webhook is found; whole numbers are rounded to themselves; dates are
    written month first. *)
Definition find_none : Trace -> value -> Completion (list Webhook) :=
  fun _ _ => Normal [].

Definition find_chat : Trace -> value -> Completion (list Webhook) :=
  fun _ _ => Normal [hook_chat].

Definition round_whole (v : value) : Completion string :=
  match v with
  | VNum (Int n) => Normal (integer_text n)
  | _ => Normal "NaN"
  end.

Definition month_first (d : Date) : string :=
  pretty (month d + 1) +:+ "/" +:+ pretty (day d) +:+ "/" +:+ pretty (year d).

(** The digest of February 2025 on an empty store, and the report made of it. *)
Definition digest_example : Digest :=
  {| period_start := mkDay 2025 1 1; period_end := mkDay 2025 1 28;
     period_name := "2/2025"; topMovies := []; topSeries := [];
     stats := [("active_users", VNum 0); ("total_plays", VNum 0);
               ("total_hours", VNum 0)] |}.

Definition report_example : value :=
  match monthlyPayload round_whole month_first digest_example with
  | Normal body => body
  | Throw _ => VNull
  end.

(** * Properties of the template compiler *)

Lemma append_String (c : ascii) (a b : string) : String c a +:+ b = String c (a +:+ b).
Proof. reflexivity. Qed.

Lemma append_Empty (b : string) : EmptyString +:+ b = b.
Proof. reflexivity. Qed.

Ltac sapp := rewrite ?append_String, ?append_Empty.

Lemma string_drop_app (a b : string) : string_drop (String.length a) (a +:+ b) = b.
Proof. induction a as [|c a IH]; sapp; simpl; auto. Qed.

Lemma string_app_assoc (a b c : string) : (a +:+ b) +:+ c = a +:+ (b +:+ c).
Proof. induction a as [|x a IH]; sapp; [reflexivity | now rewrite IH]. Qed.

Lemma string_app_length (a b : string) :
  String.length (a +:+ b) = (String.length a + String.length b)%nat.
Proof. induction a as [|x a IH]; sapp; simpl; [reflexivity | now rewrite IH]. Qed.

Lemma starts_with_app (p s : string) :
  starts_with p s = true -> exists r, s = p +:+ r.
Proof.
  revert s. induction p as [|a p IH]; intros s H; simpl in *.
  - now exists s.
  - destruct s as [|b s]; [discriminate|].
    apply andb_prop in H as [Hab Hps].
    apply Ascii.eqb_eq in Hab. subst b.
    destruct (IH _ Hps) as [r ->]. now exists r.
Qed.

Lemma span_open_app (s run rest : string) :
  span_open s = (run, rest) -> s = run +:+ rest.
Proof.
  revert run rest. induction s as [|c s IH]; intros run rest H; simpl in H.
  - now inversion H.
  - destruct (Ascii.eqb c "}"%char).
    + now inversion H.
    + destruct (span_open s) as [run' rest'] eqn:E.
      inversion H; subst. sapp. now rewrite (IH run' rest).
Qed.

(** A match at the head of [s] is the text ["{{" path "}}"]. *)
Lemma placeholder_at_shape (s p : string) :
  placeholder_at s = Some p ->
  exists rest, s = token_text (TPlaceholder p) +:+ rest.
Proof.
  unfold placeholder_at. intros H.
  destruct s as [|a s]; [discriminate|].
  destruct a as [[] [] [] [] [] [] [] []]; try discriminate.
  destruct s as [|b s]; [discriminate|].
  destruct b as [[] [] [] [] [] [] [] []]; try discriminate.
  destruct (span_open s) as [run rest] eqn:E.
  destruct (negb (run =? EmptyString)%string && starts_with "}}" rest) eqn:C; [|discriminate].
  inversion H; subst p. apply andb_prop in C as [_ C].
  apply starts_with_app in C as [r ->].
  apply span_open_app in E. subst s. exists r. unfold token_text.
  sapp. now rewrite !string_app_assoc.
Qed.

Lemma token_text_length (p : string) :
  String.length (token_text (TPlaceholder p)) = (4 + String.length p)%nat.
Proof. unfold token_text. sapp. simpl. rewrite string_app_length. simpl. lia. Qed.

Lemma text_of_scan (s : string) (skip : nat) :
  (skip <= String.length s)%nat -> text_of (scan skip s) = string_drop skip s.
Proof.
  revert skip. induction s as [|c s IH]; intros skip Hle.
  - simpl in *. now destruct skip.
  - destruct skip as [|k].
    + cbn [scan string_drop].
      destruct (placeholder_at (String c s)) as [p|] eqn:E.
      * apply placeholder_at_shape in E as [rest E].
        assert (Hlen : String.length (String c s) = (4 + String.length p + String.length rest)%nat)
          by (rewrite E, string_app_length, token_text_length; lia).
        cbn [text_of]. rewrite IH by (simpl in Hlen; lia).
        transitivity (token_text (TPlaceholder p) +:+ rest); [|now rewrite E].
        f_equal.
        change (string_drop (3 + String.length p) s)
          with (string_drop (4 + String.length p) (String c s)).
        rewrite E, <- token_text_length. apply string_drop_app.
      * cbn [text_of token_text]. rewrite IH by lia. reflexivity.
    + cbn [scan string_drop]. apply IH. simpl in Hle. lia.
Qed.

(** The tokens of a string spell the string. *)
Lemma text_of_tokens (s : string) : text_of (tokens s) = s.
Proof. unfold tokens. now rewrite text_of_scan by lia. Qed.

(** A replacer that answers [match] everywhere leaves the subject as it is. *)
Lemma replace_tokens_same (f : string -> string -> Completion string) (ts : list token) :
  (forall p, In (TPlaceholder p) ts ->
             f (token_text (TPlaceholder p)) p = Normal (token_text (TPlaceholder p))) ->
  replace_tokens f ts = Normal (text_of ts).
Proof.
  induction ts as [|t ts IH]; intros H; [reflexivity|].
  destruct t as [c|p]; cbn [replace_tokens text_of].
  - rewrite IH by (intros q Hq; apply H; now right). reflexivity.
  - rewrite (H p) by now left.
    rewrite IH by (intros q Hq; apply H; now right). reflexivity.
Qed.

(** Placeholders whose walk ends on [undefined] are left in place: a
    string in which no placeholder resolves is returned as it is. *)
Lemma compileTemplate_unresolved_kept proto (data : value) (s : string) :
  (forall p, In (TPlaceholder p) (tokens s) -> resolve proto data p = Normal VUndef) ->
  compileTemplate proto (VStr s) data = Normal (VStr s).
Proof.
  intros H. cbn.
  rewrite replace_tokens_same.
  - cbn. now rewrite text_of_tokens.
  - intros p Hp. unfold replacer. now rewrite (H p Hp).
Qed.

(** A scalar on the way is read like any other receiver: what it does not
    have is [undefined], and the walk stops there. *)
Lemma walk_undefined proto (keys : list string) : walk proto VUndef keys = Normal VUndef.
Proof. now destruct keys. Qed.

(** A key that the receiver does not have, neither of its own nor
    inherited, ends the walk. *)
Lemma walk_absent_key proto (props : list (string * value)) (key : string)
    (rest : list string) :
  assoc key props = None -> proto (VObj props) key = VUndef ->
  walk proto (VObj props) (key :: rest) = Normal VUndef.
Proof. intros H1 H2. cbn. rewrite H1, H2. apply walk_undefined. Qed.

Example compile_scalar_intermediate :
  compileTemplate no_proto (VStr "id={{a.b.c}}") (VObj [("a", VNum 5)])
  = Normal (VStr "id={{a.b.c}}").
Proof. reflexivity. Qed.

Example compile_resolved :
  compileTemplate no_proto (VObj [("user", VStr "{{data.userName}}")])
                  (VObj [("data", VObj [("userName", VStr "alice")])])
  = Normal (VObj [("user", VStr "alice")]).
Proof. reflexivity. Qed.

(** C4: a placeholder whose path runs through [null] is not left in
    place: reading a property of [null] throws, and the exception leaves
    [compileTemplate]; the guard of the loop only stops at [undefined]. *)
Theorem compileTemplate_null_intermediate_throws proto :
  compileTemplate proto (VStr "{{a.b}}") (VObj [("a", VNull)])
  = Throw (TypeError "Cannot read properties of null").
Proof. reflexivity. Qed.

(** Compiling an object is the [reduce] over its properties. *)
Lemma compileTemplate_object proto (props : list (string * value)) (data : value) :
  compileTemplate proto (VObj props) data
  = reduce_props (fun sub => compileTemplate proto sub data) [] props.
Proof.
  cbn. generalize (@nil (string * value)).
  induction props as [|[k v] r IH]; intros acc; [reflexivity|].
  cbn. destruct (compileTemplate proto v data); cbn; [apply IH | reflexivity].
Qed.

Lemma put_fresh (key : string) (v : value) (props : list (string * value)) :
  ~ In key (List.map fst props) -> put key v props = (props ++ [(key, v)])%list.
Proof.
  induction props as [|[k w] r IH]; intros H; [reflexivity|].
  cbn in *. destruct (String.eqb_spec k key) as [->|Hne].
  - exfalso. apply H. now left.
  - rewrite IH; [reflexivity|]. intros Hin. apply H. now right.
Qed.

Lemma reduce_props_entries (f : value -> Completion value)
    (acc ps : list (string * value)) (r : value) :
  reduce_props f acc ps = Normal r ->
  ~ In "__proto__" (List.map fst ps) ->
  List.NoDup (List.map fst acc ++ List.map fst ps) ->
  exists out,
    r = VObj (acc ++ out) /\
    Forall2 (fun kv kv' => fst kv' = fst kv /\ f (snd kv) = Normal (snd kv')) ps out.
Proof.
  revert acc. induction ps as [|[k v] ps IH]; intros acc Hr Hproto Hnd.
  - cbn in Hr. inversion Hr. exists []. rewrite app_nil_r. split; [reflexivity | constructor].
  - cbn in Hr. destruct (f v) as [x|e] eqn:Ef; cbn in Hr; [|discriminate].
    cbn in Hproto, Hnd.
    assert (Hk : k <> "__proto__") by (intros ->; apply Hproto; now left).
    unfold set_prop in Hr. apply String.eqb_neq in Hk. rewrite Hk in Hr.
    assert (Hfresh : ~ In k (List.map fst acc)).
    { intros Hin. apply NoDup_remove_2 in Hnd. apply Hnd.
      apply in_or_app. now left. }
    rewrite put_fresh in Hr by exact Hfresh.
    apply IH in Hr as [out [-> HF]].
    + exists ((k, x) :: out). split.
      * now rewrite <- app_assoc.
      * constructor; [now split | exact HF].
    + intros Hin. apply Hproto. now right.
    + rewrite List.map_app. cbn. rewrite <- app_assoc. cbn.
      apply NoDup_remove_1 in Hnd as Hnd'.
      apply NoDup_remove_2 in Hnd.
      clear - Hnd Hnd'. revert Hnd Hnd'.
      generalize (List.map fst acc) (List.map fst ps). intros l1 l2 Hn Hd.
      induction l1 as [|a l1 IHl]; cbn in *.
      * constructor; assumption.
      * inversion Hd; subst. constructor.
        -- intros Hin. apply in_app_or in Hin as [Hin|[->|Hin]].
           ++ apply H1. apply in_or_app. now left.
           ++ apply Hn. now left.
           ++ apply H1. apply in_or_app. now right.
        -- apply IHl; [|assumption]. intros Hin. apply Hn. now right.
Qed.

(** What does hold for mappings: an object whose keys are not
    [__proto__] compiles, when it compiles, to an object with the same
    keys in the same order, each bound to the compilation of its value. *)
Lemma compileTemplate_object_entries proto (props : list (string * value)) (data r : value) :
  compileTemplate proto (VObj props) data = Normal r ->
  ~ In "__proto__" (List.map fst props) ->
  List.NoDup (List.map fst props) ->
  exists out,
    r = VObj out /\
    List.map fst out = List.map fst props /\
    Forall2 (fun kv kv' => compileTemplate proto (snd kv) data = Normal (snd kv')) props out.
Proof.
  intros Hr Hp Hnd. rewrite compileTemplate_object in Hr.
  apply reduce_props_entries in Hr as [out [-> HF]]; try assumption.
  exists out. split; [reflexivity|]. split.
  - clear - HF. induction HF as [|kv kv' l l' [Hk _] _ IH]; cbn; [reflexivity|].
    now rewrite Hk, IH.
  - clear - HF. induction HF as [|kv kv' l l' [_ Hv] _ IH]; constructor; assumption.
Qed.

(** Numbers, booleans and [undefined] are returned as they are. *)
Lemma compileTemplate_scalar proto (template data : value) :
  typeof template <> "object" -> typeof template <> "string" ->
  compileTemplate proto template data = Normal template.
Proof. destruct template; cbn; intros H1 H2; try reflexivity; now destruct H1 + destruct H2. Qed.

(** A key named [__proto__] is lost on the way. *)
Example compile_proto_key :
  compileTemplate no_proto (VObj [("__proto__", VNum 1); ("a", VNum 2)]) (VObj [])
  = Normal (VObj [("a", VNum 2)]).
Proof. reflexivity. Qed.

(** C5: the structure of a template is not always kept.  [null] has type
    ['object'], so a [null] anywhere in the template reaches
    [Object.keys(null)], which throws; and a sequence is rebuilt from [{}],
    so it comes back as a mapping keyed by its indices. *)
Theorem compileTemplate_breaks_structure proto (data : value) :
  compileTemplate proto VNull data
    = Throw (TypeError "Cannot convert undefined or null to object") /\
  compileTemplate proto (VObj [("a", VNull)]) data
    = Throw (TypeError "Cannot convert undefined or null to object") /\
  compileTemplate proto (VArr [VNum 1; VBool true]) data
    = Normal (VObj [("0", VNum 1); ("1", VBool true)]).
Proof. repeat split; reflexivity. Qed.

(** * Properties of the delivery of one webhook *)

Ltac unfold_M :=
  unfold try_catch, mbind, M_bind, lift, call_axios, dbInstance_query,
    console_log, console_error, emit, mret, M_ret, settle in *.

Ltac norm_trace := rewrite <- ?app_assoc; cbn [app].

Section Delivery.

Variable proto : value -> string -> value.
Variable JSON_parse : string -> Completion value.
Variable axios : Trace -> Request -> Completion Response.
Variable db : Trace -> Query -> Completion (list Row).

Local Abbreviation exec := (executeWebhook proto JSON_parse axios db).
Local Abbreviation send_to := (send proto axios).
Local Abbreviation parsed := (parse_webhook JSON_parse).

Lemma report_failure_run (webhook : Webhook) (e : JsError) (t : Trace) :
  report_failure webhook e t = (Normal false, (t ++ failure_log webhook e)%list).
Proof.
  unfold report_failure, failure_log. unfold_M.
  destruct (response e); cbn; norm_trace; reflexivity.
Qed.

(** The chat branch: one call, with the payload as it was parsed. *)
Lemma send_chat (webhook : Webhook) (headers payload data : value) (t : Trace) :
  let req := chat_request webhook payload in
  let t0 := (t ++ [ConsoleLog "[WEBHOOK] Webhook Discord detected"])%list in
  send_to webhook true headers payload data t =
  match axios t0 req with
  | Normal r =>
      (Normal tt, (t0 ++ [AxiosCall req (Normal r); sent_log webhook true])%list)
  | Throw e => (Throw e, (t0 ++ [AxiosCall req (Throw e)])%list)
  end.
Proof.
  cbn. unfold send. unfold_M. cbn.
  unfold chat_request. destruct (axios _ _); norm_trace; reflexivity.
Qed.

(** The generic branch: the payload is compiled first. *)
Lemma send_generic (webhook : Webhook) (headers payload data : value) (t : Trace) :
  send_to webhook false headers payload data t =
  match compileTemplate proto payload data with
  | Throw e => (Throw e, t)
  | Normal compiled =>
      let req := generic_request webhook headers compiled in
      match axios t req with
      | Normal r =>
          (Normal tt, (t ++ [AxiosCall req (Normal r); sent_log webhook false])%list)
      | Throw e => (Throw e, (t ++ [AxiosCall req (Throw e)])%list)
      end
  end.
Proof.
  unfold send. unfold_M. cbn.
  destruct (compileTemplate proto payload data); [|reflexivity].
  cbn. unfold generic_request. destruct (axios _ _); norm_trace; reflexivity.
Qed.

Lemma executeWebhook_no_url (webhook : Webhook) (data : value) (t : Trace) (e : JsError) :
  call_includes (url webhook) "discord.com/api/webhooks" = Throw e ->
  exec webhook data t = (Normal false, (t ++ failure_log webhook e)%list).
Proof.
  intros H. unfold executeWebhook. unfold_M. rewrite H.
  apply report_failure_run.
Qed.

Lemma executeWebhook_malformed (webhook : Webhook) (data : value) (t : Trace)
    (isDiscord : bool) (e : JsError) :
  call_includes (url webhook) "discord.com/api/webhooks" = Normal isDiscord ->
  parsed webhook = Throw e ->
  exec webhook data t
  = (Normal false, (t ++ [ConsoleError "[WEBHOOK] Error while parsing:" [ArgErr e]])%list).
Proof.
  intros H1 H2. unfold executeWebhook. unfold_M. rewrite H1, H2. reflexivity.
Qed.

(** After the parsing: the branch is taken, then the timestamp is
    written, and whatever is thrown on the way reaches the catch block. *)
Lemma executeWebhook_parsed (webhook : Webhook) (data : value) (t : Trace)
    (isDiscord : bool) (headers payload : value) :
  call_includes (url webhook) "discord.com/api/webhooks" = Normal isDiscord ->
  parsed webhook = Normal (headers, payload) ->
  exec webhook data t =
  match send_to webhook isDiscord headers payload data t with
  | (Throw e, t1) => (Normal false, (t1 ++ failure_log webhook e)%list)
  | (Normal _, t1) =>
      let q := UpdateLastTriggered (id webhook) in
      match db t1 q with
      | Normal rows => (Normal true, (t1 ++ [DbQuery q (Normal rows)])%list)
      | Throw e =>
          (Normal false, (t1 ++ DbQuery q (Throw e) :: failure_log webhook e)%list)
      end
  end.
Proof.
  intros H1 H2. unfold executeWebhook. unfold_M. rewrite H1, H2.
  destruct (send_to webhook isDiscord headers payload data t) as [[[]|e] t1].
  - cbn. destruct (db t1 _) as [rows|e].
    + reflexivity.
    + rewrite report_failure_run. norm_trace. reflexivity.
  - apply report_failure_run.
Qed.

(** Every delivery goes one of the ways of [Delivery]. *)
Lemma executeWebhook_shape (webhook : Webhook) (data : value) (t : Trace) :
  exists b evs,
    exec webhook data t = (Normal b, (t ++ evs)%list) /\ Delivery webhook b evs.
Proof.
  destruct (call_includes (url webhook) "discord.com/api/webhooks")
    as [chat|e] eqn:Hurl.
  2:{ exists false, (failure_log webhook e). split.
      - now apply executeWebhook_no_url.
      - constructor. }
  destruct (parsed webhook) as [[headers payload]|e] eqn:Hparse.
  2:{ eexists false, _. split.
      - eapply executeWebhook_malformed; eassumption.
      - constructor. }
  rewrite (executeWebhook_parsed _ _ _ _ _ _ Hurl Hparse).
  destruct chat.
  - rewrite send_chat. cbv zeta.
    destruct (axios _ _) as [r|e].
    + destruct (db _ _) as [rows|e]; eexists _, _; split;
        try (norm_trace; reflexivity).
      * apply (D_delivered _ true). reflexivity.
      * apply (D_not_recorded _ true). reflexivity.
    + eexists _, _; split; [norm_trace; reflexivity|].
      apply (D_rejected _ true). reflexivity.
  - rewrite send_generic.
    destruct (compileTemplate proto payload data) as [compiled|e].
    2:{ eexists _, _; split; [reflexivity|]. apply D_not_compiled. }
    cbv zeta. destruct (axios _ _) as [r|e].
    + destruct (db _ _) as [rows|e]; eexists _, _; split;
        try (norm_trace; reflexivity).
      * apply (D_delivered _ false). reflexivity.
      * apply (D_not_recorded _ false). reflexivity.
    + eexists _, _; split; [norm_trace; reflexivity|].
      apply (D_rejected _ false). reflexivity.
Qed.

End Delivery.

Lemma new_events_app (t evs : list Event) : new_events t (t ++ evs)%list = evs.
Proof. unfold new_events. apply drop_app_length. Qed.

Ltac in_list H :=
  cbn in H;
  repeat (destruct H as [H|H]; [try discriminate H|]);
  try contradiction.

Ltac delivery_cases H :=
  inversion H; subst; clear H;
  repeat match goal with
         | chat : bool |- _ => destruct chat
         end;
  unfold failure_log, call_resolved, update_done in *;
  repeat match goal with
         | |- context [response ?e] => destruct (response e)
         | H : context [response ?e] |- _ => destruct (response e)
         end;
  cbn [detected_log sent_log app touched http_calls omap] in *.

Section DeliveryFacts.

Variable proto : value -> string -> value.
Variable JSON_parse : string -> Completion value.
Variable axios : Trace -> Request -> Completion Response.
Variable db : Trace -> Query -> Completion (list Row).

Local Abbreviation exec := (executeWebhook proto JSON_parse axios db).

Lemma Delivery_touched (webhook : Webhook) (b : bool) (evs : list Event) :
  Delivery webhook b evs ->
  (touched evs <> [] <-> call_resolved evs) /\
  (forall req e, In (AxiosCall req (Throw e)) evs -> touched evs = []) /\
  (touched evs = [] \/ touched evs = [id webhook]).
Proof.
  intros H. delivery_cases H.
  all: split; [split|split].
  all: try (intros _; eexists _, _; cbn; eauto 10; fail).
  all: try (intros [rq [rs Hin]]; in_list Hin; fail).
  all: try (intros rq err Hin; in_list Hin; reflexivity).
  all: try (intros; discriminate).
  all: try (intros Hne; now destruct Hne).
  all: auto.
Qed.

Lemma Delivery_success (webhook : Webhook) (b : bool) (evs : list Event) :
  Delivery webhook b evs ->
  (b = true <-> call_resolved evs /\ update_done (id webhook) evs).
Proof.
  intros H. delivery_cases H.
  all: split.
  all: try (intros; discriminate).
  all: try (intros [[rq [rs Hin]] _]; in_list Hin; fail).
  all: try (intros [_ [rows Hin]]; in_list Hin; fail).
  all: try reflexivity.
  all: intros _; split; eexists; try eexists; cbn; eauto 10.
Qed.

Lemma Delivery_update_failed (webhook : Webhook) (b : bool) (evs : list Event)
    (id : value) (e : JsError) :
  Delivery webhook b evs ->
  In (DbQuery (UpdateLastTriggered id) (Throw e)) evs ->
  b = false /\
  call_resolved evs /\
  In (ConsoleError ("[WEBHOOK] Error triggering webhook "
                    +:+ label (name webhook) +:+ ":")
                   [ArgStr (message e)]) evs.
Proof.
  intros H Hin. delivery_cases H.
  all: try (in_list Hin; fail).
  all: cbn in Hin; repeat (destruct Hin as [Hin|Hin]; try discriminate Hin);
       try contradiction.
  all: inversion Hin; subst.
  all: split; [reflexivity|]; split; [eexists _, _; cbn; eauto 10 | cbn; auto 10].
Qed.

(** C1 (amended): the timestamp update is issued exactly when the axios
    call resolved, that is, returned without throwing.  A call that throws
    never leads to it, whether the error is a transport failure or carries
    the response of the server. *)
Theorem lastTriggered_iff_call_resolved (webhook : Webhook) (data : value) (t : Trace) :
  let evs := new_events t (snd (exec webhook data t)) in
  (touched evs <> [] <-> call_resolved evs) /\
  (forall req e, In (AxiosCall req (Throw e)) evs -> touched evs = []) /\
  (touched evs = [] \/ touched evs = [id webhook]).
Proof.
  destruct (executeWebhook_shape proto JSON_parse axios db webhook data t)
    as [b [evs [Hrun Hd]]].
  rewrite Hrun. cbn [snd]. rewrite new_events_app.
  exact (Delivery_touched _ _ _ Hd).
Qed.

(** C2 (amended): a failure of the timestamp update, which can only
    follow a completed call, is printed by the catch block and does not
    leave [executeWebhook] as an exception; the delivery is then reported
    as failed. *)
Theorem update_failure_logged_and_reported (webhook : Webhook) (data : value) (t : Trace)
    (id : value) (e : JsError) :
  let r := exec webhook data t in
  let evs := new_events t (snd r) in
  In (DbQuery (UpdateLastTriggered id) (Throw e)) evs ->
  fst r = Normal false /\
  call_resolved evs /\
  In (ConsoleError ("[WEBHOOK] Error triggering webhook "
                    +:+ label (name webhook) +:+ ":")
                   [ArgStr (message e)]) evs.
Proof.
  destruct (executeWebhook_shape proto JSON_parse axios db webhook data t)
    as [b [evs [Hrun Hd]]].
  rewrite Hrun. cbn [fst snd]. rewrite new_events_app. intros Hin.
  destruct (Delivery_update_failed _ _ _ _ _ Hd Hin) as [-> [H1 H2]].
  auto.
Qed.

(** A delivery is reported successful exactly when its call resolved and
    its timestamp update went through. *)
Lemma executeWebhook_true_iff (webhook : Webhook) (data : value) (t : Trace) :
  let r := exec webhook data t in
  let evs := new_events t (snd r) in
  fst r = Normal true <-> call_resolved evs /\ update_done (id webhook) evs.
Proof.
  destruct (executeWebhook_shape proto JSON_parse axios db webhook data t)
    as [b [evs [Hrun Hd]]].
  rewrite Hrun. cbn [fst snd]. rewrite new_events_app.
  rewrite <- (Delivery_success _ _ _ Hd). split; congruence.
Qed.

(** [executeWebhook] always settles with a boolean, and only adds to the trace. *)
Lemma executeWebhook_settles (webhook : Webhook) (data : value) (t : Trace) :
  exists b evs, exec webhook data t = (Normal b, (t ++ evs)%list).
Proof.
  destruct (executeWebhook_shape proto JSON_parse axios db webhook data t)
    as [b [evs [Hrun _]]]. eauto.
Qed.

End DeliveryFacts.

(** C1: the statement of the specification fails when the server answers
    with a status that axios rejects: the response came back, with status
    500, and no timestamp is written. *)
Lemma records_iff_answered_fails :
  ~ records_iff_answered no_proto parse_examples axios_500 db_ok
      hook_generic event_data [].
Proof.
  unfold records_iff_answered. intros H.
  specialize (H (generic_request hook_generic (VObj []) (VObj [("user", VStr "alice")]))
                (axios_500 [] (generic_request hook_generic (VObj []) (VObj [])))).
  destruct H as [_ H].
  - vm_compute. left. reflexivity.
  - apply H; reflexivity.
Qed.

(** C2: the statement of the specification fails when the store refuses
    the write: the call resolved, the update threw, and the delivery
    answers [false]. *)
Lemma update_failure_swallowed_fails :
  ~ update_failure_swallowed no_proto parse_examples axios_ok db_read_only
      hook_generic event_data [].
Proof.
  unfold update_failure_swallowed. intros H.
  specialize (H (VNum 1) (DbError "cannot execute UPDATE in a read-only transaction")).
  assert (Hf : Normal false = Normal true :> Completion bool).
  { apply H.
    - eexists _, _. vm_compute. left. reflexivity.
    - vm_compute. right. right. left. reflexivity. }
  discriminate Hf.
Qed.

(** A timed-out call and a call answered with status 500 are both
    reported failed, and neither writes the timestamp. *)
Example timeout_not_recorded :
  let r := executeWebhook no_proto parse_examples axios_timeout db_ok
             hook_generic event_data [] in
  fst r = Normal false /\ touched (snd r) = [] /\ List.length (http_calls (snd r)) = 1%nat.
Proof. repeat split. Qed.

Example status_500_not_recorded :
  let r := executeWebhook no_proto parse_examples axios_500 db_ok
             hook_generic event_data [] in
  fst r = Normal false /\ touched (snd r) = [] /\ List.length (http_calls (snd r)) = 1%nat.
Proof. repeat split. Qed.

(** The generic path sends the compiled payload with the declared headers. *)
Example generic_delivery :
  let r := executeWebhook no_proto parse_examples axios_ok db_ok
             hook_generic event_data [] in
  fst r = Normal true /\
  touched (snd r) = [VNum 1] /\
  http_calls (snd r)
  = [{| req_method := VStr "PUT";
        req_url := VStr "https://example.org/hook";
        req_headers := VObj [];
        req_data := VObj [("user", VStr "alice")];
        req_timeout := 10000 |}].
Proof. repeat split. Qed.

(** The update failure of C2, on a run. *)
Lemma update_failure_logged_and_reported_witness :
  let r := executeWebhook no_proto parse_examples axios_ok db_read_only
             hook_generic event_data [] in
  let evs := new_events [] (snd r) in
  fst r = Normal false /\
  call_resolved evs /\
  In (ConsoleError ("[WEBHOOK] Error triggering webhook "
                    +:+ label (name hook_generic) +:+ ":")
                   [ArgStr "cannot execute UPDATE in a read-only transaction"]) evs.
Proof.
  refine (update_failure_logged_and_reported no_proto parse_examples axios_ok
            db_read_only hook_generic event_data [] (VNum 1)
            (DbError "cannot execute UPDATE in a read-only transaction") _).
  vm_compute. right. right. left. reflexivity.
Defined.

(** * Properties of the dispatch *)

Lemma assoc_put_eq (key : string) (v : value) (props : list (string * value)) :
  assoc key (put key v props) = Some v.
Proof.
  induction props as [|[k w] r IH]; cbn.
  - now rewrite String.eqb_refl.
  - destruct (String.eqb_spec k key) as [->|Hne]; cbn.
    + now rewrite String.eqb_refl.
    + apply String.eqb_neq in Hne. now rewrite Hne.
Qed.

Lemma assoc_put_ne (key other : string) (v : value) (props : list (string * value)) :
  key <> other -> assoc other (put key v props) = assoc other props.
Proof.
  intros Hne. induction props as [|[k w] r IH]; cbn.
  - apply String.eqb_neq in Hne. now rewrite Hne.
  - destruct (String.eqb_spec k key) as [->|Hk]; cbn.
    + apply String.eqb_neq in Hne. now rewrite Hne.
    + destruct (k =? other)%string; [reflexivity | exact IH].
Qed.

Lemma Promise_all_fulfilled {A} (xs : list A) : Promise_all (List.map Normal xs) = Normal xs.
Proof. induction xs as [|x r IH]; cbn; [reflexivity | now rewrite IH]. Qed.

Section Dispatch.

Variable proto : value -> string -> value.
Variable JSON_parse : string -> Completion value.
Variable axios : Trace -> Request -> Completion Response.
Variable db : Trace -> Query -> Completion (list Row).
Variable registry : Trace -> string -> Completion (list Webhook).
Variable now_iso : Trace -> string.

Local Abbreviation exec := (executeWebhook proto JSON_parse axios db).
Local Abbreviation trigger := (triggerEventWebhooks proto JSON_parse axios db registry now_iso).

(** The fan-out launches every delivery, and every promise is fulfilled. *)
Lemma map_async_settles (data : value) (ws : list Webhook) (t : Trace) :
  exists bs evs,
    map_async (fun w => exec w data) ws t = (Normal (List.map Normal bs), (t ++ evs)%list) /\
    List.length bs = List.length ws.
Proof.
  revert t. induction ws as [|w ws IH]; intros t.
  - exists [], []. cbn. now rewrite app_nil_r.
  - destruct (executeWebhook_settles proto JSON_parse axios db w data t) as [b [evs Hrun]].
    destruct (IH (t ++ evs)%list) as [bs [evs' [Hrest Hlen]]].
    exists (b :: bs), (evs ++ evs')%list. split; [|cbn; now rewrite Hlen].
    cbn. unfold_M. rewrite Hrun, Hrest. now rewrite app_assoc.
Qed.

(** With webhooks at hand, the dispatch enriches the data, runs the
    fan-out on it and answers [true]. *)
Lemma triggerEventWebhooks_fanout (eventType : string) (data : value) (t : Trace)
    (ws : list Webhook) :
  registry t eventType = Normal ws ->
  ws <> [] ->
  let t1 := dispatch_start eventType ws t in
  let enrichedData := enrich (default_data data) eventType (now_iso t1) in
  trigger eventType data t
  = (Normal (VBool true), snd (map_async (fun w => exec w enrichedData) ws t1)).
Proof.
  intros Hdb Hne t1 enrichedData.
  unfold triggerEventWebhooks, getWebhooksByEventType. unfold_M. rewrite Hdb.
  assert (Hlen : (List.length ws =? 0)%nat = false)
    by (destruct ws; [contradiction | reflexivity]).
  rewrite Hlen. norm_trace.
  fold (dispatch_start eventType ws t). fold t1. fold enrichedData.
  destruct (map_async_settles enrichedData ws t1) as [bs [evs [Hrun _]]].
  rewrite Hrun. cbn [snd]. now rewrite Promise_all_fulfilled.
Qed.

(** C9: [executeWebhook] settles with a boolean for every row and every
    data tree, whatever the runtime, axios and the store do; so every
    promise handed to [Promise.all] is fulfilled, and the join is
    fulfilled with one boolean per webhook. *)
Theorem executeWebhook_total_join_all_settled
    (webhook : Webhook) (data : value) (ws : list Webhook) (t : Trace) :
  (exists b, fst (exec webhook data t) = Normal b) /\
  (exists bs,
     fst (map_async (fun w => exec w data) ws t) = Normal (List.map Normal bs) /\
     Promise_all (List.map Normal bs) = Normal bs /\
     List.length bs = List.length ws).
Proof.
  split.
  - destruct (executeWebhook_settles proto JSON_parse axios db webhook data t)
      as [b [evs Hrun]].
    exists b. now rewrite Hrun.
  - destruct (map_async_settles data ws t) as [bs [evs [Hrun Hlen]]].
    exists bs. rewrite Hrun. auto using Promise_all_fulfilled.
Qed.

(** C6 (amended): with no webhook for the event, the dispatch prints a
    notice and returns without a value ([undefined], neither [true] nor
    [false]); nothing is sent and nothing is written. *)
Theorem no_webhooks_returns_undefined (eventType : string) (data : value) (t : Trace) :
  registry t eventType = Normal [] ->
  let r := trigger eventType data t in
  fst r = Normal VUndef /\
  new_events t (snd r)
  = [DbSelect eventType (Normal []);
     ConsoleLog ("[WEBHOOK] No webhooks registered for event: " +:+ eventType)] /\
  http_calls (new_events t (snd r)) = [] /\
  touched (new_events t (snd r)) = [].
Proof.
  intros Hdb. unfold triggerEventWebhooks, getWebhooksByEventType. unfold_M.
  rewrite Hdb. cbn. norm_trace. rewrite new_events_app. auto.
Qed.

(** C10: the tree handed to the deliveries binds [event] to the event
    name and [triggeredAt] to the time of the dispatch, whatever the
    producer had put under these keys, and every other key to what the
    producer's tree binds it to, keys the producer did not supply staying
    absent; without producer data it holds these two keys only. *)
Theorem enrichment_overrides_producer_data
    (eventType : string) (data : value) (t : Trace) (ws : list Webhook) :
  registry t eventType = Normal ws ->
  ws <> [] ->
  let t1 := dispatch_start eventType ws t in
  let enrichedData := enrich (default_data data) eventType (now_iso t1) in
  trigger eventType data t
  = (Normal (VBool true), snd (map_async (fun w => exec w enrichedData) ws t1)) /\
  exists props,
    enrichedData = VObj props /\
    assoc "event" props = Some (VStr eventType) /\
    assoc "triggeredAt" props = Some (VStr (now_iso t1)) /\
    (forall producer, data = VObj producer ->
       forall key, key <> "event" -> key <> "triggeredAt" ->
         assoc key props = assoc key producer) /\
    (data = VUndef ->
       props = [("event", VStr eventType); ("triggeredAt", VStr (now_iso t1))]).
Proof.
  intros Hdb Hne t1 enrichedData.
  split; [exact (triggerEventWebhooks_fanout eventType data t ws Hdb Hne)|].
  eexists. split; [reflexivity|].
  split; [|split; [|split]].
  - rewrite assoc_put_ne by discriminate. apply assoc_put_eq.
  - apply assoc_put_eq.
  - intros producer -> key H1 H2. cbn [default_data own_entries].
    rewrite !assoc_put_ne by congruence. reflexivity.
  - intros ->. reflexivity.
Qed.

End Dispatch.

(** C6: the statement of the specification fails on an empty store: the
    dispatch answers [undefined], not [true]. *)
Lemma no_webhooks_returns_true_fails :
  ~ no_webhooks_returns_true no_proto parse_examples axios_ok db_ok
      (registry_with []) fixed_time
      "playback_started" event_data [].
Proof.
  unfold no_webhooks_returns_true. intros H.
  destruct (H eq_refl) as [Hr _]. vm_compute in Hr. discriminate Hr.
Qed.

Lemma no_webhooks_returns_undefined_witness :
  let r := triggerEventWebhooks no_proto parse_examples axios_ok db_ok
             (registry_with []) fixed_time
             "playback_started" event_data [] in
  fst r = Normal VUndef /\
  new_events [] (snd r)
  = [DbSelect "playback_started" (Normal []);
     ConsoleLog ("[WEBHOOK] No webhooks registered for event: " +:+ "playback_started")] /\
  http_calls (new_events [] (snd r)) = [] /\
  touched (new_events [] (snd r)) = [].
Proof.
  refine (no_webhooks_returns_undefined no_proto parse_examples axios_ok db_ok
            (registry_with []) fixed_time "playback_started" event_data [] _).
  reflexivity.
Defined.

Lemma enrichment_overrides_producer_data_witness :
  let produced := VObj [("event", VStr "spoofed"); ("userName", VStr "alice")] in
  let t1 := dispatch_start "playback_started" [hook_generic] [] in
  let enrichedData := enrich (default_data produced) "playback_started" (fixed_time t1) in
  triggerEventWebhooks no_proto parse_examples axios_ok db_ok
    (registry_with [hook_generic]) fixed_time "playback_started" produced []
  = (Normal (VBool true),
     snd (map_async
            (fun w => executeWebhook no_proto parse_examples axios_ok db_ok w enrichedData)
            [hook_generic] t1)) /\
  exists props,
    enrichedData = VObj props /\
    assoc "event" props = Some (VStr "playback_started") /\
    assoc "triggeredAt" props = Some (VStr (fixed_time t1)) /\
    (forall producer, produced = VObj producer ->
       forall key, key <> "event" -> key <> "triggeredAt" ->
         assoc key props = assoc key producer) /\
    (produced = VUndef ->
       props = [("event", VStr "playback_started"); ("triggeredAt", VStr (fixed_time t1))]).
Proof.
  refine (enrichment_overrides_producer_data no_proto parse_examples axios_ok
            db_ok (registry_with [hook_generic]) fixed_time "playback_started"
            (VObj [("event", VStr "spoofed"); ("userName", VStr "alice")]) []
            [hook_generic] _ _).
  - reflexivity.
  - discriminate.
Defined.

(** * The two delivery paths and the isolation of failures *)

Lemma http_calls_app (a b : list Event) :
  http_calls (a ++ b) = http_calls a ++ http_calls b.
Proof. apply omap_app. Qed.

Lemma http_calls_failure_log (webhook : Webhook) (e : JsError) :
  http_calls (failure_log webhook e) = [].
Proof. unfold failure_log. now destruct (response e). Qed.

Lemma http_calls_cons (ev : Event) (l : list Event) :
  http_calls (ev :: l)
  = match ev with
    | AxiosCall req _ => req :: http_calls l
    | _ => http_calls l
    end.
Proof. now destruct ev. Qed.

Ltac calls :=
  repeat (rewrite http_calls_cons; cbn [sent_log detected_log]);
  rewrite ?http_calls_failure_log.

Section Paths.

Variable proto : value -> string -> value.
Variable JSON_parse : string -> Completion value.
Variable axios : Trace -> Request -> Completion Response.
Variable db : Trace -> Query -> Completion (list Row).
Variable registry : Trace -> string -> Completion (list Webhook).
Variable now_iso : Trace -> string.

Local Abbreviation exec := (executeWebhook proto JSON_parse axios db).
Local Abbreviation trigger := (triggerEventWebhooks proto JSON_parse axios db registry now_iso).

(** A malformed webhook is reported failed and nothing is sent for it. *)
Lemma executeWebhook_malformed_run (webhook : Webhook) (data : value) (t : Trace) :
  malformed JSON_parse webhook ->
  exists evs, exec webhook data t = (Normal false, (t ++ evs)%list) /\ http_calls evs = [].
Proof.
  intros [e He].
  destruct (call_includes (url webhook) "discord.com/api/webhooks")
    as [chat|e'] eqn:Hurl.
  - eexists. split; [eapply executeWebhook_malformed; eassumption | reflexivity].
  - eexists. split; [eapply executeWebhook_no_url; eassumption | apply http_calls_failure_log].
Qed.

(** A deliverable webhook is sent, once, to its own url. *)
Lemma executeWebhook_deliverable_run (webhook : Webhook) (data : value) (t : Trace) :
  deliverable proto JSON_parse webhook data ->
  exists b evs req,
    exec webhook data t = (Normal b, (t ++ evs)%list) /\
    http_calls evs = [req] /\ req_url req = url webhook.
Proof.
  intros [chat [headers [payload [Hurl [Hparse Hpath]]]]].
  rewrite (executeWebhook_parsed _ _ _ _ _ _ _ _ _ _ Hurl Hparse).
  destruct chat.
  - rewrite send_chat. cbv zeta.
    destruct (axios _ _) as [r|e]; [destruct (db _ _) as [rows|e]|];
      eexists _, _, _; (split; [norm_trace; reflexivity|]);
      calls; split; reflexivity.
  - destruct Hpath as [Hc|[compiled Hc]]; [discriminate|].
    rewrite send_generic, Hc. cbv zeta.
    destruct (axios _ _) as [r|e]; [destruct (db _ _) as [rows|e]|];
      eexists _, _, _; (split; [norm_trace; reflexivity|]);
      calls; split; reflexivity.
Qed.

(** C8 (amended): when both columns of a chat webhook parse, one request
    is sent: it carries the parsed payload as it is, the single header
    [Content-Type: application/json], and the method of the webhook when
    that is truthy, [POST] otherwise; the parsed headers and the event data
    do not occur in it. *)
Theorem chat_webhook_sends_payload_verbatim
    (webhook : Webhook) (data : value) (t : Trace) (u : string)
    (parsedHeaders parsedPayload : value) :
  url webhook = VStr u ->
  includes u "discord.com/api/webhooks" = true ->
  parse_column JSON_parse (headers webhook) = Normal parsedHeaders ->
  parse_column JSON_parse (payload webhook) = Normal parsedPayload ->
  http_calls (new_events t (snd (exec webhook data t)))
  = [{| req_method := if truthy (method webhook) then method webhook else VStr "POST";
        req_url := VStr u;
        req_headers := VObj [("Content-Type", VStr "application/json")];
        req_data := parsedPayload;
        req_timeout := 10000 |}].
Proof.
  intros Hu Hinc Hh Hp.
  assert (Hurl : call_includes (url webhook) "discord.com/api/webhooks" = Normal true)
    by (rewrite Hu; cbn; now rewrite Hinc).
  assert (Hparse : parse_webhook JSON_parse webhook = Normal (parsedHeaders, parsedPayload))
    by (unfold parse_webhook; now rewrite Hh, Hp).
  rewrite (executeWebhook_parsed _ _ _ _ _ _ _ _ _ _ Hurl Hparse), send_chat. cbv zeta.
  unfold chat_request, json_content_type, js_or. rewrite Hu.
  destruct (axios _ _) as [r|e]; [destruct (db _ _) as [rows|e]|];
    cbn [snd]; norm_trace; rewrite new_events_app;
    calls; reflexivity.
Qed.

End Paths.

Lemma chat_webhook_sends_payload_verbatim_witness :
  http_calls (new_events []
    (snd (executeWebhook no_proto parse_examples axios_ok db_ok hook_chat event_data [])))
  = [{| req_method := VStr "POST";
        req_url := VStr "https://discord.com/api/webhooks/42/token";
        req_headers := VObj [("Content-Type", VStr "application/json")];
        req_data := VObj [("content", VStr "hi {{userName}}")];
        req_timeout := 10000 |}].
Proof.
  refine (chat_webhook_sends_payload_verbatim no_proto parse_examples axios_ok db_ok
            hook_chat event_data [] "https://discord.com/api/webhooks/42/token"
            (VObj [("X-Custom", VStr "1")]) (VObj [("content", VStr "hi {{userName}}")])
            _ _ _ _); reflexivity.
Defined.

(** C8: the statement of the specification fails on a chat webhook whose
    headers column is not JSON: both columns are parsed before the path
    is chosen, so the delivery ends in the inner catch block and the
    payload, which does parse, is not sent. *)
Lemma chat_path_ignores_headers_fails :
  ~ chat_path_ignores_headers no_proto parse_examples axios_ok db_ok
      hook_chat_bad_headers event_data [].
Proof.
  unfold chat_path_ignores_headers. intros H.
  destruct (H "https://discord.com/api/webhooks/42/token" (VObj [("content", VStr "hi")])
              eq_refl eq_refl eq_refl) as [req [Hcalls _]].
  vm_compute in Hcalls. discriminate Hcalls.
Qed.

(** A declared method is kept on the chat path. *)
Example chat_webhook_declared_method :
  List.map req_method
    (http_calls (snd (executeWebhook no_proto parse_examples axios_ok db_ok
                        {| id := VNum 8; name := Some "chat";
                           url := VStr "https://discord.com/api/webhooks/42/token";
                           method := VStr "PUT"; headers := VUndef;
                           payload := VObj [("content", VStr "hi")] |}
                        event_data [])))
  = [VStr "PUT"].
Proof. reflexivity. Qed.

Section Isolation.

Variable proto : value -> string -> value.
Variable JSON_parse : string -> Completion value.
Variable axios : Trace -> Request -> Completion Response.
Variable db : Trace -> Query -> Completion (list Row).
Variable registry : Trace -> string -> Completion (list Webhook).
Variable now_iso : Trace -> string.

Local Abbreviation exec := (executeWebhook proto JSON_parse axios db).
Local Abbreviation trigger := (triggerEventWebhooks proto JSON_parse axios db registry now_iso).

Lemma map_async_cons (data : value) (w : Webhook) (ws : list Webhook) (t : Trace)
    (b : bool) (evs : list Event) (bs : list bool) (evs' : list Event) :
  exec w data t = (Normal b, t ++ evs) ->
  map_async (fun w => exec w data) ws (t ++ evs)
  = (Normal (List.map Normal bs), (t ++ evs) ++ evs') ->
  map_async (fun w => exec w data) (w :: ws) t
  = (Normal (List.map Normal (b :: bs)), t ++ (evs ++ evs')).
Proof.
  intros H1 H2. cbn. unfold_M. rewrite H1, H2. now rewrite app_assoc.
Qed.

(** The fan-out is the sequence of its deliveries: each one is the run of
    [executeWebhook] on the trace the earlier ones left. *)
Lemma map_async_runs (data : value) (ws : list Webhook) (t : Trace) :
  exists runs : list (bool * list Event),
    List.length runs = List.length ws /\
    map_async (fun w => exec w data) ws t
    = (Normal (List.map (fun run => Normal (fst run)) runs), t ++ events_of runs) /\
    forall (j : nat) (w : Webhook) (b : bool) (evs : list Event),
      ws !! j = Some w -> runs !! j = Some (b, evs) ->
      exec w data (t ++ events_of (take j runs))
      = (Normal b, (t ++ events_of (take j runs)) ++ evs).
Proof.
  revert t. induction ws as [|w ws IH]; intros t.
  - exists []. cbn. rewrite app_nil_r. repeat split. intros j w b evs Hw. discriminate Hw.
  - destruct (executeWebhook_settles proto JSON_parse axios db w data t) as [b [evs Hrun]].
    destruct (IH (t ++ evs)) as [runs [Hlen [Hrest Hown]]].
    exists ((b, evs) :: runs). split; [cbn; now rewrite Hlen|]. split.
    + cbn [map_async]. unfold_M. rewrite Hrun, Hrest.
      unfold events_of. cbn [List.map concat snd fst]. now rewrite app_assoc.
    + intros [|j] w' b' evs' Hw Hb; cbn in Hw, Hb.
      * inversion Hw; inversion Hb; subst.
        unfold events_of. cbn [take List.map concat]. rewrite app_nil_r. exact Hrun.
      * specialize (Hown j w' b' evs' Hw Hb).
        unfold events_of in *. cbn [take List.map concat snd].
        rewrite app_assoc. exact Hown.
Qed.

(** C7 (amended): with one malformed webhook among the resolved ones, the
    dispatch still answers [true] once every delivery has settled.  Each
    delivery is the run of [executeWebhook] on what the earlier ones left:
    nothing is sent for a malformed webhook, which reports failure; every
    other one for which a request can be built is sent, once and to its
    own url, whatever the other webhooks are; and the report of each is
    that of its own delivery alone: success exactly when its call resolved
    and its timestamp update went through. *)
Theorem fanout_isolates_malformed_webhook
    (eventType : string) (data0 : value) (t : Trace) (ws : list Webhook) (i : nat) (bad : Webhook) :
  registry t eventType = Normal ws ->
  ws !! i = Some bad ->
  malformed JSON_parse bad ->
  let t1 := dispatch_start eventType ws t in
  let data := enrich (default_data data0) eventType (now_iso t1) in
  let r := trigger eventType data0 t in
  fst r = Normal (VBool true) /\
  exists runs : list (bool * list Event),
    List.length runs = List.length ws /\
    snd r = t1 ++ events_of runs /\
    (exists evs, runs !! i = Some (false, evs) /\ http_calls evs = []) /\
    forall (j : nat) (w : Webhook) (b : bool) (evs : list Event),
      ws !! j = Some w -> runs !! j = Some (b, evs) ->
      let s := t1 ++ events_of (take j runs) in
      exec w data s = (Normal b, s ++ evs) /\
      (malformed JSON_parse w -> b = false /\ http_calls evs = []) /\
      (deliverable proto JSON_parse w data ->
         exists req, http_calls evs = [req] /\ req_url req = url w) /\
      (b = true <-> call_resolved evs /\ update_done (id w) evs).
Proof.
  intros Hdb Hbad Hmal t1 data r.
  assert (Hne : ws <> []) by (intros ->; discriminate Hbad).
  pose proof (triggerEventWebhooks_fanout proto JSON_parse axios db registry now_iso
                eventType data0 t ws Hdb Hne) as Hrun.
  cbv zeta in Hrun. fold t1 in Hrun. fold data in Hrun.
  destruct (map_async_runs data ws t1) as [runs [Hlen [Hfan Hown]]].
  assert (Hall : forall (j : nat) (w : Webhook) (b : bool) (evs : list Event),
             ws !! j = Some w -> runs !! j = Some (b, evs) ->
             let s := t1 ++ events_of (take j runs) in
             exec w data s = (Normal b, s ++ evs) /\
             (malformed JSON_parse w -> b = false /\ http_calls evs = []) /\
             (deliverable proto JSON_parse w data ->
                exists req, http_calls evs = [req] /\ req_url req = url w) /\
             (b = true <-> call_resolved evs /\ update_done (id w) evs)).
  { intros j w b evs Hw Hb s. specialize (Hown j w b evs Hw Hb). fold s in Hown.
    split; [exact Hown|]. split; [|split].
    - intros Hm.
      destruct (executeWebhook_malformed_run proto JSON_parse axios db w data s Hm)
        as [evs' [Hrun' Hcalls]].
      rewrite Hown in Hrun'. inversion Hrun' as [[Hb' Hevs]].
      apply app_inv_head in Hevs. subst evs'. auto.
    - intros Hd.
      destruct (executeWebhook_deliverable_run proto JSON_parse axios db w data s Hd)
        as [b' [evs' [req [Hrun' [Hcalls Hreq]]]]].
      rewrite Hown in Hrun'. inversion Hrun' as [[Hb' Hevs]].
      apply app_inv_head in Hevs. subst evs'. eauto.
    - pose proof (executeWebhook_true_iff proto JSON_parse axios db w data s) as Hiff.
      cbv zeta in Hiff. rewrite Hown in Hiff. cbn [fst snd] in Hiff.
      rewrite new_events_app in Hiff. rewrite <- Hiff. split; congruence. }
  subst r. rewrite Hrun, Hfan. cbn [fst snd].
  split; [reflexivity|]. exists runs. split; [exact Hlen|]. split; [reflexivity|].
  split; [|exact Hall].
  destruct (lookup_lt_is_Some_2 runs i) as [[b evs] Hb].
  { rewrite Hlen. now apply lookup_lt_is_Some_1; exists bad. }
  destruct (Hall i bad b evs Hbad Hb) as [_ [Hm _]].
  destruct (Hm Hmal) as [-> Hcalls]. eauto.
Qed.

End Isolation.

Lemma hook_malformed_is_malformed : malformed parse_examples hook_malformed.
Proof. eexists. reflexivity. Qed.

Lemma hook_generic_not_malformed : ~ malformed parse_examples hook_generic.
Proof. intros [e He]. discriminate He. Qed.

(** C7: the statement of the specification fails when the store refuses
    the write: the call of the well-formed sibling completed, and the
    sibling reports failure all the same. *)
Lemma siblings_succeed_on_completed_call_fails :
  ~ siblings_succeed_on_completed_call no_proto parse_examples axios_ok
      db_read_only two_hooks event_data [].
Proof.
  unfold siblings_succeed_on_completed_call. intros H.
  destruct (H O hook_malformed eq_refl hook_malformed_is_malformed) as [bs [Hrun [_ Hsib]]].
  - intros [|[|j]] w Hj Hw; [now destruct Hj | | discriminate Hw].
    inversion Hw; subst w. apply hook_generic_not_malformed.
  - specialize (Hsib 1%nat hook_generic
                  (generic_request hook_generic (VObj []) (VObj [("user", VStr "alice")]))
                  {| status := 204; resp_data := VNull |}).
    assert (Hb : bs !! 1%nat = Some true).
    { apply Hsib; [discriminate | reflexivity | | reflexivity].
      vm_compute. right. left. reflexivity. }
    vm_compute in Hrun.
    destruct bs as [|b0 [|b1 bs]]; try discriminate Hb.
    cbn in Hb, Hrun. inversion Hb; subst b1. discriminate Hrun.
Qed.

Lemma fanout_isolates_malformed_webhook_witness :
  let t1 := dispatch_start "playback_started" mixed_hooks [] in
  let data := enrich (default_data event_data) "playback_started" (fixed_time t1) in
  let r := triggerEventWebhooks no_proto parse_examples axios_ok db_ok
             (registry_with mixed_hooks) fixed_time "playback_started" event_data [] in
  fst r = Normal (VBool true) /\
  exists runs : list (bool * list Event),
    List.length runs = List.length mixed_hooks /\
    snd r = t1 ++ events_of runs /\
    (exists evs, runs !! 0%nat = Some (false, evs) /\ http_calls evs = []) /\
    forall (j : nat) (w : Webhook) (b : bool) (evs : list Event),
      mixed_hooks !! j = Some w -> runs !! j = Some (b, evs) ->
      let s := t1 ++ events_of (take j runs) in
      executeWebhook no_proto parse_examples axios_ok db_ok w data s = (Normal b, s ++ evs) /\
      (malformed parse_examples w -> b = false /\ http_calls evs = []) /\
      (deliverable no_proto parse_examples w data ->
         exists req, http_calls evs = [req] /\ req_url req = url w) /\
      (b = true <-> call_resolved evs /\ update_done (id w) evs).
Proof.
  refine (fanout_isolates_malformed_webhook no_proto parse_examples axios_ok db_ok
            (registry_with mixed_hooks) fixed_time "playback_started" event_data []
            mixed_hooks 0%nat hook_malformed _ _ _).
  - reflexivity.
  - reflexivity.
  - eexists. reflexivity.
Defined.

(** Next to a malformed webhook and one whose payload does not compile,
    the webhook that can be delivered is delivered. *)
Example buildable_sibling_still_sent :
  let r := triggerEventWebhooks no_proto parse_examples axios_ok db_ok
             (registry_with mixed_hooks) fixed_time "playback_started" event_data [] in
  fst r = Normal (VBool true) /\
  List.map req_url (http_calls (snd r)) = [url hook_generic] /\
  touched (snd r) = [id hook_generic].
Proof. repeat split. Qed.

(** * Properties of the monthly digest *)

Lemma norm_month_in_range (y m : Z) : 0 <= m <= 11 -> norm_month y m = (y, m).
Proof.
  intros H. unfold norm_month.
  rewrite Z.div_small, Z.mod_small by lia. f_equal. lia.
Qed.

Lemma norm_month_before (y : Z) : norm_month y (-1) = (y - 1, 11).
Proof. reflexivity. Qed.

Lemma norm_month_after (y : Z) : norm_month y 12 = (y + 1, 0).
Proof. reflexivity. Qed.

Lemma days_in_month_bounds (y m : Z) : 28 <= days_in_month y m <= 31.
Proof.
  unfold days_in_month.
  destruct (m =? 1); [destruct (is_leap y); lia|].
  destruct ((m =? 3) || (m =? 5) || (m =? 8) || (m =? 10))%bool; lia.
Qed.

Lemma carry_in_range (fuel : nat) (y m d : Z) :
  1 <= d <= days_in_month y m -> carry (S fuel) y m d = mkDay y m d.
Proof.
  intros H. cbn [carry].
  destruct (Z.ltb_spec d 1); [lia|].
  destruct (Z.ltb_spec (days_in_month y m) d); [lia|]. reflexivity.
Qed.

Lemma prev_month_range (today : Date) :
  0 <= month today <= 11 -> 0 <= snd (prev_month today) <= 11.
Proof.
  intros H. unfold prev_month. destruct (Z.eqb_spec (month today) 0); cbn; lia.
Qed.

Lemma prev_month_year (today : Date) :
  year today - 1 <= fst (prev_month today) <= year today.
Proof. unfold prev_month. destruct (month today =? 0); cbn; lia. Qed.

Lemma new_Date_plain (y m d : Z) : 100 <= y -> new_Date y m d = make_day y m d.
Proof.
  intros H. unfold new_Date.
  destruct (Z.leb_spec 0 y); destruct (Z.leb_spec y 99); cbn; try reflexivity; lia.
Qed.

(** [new Date(y, m, d)] for a day of the month [m]. *)
Lemma make_day_in_range (y m d : Z) :
  0 <= m <= 11 -> 1 <= d <= 28 -> make_day y m d = mkDay y m d.
Proof.
  intros Hm Hd. unfold make_day. rewrite norm_month_in_range by exact Hm.
  apply carry_in_range. pose proof (days_in_month_bounds y m). lia.
Qed.

(** [new Date(y, m + 1, 0)]: the last day of the month [m]. *)
Lemma make_day_last (y m : Z) :
  0 <= m <= 11 -> make_day y (m + 1) 0 = mkDay y m (days_in_month y m).
Proof.
  intros Hm. unfold make_day.
  destruct (Z.eq_dec m 11) as [->|Hne].
  - change (11 + 1) with 12. rewrite norm_month_after.
    cbn [Z.abs_nat carry Z.ltb Z.compare]. change (0 - 1) with (-1).
    rewrite norm_month_before. replace (y + 1 - 1) with y by lia. reflexivity.
  - rewrite norm_month_in_range by lia.
    cbn [Z.abs_nat carry Z.ltb Z.compare].
    replace (m + 1 - 1) with m by lia.
    rewrite norm_month_in_range by lia. reflexivity.
Qed.

(** The first day of the previous month, as [getTopWatchedContent] builds it. *)
Lemma new_Date_first_of_prev (today : Date) :
  1970 <= year today -> 0 <= month today <= 11 ->
  new_Date (year today) (month today - 1) 1 = first_of_prev today.
Proof.
  intros Hy Hm. rewrite new_Date_plain by lia.
  unfold make_day, first_of_prev, prev_month.
  destruct (Z.eqb_spec (month today) 0) as [E|E].
  - rewrite E. change (0 - 1) with (-1). rewrite norm_month_before.
    apply carry_in_range. pose proof (days_in_month_bounds (year today - 1) 11). lia.
  - rewrite norm_month_in_range by lia.
    apply carry_in_range.
    pose proof (days_in_month_bounds (year today) (month today - 1)). lia.
Qed.

(** The month [setMonth] lands on, when the day exists in that month. *)
Lemma setMonth_prev (today : Date) :
  0 <= month today <= 11 -> 1 <= day today <= 28 ->
  setMonth today (month today - 1)
  = mkDay (fst (prev_month today)) (snd (prev_month today)) (day today).
Proof.
  intros Hm Hd. unfold setMonth, make_day, prev_month.
  destruct (Z.eqb_spec (month today) 0) as [E|E].
  - rewrite E. change (0 - 1) with (-1). rewrite norm_month_before. cbn [fst snd].
    apply carry_in_range. pose proof (days_in_month_bounds (year today - 1) 11). lia.
  - rewrite norm_month_in_range by lia. cbn [fst snd].
    apply carry_in_range.
    pose proof (days_in_month_bounds (year today) (month today - 1)). lia.
Qed.

(** The same for every day that the previous month has. *)
Lemma setMonth_prev_existing (today : Date) :
  0 <= month today <= 11 ->
  1 <= day today <= days_in_month (fst (prev_month today)) (snd (prev_month today)) ->
  setMonth today (month today - 1)
  = mkDay (fst (prev_month today)) (snd (prev_month today)) (day today).
Proof.
  intros Hm Hd. unfold setMonth, make_day. unfold prev_month in *.
  destruct (Z.eqb_spec (month today) 0) as [E|E]; cbn [fst snd] in *.
  - rewrite E. change (0 - 1) with (-1). rewrite norm_month_before.
    apply carry_in_range. exact Hd.
  - rewrite norm_month_in_range by lia.
    apply carry_in_range. exact Hd.
Qed.

(** On the 31st of March the month [setMonth] lands on is March again. *)
Example setMonth_overflow :
  setMonth (mkDay 2025 2 31) 1 = mkDay 2025 2 3.
Proof. reflexivity. Qed.

Lemma queries_app (a b : list Event) : queries (a ++ b) = queries a ++ queries b.
Proof. apply omap_app. Qed.

Section DigestFacts.

Variable db : Trace -> Query -> Completion (list Row).
Variable clock : Trace -> Clock.
Variable ahead_of_utc : Date -> bool.
Variable month_label : Date -> string.

Local Abbreviation top := (getTopWatchedContent db clock ahead_of_utc).
Local Abbreviation digest := (getMonthlySummaryData db clock ahead_of_utc month_label).
Local Abbreviation iso := (iso_day ahead_of_utc).

(** One call of [getTopWatchedContent] for the month: one statement,
    bounded from below only; an error of the store is printed and
    answered with no rows. *)
Lemma getTopWatchedContent_month (contentType : string) (limit : Z) (t : Trace) :
  let today := local (clock t) in
  let since := iso (new_Date (year today) (month today - 1) 1) in
  let q := if (contentType =? "movie")%string then TopMovies since limit
           else if (contentType =? "series")%string then TopSeries since limit
           else NoQuery in
  exists rows evs,
    top contentType "month" limit t = (Normal rows, t ++ evs) /\ queries evs = [q].
Proof.
  cbv zeta. unfold getTopWatchedContent, new_Date_now. unfold_M.
  cbn [String.eqb Ascii.eqb Bool.eqb].
  cbn beta iota.
  match goal with |- context [db t ?q] => destruct (db t q) as [rows|e] eqn:E end.
  - eexists _, _. split; reflexivity.
  - eexists _, _. split; [norm_trace; reflexivity | reflexivity].
Qed.

(** C3 (amended): on every day of the month that the previous month has
    too, the three statements of the digest start on the same day, the
    ISO date of the first day of the previous calendar month; the
    statistics stop on the ISO date of its last day, while the two top-5
    statements have no upper bound and so run up to the present.  Where
    local midnight is not a day behind in UTC, these ISO dates are the
    first and the last day of the previous month themselves. *)
Theorem digest_windows (t : Trace) (today : Date) :
  (forall s, local (clock s) = today) ->
  1970 <= year today ->
  0 <= month today <= 11 ->
  1 <= day today <= days_in_month (fst (prev_month today)) (snd (prev_month today)) ->
  let since := iso (first_of_prev today) in
  let until := iso (last_of_prev today) in
  queries (new_events t (snd (digest t)))
  = [TopMovies since 5; TopSeries since 5; GeneralStats since until] /\
  lower_bound (TopMovies since 5) = lower_bound (GeneralStats since until) /\
  lower_bound (TopSeries since 5) = lower_bound (GeneralStats since until) /\
  upper_bound (GeneralStats since until) = Some until /\
  upper_bound (TopMovies since 5) = None /\
  upper_bound (TopSeries since 5) = None /\
  (ahead_of_utc (first_of_prev today) = false -> since = first_of_prev today) /\
  (ahead_of_utc (last_of_prev today) = false -> until = last_of_prev today).
Proof.
  intros Hclock Hy Hm Hd since until.
  split; [|repeat split; try (intros Hz; subst since until; unfold iso_day; now rewrite Hz)].
  unfold getMonthlySummaryData. unfold_M.
  destruct (getTopWatchedContent_month "movie" 5 t) as [movies [evs1 [Hrun1 Hq1]]].
  destruct (getTopWatchedContent_month "series" 5 (t ++ evs1)) as [series [evs2 [Hrun2 Hq2]]].
  rewrite Hrun1, Hrun2. unfold new_Date_now.
  rewrite !Hclock in *.
  rewrite new_Date_first_of_prev in Hq1, Hq2 by assumption.
  cbn [String.eqb Ascii.eqb Bool.eqb] in Hq1, Hq2. cbn beta iota in Hq1, Hq2.
  rewrite setMonth_prev_existing by assumption. cbn [year month].
  pose proof (prev_month_range today Hm) as Hpm.
  pose proof (prev_month_year today) as Hpy.
  rewrite !new_Date_plain by lia.
  rewrite make_day_in_range by lia.
  rewrite make_day_last by lia.
  assert (Hfirst : mkDay (fst (prev_month today)) (snd (prev_month today)) 1
                   = first_of_prev today)
    by (unfold first_of_prev; now destruct (prev_month today)).
  assert (Hlast : mkDay (fst (prev_month today)) (snd (prev_month today))
                    (days_in_month (fst (prev_month today)) (snd (prev_month today)))
                  = last_of_prev today)
    by (unfold last_of_prev; now destruct (prev_month today)).
  rewrite Hfirst, Hlast. fold since until. fold since in Hq1, Hq2.
  destruct (db _ _) as [rows|e]; cbn [snd]; norm_trace; rewrite new_events_app;
    rewrite !queries_app, Hq1, Hq2; reflexivity.
Qed.

End DigestFacts.

(** C3: the statement of the specification fails on any day: the top-5
    statements have no upper bound, the statistics have one. *)
Lemma digest_queries_share_window_fails :
  ~ digest_queries_share_window db_ok (clock_on (mkDay 2025 2 15) 6)
      zone_utc figures_label [].
Proof.
  intros [q1 [q2 [q3 [Hq [_ [_ [_ Hu]]]]]]].
  vm_compute in Hq. inversion Hq; subst. discriminate Hu.
Qed.

Lemma digest_windows_witness :
  let since := iso_day zone_utc (first_of_prev (mkDay 2025 4 30)) in
  let until := iso_day zone_utc (last_of_prev (mkDay 2025 4 30)) in
  queries (new_events []
    (snd (getMonthlySummaryData db_ok (clock_on (mkDay 2025 4 30) 5)
            zone_utc figures_label [])))
  = [TopMovies since 5; TopSeries since 5; GeneralStats since until] /\
  lower_bound (TopMovies since 5) = lower_bound (GeneralStats since until) /\
  lower_bound (TopSeries since 5) = lower_bound (GeneralStats since until) /\
  upper_bound (GeneralStats since until) = Some until /\
  upper_bound (TopMovies since 5) = None /\
  upper_bound (TopSeries since 5) = None /\
  (zone_utc (first_of_prev (mkDay 2025 4 30)) = false ->
   since = first_of_prev (mkDay 2025 4 30)) /\
  (zone_utc (last_of_prev (mkDay 2025 4 30)) = false ->
   until = last_of_prev (mkDay 2025 4 30)).
Proof.
  refine (digest_windows db_ok (clock_on (mkDay 2025 4 30) 5) zone_utc figures_label
            [] (mkDay 2025 4 30) _ _ _ _).
  - reflexivity.
  - cbn. lia.
  - cbn. lia.
  - vm_compute. split; discriminate.
Defined.

(** The fuel of [make_day] is always enough: the result is a day of a month. *)
Lemma norm_month_range (y m : Z) : 0 <= snd (norm_month y m) <= 11.
Proof. unfold norm_month. cbn [snd]. pose proof (Z.mod_pos_bound m 12). lia. Qed.

Lemma carry_valid (fuel : nat) (y m d : Z) :
  0 <= m <= 11 ->
  1 - 28 * Z.of_nat fuel <= d <= 28 * Z.of_nat fuel + days_in_month y m ->
  let r := carry fuel y m d in
  0 <= month r <= 11 /\ 1 <= day r <= days_in_month (year r) (month r).
Proof.
  revert y m d. induction fuel as [|k IH]; intros y m d Hm Hd.
  - cbn. lia.
  - cbn [carry]. destruct (Z.ltb_spec d 1) as [Hlow|Hlow].
    + destruct (norm_month y (m - 1)) as [y' m'] eqn:E.
      pose proof (norm_month_range y (m - 1)) as Hr. rewrite E in Hr. cbn in Hr.
      pose proof (days_in_month_bounds y' m').
      apply IH; [exact Hr | lia].
    + destruct (Z.ltb_spec (days_in_month y m) d) as [Hhigh|Hhigh].
      * destruct (norm_month y (m + 1)) as [y' m'] eqn:E.
        pose proof (norm_month_range y (m + 1)) as Hr. rewrite E in Hr. cbn in Hr.
        pose proof (days_in_month_bounds y m).
        pose proof (days_in_month_bounds y' m').
        apply IH; [exact Hr | lia].
      * cbn. lia.
Qed.

Lemma make_day_valid (y m d : Z) :
  let r := make_day y m d in
  0 <= month r <= 11 /\ 1 <= day r <= days_in_month (year r) (month r).
Proof.
  unfold make_day. destruct (norm_month y m) as [y' m'] eqn:E.
  pose proof (norm_month_range y m) as Hr. rewrite E in Hr. cbn in Hr.
  apply carry_valid; [exact Hr|].
  pose proof (days_in_month_bounds y' m').
  rewrite Nat2Z.inj_succ, Zabs2Nat.id_abs. lia.
Qed.

(** A producer that sets [event] itself is overridden in place. *)
Example enrich_overrides :
  enrich (VObj [("event", VStr "spoofed"); ("userName", VStr "alice")])
         "playback_started" "2025-03-15T10:00:00.000Z"
  = VObj [("event", VStr "playback_started"); ("userName", VStr "alice");
          ("triggeredAt", VStr "2025-03-15T10:00:00.000Z")].
Proof. reflexivity. Qed.

(** * Further properties of the template compiler *)

(** Induction over a tree of values, with the hypothesis available for
    every property value and every element. *)
Lemma value_tree_ind (P : value -> Prop) :
  P VUndef -> P VNull -> (forall b, P (VBool b)) -> (forall n, P (VNum n)) ->
  (forall s, P (VStr s)) ->
  (forall props, Forall (fun kv => P (snd kv)) props -> P (VObj props)) ->
  (forall elems, Forall P elems -> P (VArr elems)) ->
  (forall src, P (VFun src)) ->
  forall v, P v.
Proof.
  intros HU HN HB HZ HS HO HA HF.
  fix IH 1. intros [| |b|n|s|props|elems|src].
  - exact HU.
  - exact HN.
  - apply HB.
  - apply HZ.
  - apply HS.
  - apply HO. induction props as [|[k v] r IHr]; constructor; [apply IH | exact IHr].
  - apply HA. induction elems as [|v r IHr]; constructor; [apply IH | exact IHr].
  - apply HF.
Qed.

Lemma compileTemplate_array proto (elems : list value) (data : value) :
  compileTemplate proto (VArr elems) data
  = reduce_elems (fun sub => compileTemplate proto sub data) [] O elems.
Proof.
  cbn. generalize (@nil (string * value)) O.
  induction elems as [|v r IH]; intros acc i; [reflexivity|].
  cbn. destruct (compileTemplate proto v data); cbn; [apply IH | reflexivity].
Qed.

Lemma distinct_NoDup (keys : list string) : distinct keys = true -> List.NoDup keys.
Proof.
  induction keys as [|k r IH]; cbn; intros H; constructor.
  - apply andb_prop in H as [H _]. apply negb_true_iff in H.
    intros Hin. apply not_true_iff_false in H. apply H.
    apply existsb_exists. exists k. split; [exact Hin | apply String.eqb_refl].
  - apply andb_prop in H as [_ H]. auto.
Qed.

Lemma NoDup_app_snoc (k : string) (l1 l2 : list string) :
  List.NoDup (l1 ++ k :: l2) -> List.NoDup ((l1 ++ [k]) ++ l2).
Proof. now rewrite <- app_assoc. Qed.

(** When every sub-template compiles to itself, so does the mapping. *)
Lemma reduce_props_same (f : value -> Completion value) (acc ps : list (string * value)) :
  Forall (fun kv => f (snd kv) = Normal (snd kv)) ps ->
  ~ In "__proto__" (List.map fst ps) ->
  List.NoDup (List.map fst acc ++ List.map fst ps) ->
  reduce_props f acc ps = Normal (VObj (acc ++ ps)).
Proof.
  revert acc. induction ps as [|[k v] ps IH]; intros acc Hf Hp Hnd.
  - cbn. now rewrite app_nil_r.
  - inversion Hf as [|? ? Hv Hrest]; subst. cbn in Hv, Hp, Hnd. cbn. rewrite Hv. cbn.
    assert (Hk : (k =? "__proto__")%string = false)
      by (apply String.eqb_neq; intros ->; apply Hp; now left).
    unfold set_prop. rewrite Hk.
    rewrite put_fresh.
    + rewrite IH; [now rewrite <- app_assoc | exact Hrest | |].
      * intros Hin. apply Hp. now right.
      * rewrite List.map_app. cbn. now apply NoDup_app_snoc.
    + intros Hin. apply NoDup_remove_2 in Hnd. apply Hnd. apply in_or_app. now left.
Qed.

Lemma includes_tail (c : ascii) (s sub : string) :
  includes (String c s) sub = false -> includes s sub = false.
Proof. cbn [includes]. intros H. now apply orb_false_elim in H as [_ H]. Qed.

Lemma placeholder_at_starts (s p : string) :
  placeholder_at s = Some p -> starts_with "{{" s = true.
Proof.
  intros H. apply placeholder_at_shape in H as [rest ->].
  unfold token_text. reflexivity.
Qed.

(** Without the opening of a placeholder, a text is all plain characters. *)
Lemma scan_plain_text (s : string) : includes s "{{" = false -> scan 0 s = chars s.
Proof.
  induction s as [|c s IH]; intros H; [reflexivity|].
  cbn [scan chars].
  destruct (placeholder_at (String c s)) as [p|] eqn:E.
  - apply placeholder_at_starts in E. cbn [includes] in H.
    rewrite E in H. discriminate H.
  - rewrite IH; [reflexivity | exact (includes_tail _ _ _ H)].
Qed.

Lemma replace_chars (f : string -> string -> Completion string) (s : string)
    (ts : list token) :
  replace_tokens f (chars s ++ ts)
  = (out ← replace_tokens f ts; Normal (s +:+ out)).
Proof.
  induction s as [|c s IH]; cbn [chars app replace_tokens].
  - destruct (replace_tokens f ts); reflexivity.
  - rewrite IH. destruct (replace_tokens f ts); reflexivity.
Qed.

Lemma replace_chars_only (f : string -> string -> Completion string) (s : string) :
  replace_tokens f (chars s) = Normal s.
Proof.
  induction s as [|c s IH]; cbn [chars replace_tokens]; [reflexivity|].
  now rewrite IH.
Qed.

(** X1: a template without placeholders is sent as it is.  A template made
    of mappings with distinct keys other than [__proto__], numbers,
    booleans and strings free of ["{{"] compiles to itself, whatever the
    event data. *)
Theorem compileTemplate_static_unchanged proto (template data : value) :
  static_template template = true ->
  compileTemplate proto template data = Normal template.
Proof.
  revert template. apply (value_tree_ind (fun t =>
    static_template t = true -> compileTemplate proto t data = Normal t));
    try (intros; reflexivity); try (intros; discriminate).
  - intros s Hs. cbn in Hs. apply negb_true_iff in Hs.
    cbn. unfold tokens. rewrite (scan_plain_text s Hs), replace_chars_only. reflexivity.
  - intros props IH Hs. cbn [static_template] in Hs.
    apply andb_prop in Hs as [Hd Hall].
    rewrite compileTemplate_object.
    rewrite reduce_props_same; [reflexivity | | |].
    + clear Hd. induction props as [|[k v] r IHr]; constructor.
      * inversion IH; subst. cbn in *. apply andb_prop in Hall as [Hkv _].
        apply andb_prop in Hkv as [_ Hv]. auto.
      * inversion IH; subst. apply IHr; [assumption|].
        apply andb_prop in Hall as [_ Hall]. exact Hall.
    + clear Hd IH. induction props as [|[k v] r IHr]; [intros []|].
      apply andb_prop in Hall as [Hkv Hall]. apply andb_prop in Hkv as [Hk _].
      apply negb_true_iff, String.eqb_neq in Hk.
      intros [Hin|Hin]; [cbn in Hin; congruence | exact (IHr Hall Hin)].
    + cbn. now apply distinct_NoDup.
Qed.

Lemma compileTemplate_static_unchanged_witness :
  compileTemplate no_proto
    (VObj [("content", VStr "server up"); ("tts", VBool false);
           ("embed", VObj [("color", VNum 5763719)])])
    event_data
  = Normal (VObj [("content", VStr "server up"); ("tts", VBool false);
                  ("embed", VObj [("color", VNum 5763719)])]).
Proof.
  apply (compileTemplate_static_unchanged no_proto
           (VObj [("content", VStr "server up"); ("tts", VBool false);
                  ("embed", VObj [("color", VNum 5763719)])]) event_data).
  reflexivity.
Defined.

Lemma reduce_props_throws (f : value -> Completion value) (acc ps : list (string * value)) :
  Exists (fun kv => exists e, f (snd kv) = Throw e) ps ->
  exists e, reduce_props f acc ps = Throw e.
Proof.
  intros H. revert acc. induction H as [[k v] r [e He]|[k v] r _ IH]; intros acc; cbn.
  - cbn in He. rewrite He. now exists e.
  - destruct (f v) as [x|e]; cbn; [apply IH | now exists e].
Qed.

Lemma reduce_elems_throws (f : value -> Completion value) (acc : list (string * value))
    (i : nat) (es : list value) :
  Exists (fun v => exists e, f v = Throw e) es ->
  exists e, reduce_elems f acc i es = Throw e.
Proof.
  intros H. revert acc i. induction H as [v r [e He]|v r _ IH]; intros acc i; cbn.
  - rewrite He. now exists e.
  - destruct (f v) as [x|e]; cbn; [apply IH | now exists e].
Qed.

(** X2: a [null] at any depth of the template makes the compilation
    throw, whatever the data: nothing is returned for such a payload. *)
Theorem compileTemplate_null_anywhere_throws proto (template data : value) :
  contains_null template = true ->
  exists e, compileTemplate proto template data = Throw e.
Proof.
  revert template. apply (value_tree_ind (fun t =>
    contains_null t = true -> exists e, compileTemplate proto t data = Throw e));
    try (intros; discriminate).
  - intros _. eexists. reflexivity.
  - intros props IH H. rewrite compileTemplate_object. apply reduce_props_throws.
    cbn [contains_null] in H.
    induction props as [|[k v] r IHr]; [discriminate H|].
    inversion IH as [|? ? Hv Hr]; subst. apply orb_prop in H as [H|H].
    + left. exact (Hv H).
    + right. exact (IHr Hr H).
  - intros elems IH H. rewrite compileTemplate_array. apply reduce_elems_throws.
    cbn [contains_null] in H.
    induction elems as [|v r IHr]; [discriminate H|].
    inversion IH as [|? ? Hv Hr]; subst. apply orb_prop in H as [H|H].
    + left. exact (Hv H).
    + right. exact (IHr Hr H).
Qed.

Lemma compileTemplate_null_anywhere_throws_witness :
  exists e,
    compileTemplate no_proto
      (VObj [("embeds", VArr [VObj [("title", VStr "{{userName}}"); ("url", VNull)]])])
      event_data = Throw e.
Proof.
  apply (compileTemplate_null_anywhere_throws no_proto
           (VObj [("embeds", VArr [VObj [("title", VStr "{{userName}}"); ("url", VNull)]])])
           event_data).
  reflexivity.
Defined.

(** Decimal numerals never start with an underscore. *)
Lemma pretty_N_go_not_underscore (x : N) (s rest : string) :
  s <> String "_" rest -> pretty_N_go x s <> String "_" rest.
Proof.
  revert s. induction (N.lt_wf_0 x) as [x _ IH]. intros s Hs.
  destruct (N.eq_dec x 0%N) as [->|Hx].
  - now rewrite pretty_N_go_0.
  - rewrite pretty_N_go_step by lia. apply IH.
    + apply N.div_lt; lia.
    + unfold pretty_N_char. intros E. inversion E as [[Hc Hr]].
      repeat match type of Hc with
             | match ?n with _ => _ end = _ => destruct n; try discriminate Hc
             end.
Qed.

Lemma pretty_nat_not_proto (i : nat) : pretty i <> "__proto__".
Proof.
  unfold pretty, pretty_nat, pretty, pretty_N.
  destruct (decide (N.of_nat i = 0%N)); [discriminate|].
  apply pretty_N_go_not_underscore. discriminate.
Qed.

(** The properties built so far are those of the indices below [i]. *)
Lemma reduce_elems_indexed (f : value -> Completion value) (acc : list (string * value))
    (i : nat) (es cs : list value) :
  Forall2 (fun e c => f e = Normal c) es cs ->
  (forall k, In k (List.map fst acc) -> exists j, (j < i)%nat /\ k = pretty j) ->
  reduce_elems f acc i es = Normal (VObj (acc ++ indexed i cs)).
Proof.
  intros HF. revert acc i. induction HF as [|e c es cs He _ IH]; intros acc i Hacc.
  - cbn. now rewrite app_nil_r.
  - cbn. rewrite He. cbn. unfold set_prop.
    pose proof (pretty_nat_not_proto i) as Hp. apply String.eqb_neq in Hp. rewrite Hp.
    rewrite put_fresh.
    + rewrite IH; [now rewrite <- app_assoc|].
      intros k Hk. rewrite List.map_app in Hk. apply in_app_or in Hk as [Hk|[<-|[]]].
      * destruct (Hacc k Hk) as [j [Hj ->]]. exists j. split; [lia | reflexivity].
      * exists i. split; [lia | reflexivity].
    + intros Hin. destruct (Hacc _ Hin) as [j [Hj Hij]].
      apply (inj pretty) in Hij. lia.
Qed.

(** X3: a sequence does not stay a sequence: when its elements compile,
    an array comes back as a mapping from the decimal indices ["0"], ["1"],
    ... to the compiled elements, in order. *)
Theorem compileTemplate_array_becomes_mapping proto (elems cs : list value) (data : value) :
  Forall2 (fun e c => compileTemplate proto e data = Normal c) elems cs ->
  compileTemplate proto (VArr elems) data = Normal (VObj (indexed 0 cs)).
Proof.
  intros H. rewrite compileTemplate_array.
  rewrite (reduce_elems_indexed _ [] 0 elems cs H); [reflexivity|].
  intros k [].
Qed.

Lemma compileTemplate_array_becomes_mapping_witness :
  compileTemplate no_proto (VArr [VStr "{{userName}}"; VNum 7]) event_data
  = Normal (VObj (indexed 0 [VStr "alice"; VNum 7])).
Proof.
  apply (compileTemplate_array_becomes_mapping no_proto
           [VStr "{{userName}}"; VNum 7] [VStr "alice"; VNum 7] event_data).
  repeat constructor.
Defined.

Lemma NoDup_app_cons_drop (k : string) (l1 l2 : list string) :
  List.NoDup (l1 ++ k :: l2) -> List.NoDup (l1 ++ l2).
Proof. apply NoDup_remove_1. Qed.

(** The general form of the [reduce]: the properties come out in order,
    each bound to the compilation of its value, and a property named
    [__proto__] leaves no trace. *)
Lemma reduce_props_filtered (f : value -> Completion value)
    (acc ps : list (string * value)) (r : value) :
  reduce_props f acc ps = Normal r ->
  List.NoDup (List.map fst acc ++ List.map fst ps) ->
  exists out,
    r = VObj (acc ++ out) /\
    Forall2 (fun kv kv' => fst kv' = fst kv /\ f (snd kv) = Normal (snd kv'))
            (List.filter not_proto_key ps) out.
Proof.
  revert acc. induction ps as [|[k v] ps IH]; intros acc Hr Hnd.
  - cbn in Hr. inversion Hr. exists []. rewrite app_nil_r. split; [reflexivity | constructor].
  - cbn in Hr. destruct (f v) as [x|e] eqn:Ef; cbn in Hr; [|discriminate].
    cbn in Hnd. cbn [List.filter]. unfold not_proto_key at 1. cbn [fst].
    unfold set_prop in Hr.
    destruct (k =? "__proto__")%string eqn:Hk; cbn [negb].
    + apply IH in Hr; [exact Hr | exact (NoDup_app_cons_drop _ _ _ Hnd)].
    + rewrite put_fresh in Hr.
      * apply IH in Hr as [out [-> HF]].
        -- exists ((k, x) :: out). split; [now rewrite <- app_assoc|].
           constructor; [now split | exact HF].
        -- rewrite List.map_app. cbn. now apply NoDup_app_snoc.
      * intros Hin. apply NoDup_remove_2 in Hnd. apply Hnd. apply in_or_app. now left.
Qed.

(** X4: compiling a mapping keeps its keys and their order, binds each to
    the compilation of its value, and drops a key named [__proto__]. *)
Theorem compileTemplate_mapping_keys proto (props : list (string * value)) (data r : value) :
  List.NoDup (List.map fst props) ->
  compileTemplate proto (VObj props) data = Normal r ->
  exists out,
    r = VObj out /\
    List.map fst out = List.filter (fun k => negb (k =? "__proto__")%string) (List.map fst props) /\
    Forall2 (fun kv kv' => compileTemplate proto (snd kv) data = Normal (snd kv'))
            (List.filter not_proto_key props) out.
Proof.
  intros Hnd Hr. rewrite compileTemplate_object in Hr.
  apply reduce_props_filtered in Hr as [out [-> HF]]; [|exact Hnd].
  exists out. split; [reflexivity|]. split.
  - clear Hnd. revert out HF. induction props as [|[k v] ps IH]; intros out HF.
    + inversion HF. reflexivity.
    + cbn [List.filter List.map fst] in *. unfold not_proto_key in HF at 1. cbn [fst] in HF.
      destruct (k =? "__proto__")%string; cbn [negb] in *.
      * apply IH. exact HF.
      * inversion HF as [|? kv' ? out' [Hk _] Hrest]; subst. cbn.
        rewrite Hk. f_equal. apply IH. exact Hrest.
  - clear - HF. induction HF as [|kv kv' l l' [_ Hv] _ IH]; constructor; assumption.
Qed.

Lemma compileTemplate_mapping_keys_witness :
  exists out,
    VObj [("user", VStr "alice"); ("n", VNum 1)] = VObj out /\
    List.map fst out
    = List.filter (fun k => negb (k =? "__proto__")%string)
        (List.map fst [("user", VStr "{{userName}}"); ("__proto__", VNum 0); ("n", VNum 1)]) /\
    Forall2 (fun kv kv' => compileTemplate no_proto (snd kv) event_data = Normal (snd kv'))
      (List.filter not_proto_key
         [("user", VStr "{{userName}}"); ("__proto__", VNum 0); ("n", VNum 1)]) out.
Proof.
  apply (compileTemplate_mapping_keys no_proto
           [("user", VStr "{{userName}}"); ("__proto__", VNum 0); ("n", VNum 1)]
           event_data (VObj [("user", VStr "alice"); ("n", VNum 1)])).
  - repeat constructor; cbn; intuition discriminate.
  - reflexivity.
Defined.

(** ** One placeholder in a text *)

Lemma scan_skip (skip : nat) (s : string) : scan skip s = scan 0 (string_drop skip s).
Proof.
  revert skip. induction s as [|c s IH]; intros [|k]; try reflexivity.
  cbn [scan string_drop]. apply IH.
Qed.

Lemma placeholder_at_other (c : ascii) (s : string) :
  not_open_brace c = true -> placeholder_at (String c s) = None.
Proof.
  unfold not_open_brace. intros H. apply negb_true_iff in H.
  destruct c as [[] [] [] [] [] [] [] []]; try reflexivity; discriminate H.
Qed.

Lemma scan_prefix (pre rest : string) :
  all_chars not_open_brace pre = true ->
  scan 0 (pre +:+ rest) = chars pre ++ scan 0 rest.
Proof.
  induction pre as [|c pre IH]; intros H; [reflexivity|].
  cbn in H. apply andb_prop in H as [Hc Hpre].
  sapp. cbn [scan chars app]. rewrite (placeholder_at_other c _ Hc).
  now rewrite IH.
Qed.

Lemma key_chars_closed (k : string) :
  all_chars key_char k = true ->
  all_chars (fun c => negb (Ascii.eqb c "}"%char)) k = true.
Proof.
  induction k as [|c k IH]; [reflexivity|]. cbn. intros H.
  apply andb_prop in H as [Hc Hk]. rewrite (IH Hk), andb_true_r.
  unfold key_char in Hc. apply negb_true_iff in Hc.
  apply orb_false_elim in Hc as [Hc _]. apply orb_false_elim in Hc as [Hc _].
  now rewrite Hc.
Qed.

Lemma span_open_run (k rest : string) :
  all_chars (fun c => negb (Ascii.eqb c "}"%char)) k = true ->
  span_open (k +:+ String "}" rest) = (k, String "}" rest).
Proof.
  induction k as [|c k IH]; intros H; [reflexivity|].
  cbn in H. apply andb_prop in H as [Hc Hk]. apply negb_true_iff in Hc.
  sapp. cbn [span_open]. rewrite Hc, (IH Hk). reflexivity.
Qed.

Lemma placeholder_at_run (p post : string) :
  p <> EmptyString ->
  all_chars (fun c => negb (Ascii.eqb c "}"%char)) p = true ->
  placeholder_at (String "{" (String "{" (p +:+ String "}" (String "}" post)))) = Some p.
Proof.
  intros Hne Hp. cbn [placeholder_at]. rewrite (span_open_run p _ Hp).
  destruct p; [contradiction|]. reflexivity.
Qed.

Lemma scan_found (c : ascii) (s p : string) :
  placeholder_at (String c s) = Some p ->
  scan 0 (String c s) = TPlaceholder p :: scan 0 (string_drop (3 + String.length p) s).
Proof. intros H. cbn [scan]. rewrite H. f_equal. apply scan_skip. Qed.

Lemma string_drop_past (p r : string) (n : nat) :
  string_drop (String.length p + n) (p +:+ r) = string_drop n r.
Proof. induction p as [|c p IH]; [reflexivity|]. sapp. cbn. exact IH. Qed.

(** The tokens of a text with one placeholder: the characters before it,
    the placeholder, the characters after it. *)
Lemma tokens_one_placeholder (pre p post : string) :
  all_chars not_open_brace pre = true ->
  p <> EmptyString ->
  all_chars (fun c => negb (Ascii.eqb c "}"%char)) p = true ->
  includes post "{{" = false ->
  tokens (pre +:+ "{{" +:+ p +:+ "}}" +:+ post) = chars pre ++ TPlaceholder p :: chars post.
Proof.
  intros Hpre Hne Hp Hpost. unfold tokens. rewrite (scan_prefix pre _ Hpre).
  f_equal. sapp.
  rewrite (scan_found _ _ p) by now apply placeholder_at_run.
  f_equal.
  replace (3 + String.length p)%nat with (S (String.length p + 2)) by lia.
  cbn [string_drop]. rewrite string_drop_past. cbn [string_drop].
  now apply scan_plain_text.
Qed.

Lemma compileTemplate_one_placeholder proto (pre p post : string) (data : value) :
  all_chars not_open_brace pre = true ->
  p <> EmptyString ->
  all_chars (fun c => negb (Ascii.eqb c "}"%char)) p = true ->
  includes post "{{" = false ->
  compileTemplate proto (VStr (pre +:+ "{{" +:+ p +:+ "}}" +:+ post)) data
  = (x ← replacer proto data ("{{" +:+ p +:+ "}}") p; Normal (VStr (pre +:+ x +:+ post))).
Proof.
  intros Hpre Hne Hp Hpost. cbn [compileTemplate typeof String.eqb Ascii.eqb Bool.eqb].
  cbn beta iota.
  rewrite (tokens_one_placeholder pre p post Hpre Hne Hp Hpost).
  rewrite replace_chars. cbn [replace_tokens]. unfold token_text.
  destruct (replacer proto data ("{{" +:+ p +:+ "}}") p) as [x|e]; [|reflexivity].
  cbn. rewrite replace_chars_only. reflexivity.
Qed.

(** ** Paths made of plain keys *)

Lemma trim_start_plain (s : string) : all_chars key_char s = true -> trim_start s = s.
Proof.
  destruct s as [|c s]; [reflexivity|]. cbn. intros H.
  apply andb_prop in H as [Hc _]. unfold key_char in Hc.
  apply negb_true_iff, orb_false_elim in Hc as [_ Hc]. now rewrite Hc.
Qed.

Lemma trim_end_plain (s : string) :
  all_chars (fun c => negb (is_white c)) s = true -> trim_end s = s.
Proof.
  induction s as [|c s IH]; [reflexivity|]. cbn. intros H.
  apply andb_prop in H as [Hc Hs]. rewrite (IH Hs).
  apply negb_true_iff in Hc. rewrite Hc. now destruct s.
Qed.

Lemma split_dot_key (k s : string) :
  all_chars (fun c => negb (Ascii.eqb c "."%char)) k = true ->
  split_dot (k +:+ String "." s) = k :: split_dot s.
Proof.
  induction k as [|c k IH]; intros H; [reflexivity|].
  cbn in H. apply andb_prop in H as [Hc Hk]. apply negb_true_iff in Hc.
  sapp. cbn [split_dot]. rewrite Hc, (IH Hk). reflexivity.
Qed.

Lemma split_dot_last (k : string) :
  all_chars (fun c => negb (Ascii.eqb c "."%char)) k = true ->
  split_dot k = [k].
Proof.
  induction k as [|c k IH]; intros H; [reflexivity|].
  cbn in H. apply andb_prop in H as [Hc Hk]. apply negb_true_iff in Hc.
  cbn [split_dot]. rewrite Hc, (IH Hk). reflexivity.
Qed.

Lemma all_chars_weaken (p q : ascii -> bool) (s : string) :
  (forall c, p c = true -> q c = true) -> all_chars p s = true -> all_chars q s = true.
Proof.
  intros Hpq. induction s as [|c s IH]; [reflexivity|]. cbn. intros H.
  apply andb_prop in H as [Hc Hs]. now rewrite (Hpq c Hc), (IH Hs).
Qed.

Lemma all_chars_app (p : ascii -> bool) (a b : string) :
  all_chars p a = true -> all_chars p b = true -> all_chars p (a +:+ b) = true.
Proof.
  induction a as [|c a IH]; intros Ha Hb; [exact Hb|].
  cbn in Ha. apply andb_prop in Ha as [Hc Ha]. sapp. cbn. now rewrite Hc, IH.
Qed.

Lemma key_char_no_dot (c : ascii) : key_char c = true -> negb (Ascii.eqb c "."%char) = true.
Proof.
  unfold key_char. intros H. apply negb_true_iff in H.
  apply orb_false_elim in H as [H _]. apply orb_false_elim in H as [_ H]. now rewrite H.
Qed.

Lemma key_char_no_white (c : ascii) : key_char c = true -> negb (is_white c) = true.
Proof.
  unfold key_char. intros H. apply negb_true_iff in H.
  apply orb_false_elim in H as [_ H]. now rewrite H.
Qed.

Lemma plain_key_chars (k : string) :
  plain_key k = true -> k <> EmptyString /\ all_chars key_char k = true.
Proof. destruct k; [discriminate|]. intros H. split; [discriminate | exact H]. Qed.

Lemma path_chars (keys : list string) :
  forallb plain_key keys = true -> all_chars path_char (join "." keys) = true.
Proof.
  induction keys as [|k r IH]; [reflexivity|]. cbn [forallb]. intros H.
  apply andb_prop in H as [Hk Hr]. apply plain_key_chars in Hk as [_ Hk].
  assert (Hk' : all_chars path_char k = true).
  { apply (all_chars_weaken key_char); [|exact Hk].
    intros c Hc. unfold path_char. now rewrite Hc. }
  destruct r as [|k2 r]; [exact Hk'|].
  change (join "." (k :: k2 :: r)) with (k +:+ "." +:+ join "." (k2 :: r)).
  apply all_chars_app; [exact Hk'|]. sapp. cbn [all_chars]. now rewrite (IH Hr).
Qed.

Lemma split_dot_join (keys : list string) :
  plain_path keys = true -> split_dot (join "." keys) = keys.
Proof.
  destruct keys as [|k r]; [discriminate|]. unfold plain_path.
  revert k. induction r as [|k2 r IH]; intros k H; cbn [forallb] in H.
  - apply andb_prop in H as [Hk _]. apply plain_key_chars in Hk as [_ Hk].
    cbn [join]. apply split_dot_last.
    exact (all_chars_weaken _ _ _ key_char_no_dot Hk).
  - apply andb_prop in H as [Hk Hr]. apply plain_key_chars in Hk as [_ Hk].
    change (join "." (k :: k2 :: r)) with (k +:+ String "." (join "." (k2 :: r))).
    rewrite split_dot_key by exact (all_chars_weaken _ _ _ key_char_no_dot Hk).
    f_equal. apply IH. exact Hr.
Qed.

Lemma trim_start_white (w s : string) :
  all_chars is_white w = true -> trim_start (w +:+ s) = trim_start s.
Proof.
  induction w as [|c w IH]; intros H; [reflexivity|].
  cbn in H. apply andb_prop in H as [Hc Hw]. sapp. cbn [trim_start].
  now rewrite Hc, IH.
Qed.

Lemma trim_end_white (w : string) : all_chars is_white w = true -> trim_end w = EmptyString.
Proof.
  induction w as [|c w IH]; intros H; [reflexivity|].
  cbn in H. apply andb_prop in H as [Hc Hw]. cbn [trim_end].
  now rewrite (IH Hw), Hc.
Qed.

Lemma trim_end_padded (p w : string) :
  all_chars (fun c => negb (is_white c)) p = true -> all_chars is_white w = true ->
  trim_end (p +:+ w) = p.
Proof.
  intros Hp Hw. induction p as [|c p IH]; [now apply trim_end_white|].
  cbn in Hp. apply andb_prop in Hp as [Hc Hp]. apply negb_true_iff in Hc.
  sapp. cbn [trim_end]. rewrite (IH Hp), Hc. now destruct p.
Qed.

Lemma path_char_no_white (c : ascii) : path_char c = true -> negb (is_white c) = true.
Proof.
  unfold path_char. intros H. apply orb_prop in H as [H|H].
  - now apply key_char_no_white.
  - apply Ascii.eqb_eq in H. now subst c.
Qed.

Lemma path_char_closed (c : ascii) :
  path_char c = true -> negb (Ascii.eqb c "}"%char) = true.
Proof.
  unfold path_char, key_char. intros H. apply orb_prop in H as [H|H].
  - apply negb_true_iff in H. apply orb_false_elim in H as [H _].
    apply orb_false_elim in H as [H _]. now rewrite H.
  - apply Ascii.eqb_eq in H. now subst c.
Qed.

Lemma white_closed (c : ascii) : is_white c = true -> negb (Ascii.eqb c "}"%char) = true.
Proof.
  intros H. destruct (Ascii.eqb_spec c "}"%char) as [->|]; [discriminate H | reflexivity].
Qed.

Lemma plain_path_nonempty (keys : list string) :
  plain_path keys = true -> join "." keys <> EmptyString.
Proof.
  destruct keys as [|k r]; [discriminate|]. unfold plain_path. cbn [forallb]. intros H.
  apply andb_prop in H as [Hk _]. destruct k as [|c k]; [discriminate|].
  destruct r; cbn [join]; [discriminate|]. sapp. discriminate.
Qed.

Lemma plain_path_keys (keys : list string) :
  plain_path keys = true -> forallb plain_key keys = true.
Proof. now destruct keys. Qed.

(** A path of plain keys, with white space around it or not, is read back
    as its keys. *)
Lemma trim_padded_path (w1 w2 : string) (keys : list string) :
  all_chars is_white w1 = true -> all_chars is_white w2 = true ->
  plain_path keys = true ->
  split_dot (trim (w1 +:+ join "." keys +:+ w2)) = keys.
Proof.
  intros H1 H2 Hk. unfold trim. rewrite (trim_start_white _ _ H1).
  pose proof (path_chars keys (plain_path_keys _ Hk)) as Hc.
  pose proof (plain_path_nonempty keys Hk) as Hne.
  assert (Hs : trim_start (join "." keys +:+ w2) = join "." keys +:+ w2).
  { destruct (join "." keys) as [|c p]; [contradiction|]. sapp. cbn [trim_start].
    cbn in Hc. apply andb_prop in Hc as [Hc _].
    apply path_char_no_white, negb_true_iff in Hc. now rewrite Hc. }
  rewrite Hs, trim_end_padded; [now apply split_dot_join | | exact H2].
  exact (all_chars_weaken _ _ _ path_char_no_white Hc).
Qed.

(** It is a legal content of a placeholder. *)
Lemma padded_path_closed (w1 w2 : string) (keys : list string) :
  all_chars is_white w1 = true -> all_chars is_white w2 = true ->
  plain_path keys = true ->
  w1 +:+ join "." keys +:+ w2 <> EmptyString /\
  all_chars (fun c => negb (Ascii.eqb c "}"%char)) (w1 +:+ join "." keys +:+ w2) = true.
Proof.
  intros H1 H2 Hk. split.
  - pose proof (plain_path_nonempty keys Hk) as Hne.
    destruct w1; [|sapp; discriminate]. sapp.
    destruct (join "." keys); [contradiction|]. sapp. discriminate.
  - apply all_chars_app; [exact (all_chars_weaken _ _ _ white_closed H1)|].
    apply all_chars_app; [|exact (all_chars_weaken _ _ _ white_closed H2)].
    exact (all_chars_weaken _ _ _ path_char_closed (path_chars keys (plain_path_keys _ Hk))).
Qed.

(** The walk follows own properties as [nested] does. *)
Lemma walk_nested proto (data v : value) (keys rest : list string) :
  nested data keys = Some v -> walk proto data (keys ++ rest) = walk proto v rest.
Proof.
  revert data. induction keys as [|k r IH]; intros data H.
  - cbn in H. now injection H as ->.
  - cbn [nested] in H. destruct data as [| | | | |props| |]; try discriminate H.
    destruct (assoc k props) as [x|] eqn:E; [|discriminate H].
    cbn [app walk get_prop]. rewrite E. cbn. now apply IH.
Qed.

(** X5: a placeholder whose path of plain keys, with or without white
    space around it, leads through own properties of nested mappings to a
    value other than [undefined] is replaced by the text of that value,
    and the text around the placeholder is kept. *)
Theorem compileTemplate_substitutes proto (pre w1 w2 post text : string)
    (keys : list string) (data v : value) :
  all_chars not_open_brace pre = true ->
  all_chars is_white w1 = true -> all_chars is_white w2 = true ->
  plain_path keys = true ->
  includes post "{{" = false ->
  nested data keys = Some v -> v <> VUndef -> ToString v = Normal text ->
  compileTemplate proto
    (VStr (pre +:+ "{{" +:+ (w1 +:+ join "." keys +:+ w2) +:+ "}}" +:+ post)) data
  = Normal (VStr (pre +:+ text +:+ post)).
Proof.
  intros Hpre H1 H2 Hk Hpost Hn Hv Ht.
  destruct (padded_path_closed w1 w2 keys H1 H2 Hk) as [Hne Hcl].
  rewrite (compileTemplate_one_placeholder proto pre _ post data Hpre Hne Hcl Hpost).
  unfold replacer, resolve. rewrite (trim_padded_path w1 w2 keys H1 H2 Hk).
  assert (Hw : walk proto data keys = Normal v).
  { rewrite <- (app_nil_r keys). exact (walk_nested proto data v keys [] Hn). }
  rewrite Hw.
  cbn [walk mbind Completion_bind cbind].
  replace (match v with VUndef => Normal ("{{" +:+ (w1 +:+ join "." keys +:+ w2) +:+ "}}")
           | _ => ToString v end) with (ToString v)
    by (destruct v; [contradiction | reflexivity ..]).
  now rewrite Ht.
Qed.

Lemma compileTemplate_substitutes_witness :
  compileTemplate no_proto
    (VStr ("Hello " +:+ "{{" +:+ (" " +:+ join "." ["user"; "name"] +:+ " ") +:+ "}}" +:+ "!"))
    (VObj [("user", VObj [("name", VStr "bob")])])
  = Normal (VStr ("Hello " +:+ "bob" +:+ "!")).
Proof.
  refine (compileTemplate_substitutes no_proto "Hello " " " " " "!" "bob" ["user"; "name"]
            (VObj [("user", VObj [("name", VStr "bob")])]) (VStr "bob")
            _ _ _ _ _ _ _ _);
    try reflexivity; discriminate.
Defined.

(** X6: a placeholder whose path of plain keys reaches, at any depth, a
    mapping that has the next key neither of its own nor inherited is left
    in the text exactly as written, whatever keys follow. *)
Theorem compileTemplate_missing_key_kept proto (pre w1 w2 post key : string)
    (before after : list string) (data : value) (props : list (string * value)) :
  all_chars not_open_brace pre = true ->
  all_chars is_white w1 = true -> all_chars is_white w2 = true ->
  plain_path (before ++ key :: after) = true ->
  includes post "{{" = false ->
  nested data before = Some (VObj props) ->
  assoc key props = None -> proto (VObj props) key = VUndef ->
  compileTemplate proto
    (VStr (pre +:+ "{{" +:+ (w1 +:+ join "." (before ++ key :: after) +:+ w2)
           +:+ "}}" +:+ post)) data
  = Normal (VStr (pre +:+ "{{" +:+ (w1 +:+ join "." (before ++ key :: after) +:+ w2)
                  +:+ "}}" +:+ post)).
Proof.
  intros Hpre H1 H2 Hk Hpost Hn Ha Hp.
  destruct (padded_path_closed w1 w2 _ H1 H2 Hk) as [Hne Hcl].
  rewrite (compileTemplate_one_placeholder proto pre _ post data Hpre Hne Hcl Hpost).
  unfold replacer, resolve. rewrite (trim_padded_path w1 w2 _ H1 H2 Hk).
  rewrite (walk_nested proto data (VObj props) before (key :: after) Hn).
  rewrite (walk_absent_key proto props key after Ha Hp). cbn.
  now rewrite !string_app_assoc.
Qed.

Lemma compileTemplate_missing_key_kept_witness :
  compileTemplate no_proto
    (VStr ("id=" +:+ "{{" +:+ (EmptyString +:+ join "." (["item"] ++ "id" :: ["raw"])
           +:+ EmptyString) +:+ "}}" +:+ ";"))
    (VObj [("item", VObj [("name", VStr "x")])])
  = Normal (VStr ("id=" +:+ "{{" +:+ (EmptyString +:+ join "." (["item"] ++ "id" :: ["raw"])
           +:+ EmptyString) +:+ "}}" +:+ ";")).
Proof.
  refine (compileTemplate_missing_key_kept no_proto "id=" EmptyString EmptyString ";" "id"
            ["item"] ["raw"] (VObj [("item", VObj [("name", VStr "x")])])
            [("name", VStr "x")] _ _ _ _ _ _ _ _);
    reflexivity.
Defined.

(** * More on single deliveries *)

Lemma queries_cons (ev : Event) (l : list Event) :
  queries (ev :: l)
  = match ev with
    | DbQuery q _ => q :: queries l
    | _ => queries l
    end.
Proof. now destruct ev. Qed.

Lemma queries_failure_log (webhook : Webhook) (e : JsError) :
  queries (failure_log webhook e) = [].
Proof. unfold failure_log. now destruct (response e). Qed.

Lemma touched_failure_log (webhook : Webhook) (e : JsError) :
  touched (failure_log webhook e) = [].
Proof. unfold failure_log. now destruct (response e). Qed.

Lemma touched_app (a b : list Event) : touched (a ++ b) = touched a ++ touched b.
Proof. apply omap_app. Qed.

Ltac stmts :=
  repeat (rewrite queries_cons; cbn [sent_log detected_log]);
  rewrite ?queries_failure_log.

Lemma parse_column_falsy (JSON_parse : string -> Completion value) (x : value) :
  truthy x = false -> JSON_parse "{}" = Normal (VObj []) ->
  parse_column JSON_parse x = Normal (VObj []).
Proof.
  intros Hx Hj. unfold parse_column, js_or. rewrite Hx.
  destruct x; cbn; try reflexivity; exact Hj.
Qed.

Section DeliveryMore.

Variable proto : value -> string -> value.
Variable JSON_parse : string -> Completion value.
Variable axios : Trace -> Request -> Completion Response.
Variable db : Trace -> Query -> Completion (list Row).

Local Abbreviation exec := (executeWebhook proto JSON_parse axios db).

(** What a delivery can add to the trace, as far as the network and the
    store are concerned. *)
Lemma executeWebhook_effects (webhook : Webhook) (data : value) (t : Trace) :
  exists b evs,
    exec webhook data t = (Normal b, (t ++ evs)%list) /\
    (http_calls evs = [] /\ queries evs = [] \/
     exists req, http_calls evs = [req] /\ own_request webhook req /\
       (queries evs = [] \/ queries evs = [UpdateLastTriggered (id webhook)])).
Proof.
  destruct (call_includes (url webhook) "discord.com/api/webhooks")
    as [chat|e] eqn:Hurl.
  2:{ eexists _, _. split; [eapply executeWebhook_no_url; eassumption|]. left.
      now rewrite http_calls_failure_log, queries_failure_log. }
  destruct (parse_webhook JSON_parse webhook) as [[parsedHeaders parsedPayload]|e] eqn:Hparse.
  2:{ eexists _, _. split; [eapply executeWebhook_malformed; eassumption|]. now left. }
  rewrite (executeWebhook_parsed _ _ _ _ _ _ _ _ _ _ Hurl Hparse).
  destruct chat.
  - rewrite send_chat. cbv zeta.
    destruct (axios _ _) as [r|e]; [destruct (db _ _) as [rows|e]|];
      eexists _, _; (split; [norm_trace; reflexivity|]); right;
      calls; stmts; eexists; (split; [reflexivity|]);
      (split; [repeat split|]); auto.
  - rewrite send_generic.
    destruct (compileTemplate proto parsedPayload data) as [compiled|e].
    2:{ eexists _, _. split; [reflexivity|]. left.
        now rewrite http_calls_failure_log, queries_failure_log. }
    cbv zeta.
    destruct (axios _ _) as [r|e]; [destruct (db _ _) as [rows|e]|];
      eexists _, _; (split; [norm_trace; reflexivity|]); right;
      calls; stmts; eexists; (split; [reflexivity|]);
      (split; [repeat split|]); auto.
Qed.

(** X7: on the generic path the request carries the headers of the
    webhook as parsed and the payload compiled against the event data,
    with the method of the webhook or [POST] and a timeout of ten
    seconds; it is the only request of the delivery.  The event data are
    those passed by the caller (an absent argument stands for [{}]). *)
Theorem generic_webhook_sends_compiled_payload
    (webhook : Webhook) (data : value) (t : Trace) (u : string)
    (parsedHeaders parsedPayload compiled : value) :
  data <> VUndef ->
  url webhook = VStr u ->
  includes u "discord.com/api/webhooks" = false ->
  parse_column JSON_parse (headers webhook) = Normal parsedHeaders ->
  parse_column JSON_parse (payload webhook) = Normal parsedPayload ->
  compileTemplate proto parsedPayload data = Normal compiled ->
  http_calls (new_events t (snd (exec webhook data t)))
  = [{| req_method := js_or (method webhook) (VStr "POST");
        req_url := VStr u;
        req_headers := parsedHeaders;
        req_data := compiled;
        req_timeout := 10000 |}].
Proof.
  intros _ Hu Hinc Hh Hp Hc.
  assert (Hurl : call_includes (url webhook) "discord.com/api/webhooks" = Normal false)
    by (rewrite Hu; cbn; now rewrite Hinc).
  assert (Hparse : parse_webhook JSON_parse webhook = Normal (parsedHeaders, parsedPayload))
    by (unfold parse_webhook; now rewrite Hh, Hp).
  rewrite (executeWebhook_parsed _ _ _ _ _ _ _ _ _ _ Hurl Hparse), send_generic, Hc.
  cbv zeta. unfold generic_request. rewrite Hu.
  destruct (axios _ _) as [r|e]; [destruct (db _ _) as [rows|e]|];
    cbn [snd]; norm_trace; rewrite new_events_app;
    calls; reflexivity.
Qed.

(** X8: when the payload of a generic webhook does not compile, the
    delivery is reported failed by the outer catch block and nothing is
    sent or written. *)
Theorem payload_not_compiled_nothing_sent
    (webhook : Webhook) (data : value) (t : Trace)
    (parsedHeaders parsedPayload : value) (e : JsError) :
  data <> VUndef ->
  call_includes (url webhook) "discord.com/api/webhooks" = Normal false ->
  parse_webhook JSON_parse webhook = Normal (parsedHeaders, parsedPayload) ->
  compileTemplate proto parsedPayload data = Throw e ->
  let r := exec webhook data t in
  fst r = Normal false /\
  new_events t (snd r) = failure_log webhook e /\
  http_calls (new_events t (snd r)) = [] /\
  queries (new_events t (snd r)) = [].
Proof.
  intros _ Hurl Hparse Hc.
  rewrite (executeWebhook_parsed _ _ _ _ _ _ _ _ _ _ Hurl Hparse), send_generic, Hc.
  cbn [fst snd]. rewrite new_events_app, http_calls_failure_log, queries_failure_log.
  auto.
Qed.

(** X9: a headers column holding a text that is not JSON ends the
    delivery in the inner catch block, on the chat path as on the generic
    one, although the chat path never uses the headers: one line is
    printed, nothing is sent and nothing is written. *)
Theorem malformed_headers_abort_both_paths
    (webhook : Webhook) (data : value) (t : Trace) (chat : bool)
    (text : string) (e : JsError) :
  call_includes (url webhook) "discord.com/api/webhooks" = Normal chat ->
  headers webhook = VStr text ->
  text <> EmptyString ->
  JSON_parse text = Throw e ->
  let r := exec webhook data t in
  fst r = Normal false /\
  new_events t (snd r) = [ConsoleError "[WEBHOOK] Error while parsing:" [ArgErr e]].
Proof.
  intros Hurl Hh Hne Hj.
  assert (Hparse : parse_webhook JSON_parse webhook = Throw e).
  { unfold parse_webhook, parse_column. rewrite Hh. cbn.
    unfold js_or. cbn. destruct text; [contradiction|]. cbn. now rewrite Hj. }
  rewrite (executeWebhook_malformed _ _ _ _ _ _ _ _ _ Hurl Hparse).
  cbn [fst snd]. now rewrite new_events_app.
Qed.

(** X10: columns left empty (absent, null, an empty text) stand for the
    empty object: the generic request then carries no header and an empty
    body. *)
Theorem empty_columns_default_to_empty_object
    (webhook : Webhook) (data : value) (t : Trace) (u : string) :
  url webhook = VStr u ->
  includes u "discord.com/api/webhooks" = false ->
  truthy (headers webhook) = false ->
  truthy (payload webhook) = false ->
  JSON_parse "{}" = Normal (VObj []) ->
  http_calls (new_events t (snd (exec webhook data t)))
  = [{| req_method := js_or (method webhook) (VStr "POST");
        req_url := VStr u;
        req_headers := VObj [];
        req_data := VObj [];
        req_timeout := 10000 |}].
Proof.
  intros Hu Hinc Hh Hp Hj.
  assert (Hurl : call_includes (url webhook) "discord.com/api/webhooks" = Normal false)
    by (rewrite Hu; cbn; now rewrite Hinc).
  assert (Hparse : parse_webhook JSON_parse webhook = Normal (VObj [], VObj []))
    by (unfold parse_webhook; now rewrite !parse_column_falsy).
  rewrite (executeWebhook_parsed _ _ _ _ _ _ _ _ _ _ Hurl Hparse), send_generic.
  cbn [compileTemplate typeof String.eqb Ascii.eqb Bool.eqb]. cbv zeta.
  unfold generic_request. rewrite Hu.
  destruct (axios _ _) as [r|e]; [destruct (db _ _) as [rows|e]|];
    cbn [snd]; norm_trace; rewrite new_events_app;
    calls; reflexivity.
Qed.

(** X11: whatever the webhook, the data, axios and the store, a delivery
    sends at most one request, built for this webhook, and sends the store
    at most one statement, the timestamp update of this webhook, and only
    after a request. *)
Theorem executeWebhook_effects_bounded (webhook : Webhook) (data : value) (t : Trace) :
  let evs := new_events t (snd (exec webhook data t)) in
  (List.length (http_calls evs) <= 1)%nat /\
  (forall req, In req (http_calls evs) -> own_request webhook req) /\
  (forall q, In q (queries evs) -> q = UpdateLastTriggered (id webhook)) /\
  (List.length (queries evs) <= List.length (http_calls evs))%nat.
Proof.
  destruct (executeWebhook_effects webhook data t) as [b [evs [Hrun H]]].
  rewrite Hrun. cbn [snd]. rewrite new_events_app. cbv zeta.
  destruct H as [[-> ->]|[req [-> [Hreq [->| ->]]]]]; cbn [List.length In].
  all: split; [lia|]; split; [|split; [|lia]].
  all: try (intros ? Hin; contradiction).
  all: try (intros ? [<-|[]]; assumption).
  all: intros ? [<-|[]]; reflexivity.
Qed.

(** X12: a delivery is reported failed exactly when it printed an error:
    no failure is silent, and no success comes with an error line. *)
Theorem executeWebhook_false_iff_error_printed
    (webhook : Webhook) (data : value) (t : Trace) :
  let r := exec webhook data t in
  fst r = Normal false <-> printed_error (new_events t (snd r)).
Proof.
  destruct (executeWebhook_shape proto JSON_parse axios db webhook data t)
    as [b [evs [Hrun Hd]]].
  rewrite Hrun. cbn [fst snd]. rewrite new_events_app. unfold printed_error.
  delivery_cases Hd; split.
  all: try (intros _; eexists _, _; cbn; eauto 10; fail).
  all: try (intros; reflexivity).
  all: try (intros; discriminate).
  all: intros [msg [args Hin]]; in_list Hin.
Qed.

(** X13: a url that is neither a text nor an array has no [includes]: the
    delivery fails before the columns are even parsed, and nothing is sent
    or written. *)
Theorem url_without_includes_fails_first
    (webhook : Webhook) (data : value) (t : Trace) :
  (forall s, url webhook <> VStr s) ->
  (forall l, url webhook <> VArr l) ->
  let r := exec webhook data t in
  fst r = Normal false /\
  (exists e, new_events t (snd r) = failure_log webhook e /\ response e = None) /\
  http_calls (new_events t (snd r)) = [] /\
  queries (new_events t (snd r)) = [].
Proof.
  intros Hs Ha.
  assert (H : exists msg, call_includes (url webhook) "discord.com/api/webhooks"
                          = Throw (TypeError msg)).
  { destruct (url webhook) as [| | | |s| |l|]; cbn; eauto.
    - now destruct (Hs s).
    - now destruct (Ha l). }
  destruct H as [msg H].
  rewrite (executeWebhook_no_url _ _ _ _ _ _ _ _ H). cbn [fst snd].
  rewrite new_events_app, http_calls_failure_log, queries_failure_log.
  repeat split. now exists (TypeError msg).
Qed.

End DeliveryMore.

Lemma generic_webhook_sends_compiled_payload_witness :
  http_calls (new_events []
    (snd (executeWebhook no_proto parse_examples axios_ok db_ok hook_generic event_data [])))
  = [{| req_method := js_or (method hook_generic) (VStr "POST");
        req_url := VStr "https://example.org/hook";
        req_headers := VObj [];
        req_data := VObj [("user", VStr "alice")];
        req_timeout := 10000 |}].
Proof.
  refine (generic_webhook_sends_compiled_payload no_proto parse_examples axios_ok db_ok
            hook_generic event_data [] "https://example.org/hook"
            (VObj []) (VObj [("user", VStr "{{userName}}")]) (VObj [("user", VStr "alice")])
            _ _ _ _ _ _); try reflexivity; discriminate.
Defined.

Lemma payload_not_compiled_nothing_sent_witness :
  let e := TypeError "Cannot convert undefined or null to object" in
  let r := executeWebhook no_proto parse_examples axios_ok db_ok
             hook_null_payload event_data [] in
  fst r = Normal false /\
  new_events [] (snd r) = failure_log hook_null_payload e /\
  http_calls (new_events [] (snd r)) = [] /\
  queries (new_events [] (snd r)) = [].
Proof.
  refine (payload_not_compiled_nothing_sent no_proto parse_examples axios_ok db_ok
            hook_null_payload event_data [] (VObj [])
            (VObj [("content", VStr "{{userName}}"); ("avatar", VNull)])
            (TypeError "Cannot convert undefined or null to object") _ _ _ _);
    try reflexivity; discriminate.
Defined.

Lemma malformed_headers_abort_both_paths_witness :
  let r := executeWebhook no_proto parse_examples axios_ok db_ok
             hook_chat_bad_headers event_data [] in
  fst r = Normal false /\
  new_events [] (snd r)
  = [ConsoleError "[WEBHOOK] Error while parsing:"
       [ArgErr (SyntaxError "Unexpected token")]].
Proof.
  refine (malformed_headers_abort_both_paths no_proto parse_examples axios_ok db_ok
            hook_chat_bad_headers event_data [] true "{oops"
            (SyntaxError "Unexpected token") _ _ _ _);
    try reflexivity; discriminate.
Defined.

Lemma empty_columns_default_to_empty_object_witness :
  http_calls (new_events []
    (snd (executeWebhook no_proto parse_examples axios_ok db_ok hook_bare event_data [])))
  = [{| req_method := js_or (method hook_bare) (VStr "POST");
        req_url := VStr "https://example.org/bare";
        req_headers := VObj [];
        req_data := VObj [];
        req_timeout := 10000 |}].
Proof.
  refine (empty_columns_default_to_empty_object no_proto parse_examples axios_ok db_ok
            hook_bare event_data [] "https://example.org/bare" _ _ _ _ _); reflexivity.
Defined.

Lemma url_without_includes_fails_first_witness :
  let r := executeWebhook no_proto parse_examples axios_ok db_ok
             hook_no_url event_data [] in
  fst r = Normal false /\
  (exists e, new_events [] (snd r) = failure_log hook_no_url e /\ response e = None) /\
  http_calls (new_events [] (snd r)) = [] /\
  queries (new_events [] (snd r)) = [].
Proof.
  refine (url_without_includes_fails_first no_proto parse_examples axios_ok db_ok
            hook_no_url event_data [] _ _); discriminate.
Defined.

(** * More on the dispatch *)

Section DispatchMore.

Variable proto : value -> string -> value.
Variable JSON_parse : string -> Completion value.
Variable axios : Trace -> Request -> Completion Response.
Variable db : Trace -> Query -> Completion (list Row).
Variable registry : Trace -> string -> Completion (list Webhook).
Variable now_iso : Trace -> string.

Local Abbreviation exec := (executeWebhook proto JSON_parse axios db).
Local Abbreviation trigger := (triggerEventWebhooks proto JSON_parse axios db registry now_iso).

(** What a fan-out can add to the trace, as far as the network and the
    store are concerned. *)
Lemma map_async_effects (data : value) (ws : list Webhook) (t : Trace) :
  exists ps evs,
    map_async (fun w => exec w data) ws t = (Normal ps, (t ++ evs)%list) /\
    (List.length (http_calls evs) <= List.length ws)%nat /\
    (forall req, In req (http_calls evs) -> exists w, In w ws /\ own_request w req) /\
    (forall q, In q (queries evs) -> exists w, In w ws /\ q = UpdateLastTriggered (id w)) /\
    (List.length (queries evs) <= List.length (http_calls evs))%nat.
Proof.
  revert t. induction ws as [|w ws IH]; intros t.
  - exists [], []. cbn. rewrite app_nil_r. repeat split; try lia; intros ? [].
  - destruct (executeWebhook_effects proto JSON_parse axios db w data t)
      as [b [evs [Hrun He]]].
    destruct (IH (t ++ evs)%list) as [ps [evs' [Hrest [H1 [H2 [H3 H4]]]]]].
    exists (Normal b :: ps), (evs ++ evs')%list.
    split; [cbn; unfold_M; rewrite Hrun, Hrest; now rewrite app_assoc|].
    rewrite http_calls_app, queries_app, !length_app. cbn [List.length].
    assert (Hw : (List.length (http_calls evs) <= 1)%nat /\
                 (forall req, In req (http_calls evs) -> own_request w req) /\
                 (forall q, In q (queries evs) -> q = UpdateLastTriggered (id w)) /\
                 (List.length (queries evs) <= List.length (http_calls evs))%nat).
    { destruct He as [[-> ->]|[req [-> [Hreq [->| ->]]]]]; cbn [List.length In].
      all: split; [lia|]; split; [|split; [|lia]].
      all: try (intros ? Hin; contradiction).
      all: try (intros ? [<-|[]]; assumption).
      all: intros ? [<-|[]]; reflexivity. }
    destruct Hw as [W1 [W2 [W3 W4]]].
    split; [lia|]. split; [|split; [|lia]].
    + intros req Hin. apply in_app_or in Hin as [Hin|Hin].
      * exists w. split; [now left | now apply W2].
      * destruct (H2 req Hin) as [w' [Hw' Hreq]]. exists w'. split; [now right | exact Hreq].
    + intros q Hin. apply in_app_or in Hin as [Hin|Hin].
      * exists w. split; [now left | now apply W3].
      * destruct (H3 q Hin) as [w' [Hw' Hq]]. exists w'. split; [now right | exact Hq].
Qed.

(** X14: the answer of the dispatch is decided by the read of the
    registry alone: [false] when it fails, nothing when it finds no
    webhook, [true] when it finds some, whatever becomes of the
    deliveries.  The dispatch never throws. *)
Theorem triggerEventWebhooks_answer (eventType : string) (data : value) (t : Trace) :
  fst (trigger eventType data t)
  = Normal match registry t eventType with
           | Throw _ => VBool false
           | Normal [] => VUndef
           | Normal (_ :: _) => VBool true
           end.
Proof.
  destruct (registry t eventType) as [[|w ws]|e] eqn:Hreg.
  - unfold triggerEventWebhooks, getWebhooksByEventType. unfold_M. now rewrite Hreg.
  - now rewrite (triggerEventWebhooks_fanout proto JSON_parse axios db registry now_iso
                   eventType data t (w :: ws) Hreg).
  - unfold triggerEventWebhooks, getWebhooksByEventType. unfold_M. now rewrite Hreg.
Qed.

(** X15: when the registry cannot be read, the dispatch prints the error
    and answers [false]; no delivery is attempted. *)
Theorem registry_failure_sends_nothing
    (eventType : string) (data : value) (t : Trace) (e : JsError) :
  registry t eventType = Throw e ->
  let r := trigger eventType data t in
  fst r = Normal (VBool false) /\
  new_events t (snd r)
  = [DbSelect eventType (Throw e);
     ConsoleError ("[WEBHOOK] Error triggering webhooks for event " +:+ eventType +:+ ":")
                  [ArgErr e]].
Proof.
  intros Hreg. unfold triggerEventWebhooks, getWebhooksByEventType. unfold_M.
  rewrite Hreg. cbn [fst snd]. norm_trace. now rewrite new_events_app.
Qed.

(** X16: a dispatch sends at most one request per webhook of the event,
    each of them built for one of these webhooks, and the only statements
    it sends to the store are timestamp updates of these webhooks, never
    more of them than requests. *)
Theorem dispatch_effects_bounded
    (eventType : string) (data : value) (t : Trace) (ws : list Webhook) :
  registry t eventType = Normal ws ->
  let evs := new_events t (snd (trigger eventType data t)) in
  (List.length (http_calls evs) <= List.length ws)%nat /\
  (forall req, In req (http_calls evs) -> exists w, In w ws /\ own_request w req) /\
  (forall q, In q (queries evs) -> exists w, In w ws /\ q = UpdateLastTriggered (id w)) /\
  (List.length (queries evs) <= List.length (http_calls evs))%nat.
Proof.
  intros Hreg. destruct ws as [|w ws].
  - unfold triggerEventWebhooks, getWebhooksByEventType. unfold_M. rewrite Hreg.
    cbn [List.length Nat.eqb snd]. norm_trace. rewrite new_events_app. cbn.
    repeat split; try lia; intros ? [].
  - rewrite (triggerEventWebhooks_fanout proto JSON_parse axios db registry now_iso
               eventType data t (w :: ws) Hreg) by discriminate.
    cbn [snd].
    destruct (map_async_effects
                (enrich (default_data data) eventType
                   (now_iso (dispatch_start eventType (w :: ws) t)))
                (w :: ws) (dispatch_start eventType (w :: ws) t))
      as [ps [evs [Hrun H]]].
    rewrite Hrun. cbn [snd]. unfold dispatch_start. norm_trace.
    rewrite new_events_app. exact H.
Qed.

End DispatchMore.

Lemma registry_failure_sends_nothing_witness :
  let e := DbError "connection refused" in
  let r := triggerEventWebhooks no_proto parse_examples axios_ok db_ok
             registry_down fixed_time "playback_started" event_data [] in
  fst r = Normal (VBool false) /\
  new_events [] (snd r)
  = [DbSelect "playback_started" (Throw e);
     ConsoleError ("[WEBHOOK] Error triggering webhooks for event "
                   +:+ "playback_started" +:+ ":") [ArgErr e]].
Proof.
  refine (registry_failure_sends_nothing no_proto parse_examples axios_ok db_ok
            registry_down fixed_time "playback_started" event_data []
            (DbError "connection refused") _).
  reflexivity.
Defined.

Lemma dispatch_effects_bounded_witness :
  let evs := new_events []
    (snd (triggerEventWebhooks no_proto parse_examples axios_ok db_ok
            (registry_with three_hooks) fixed_time "playback_started" event_data [])) in
  (List.length (http_calls evs) <= List.length three_hooks)%nat /\
  (forall req, In req (http_calls evs) -> exists w, In w three_hooks /\ own_request w req) /\
  (forall q, In q (queries evs) ->
     exists w, In w three_hooks /\ q = UpdateLastTriggered (id w)) /\
  (List.length (queries evs) <= List.length (http_calls evs))%nat.
Proof.
  refine (dispatch_effects_bounded no_proto parse_examples axios_ok db_ok
            (registry_with three_hooks) fixed_time "playback_started" event_data []
            three_hooks _).
  reflexivity.
Defined.

(** * More on the monthly digest *)

(** [new Date(y, m, 0)]: the last day of the month before. *)
Lemma make_day_zero (y m : Z) :
  0 <= m <= 11 -> make_day y m 0 = last_of_month_before (mkDay y m 1).
Proof.
  intros Hm. unfold last_of_month_before, prev_month. cbn [year month].
  destruct (Z.eqb_spec m 0) as [->|Hne].
  - unfold make_day. rewrite norm_month_in_range by lia.
    cbn [Z.abs_nat carry Z.ltb Z.compare]. change (0 - 1) with (-1).
    rewrite norm_month_before. reflexivity.
  - replace m with ((m - 1) + 1) at 1 by lia. apply make_day_last. lia.
Qed.

(** The day before the last day of a month. *)
Lemma make_day_before_last (y m : Z) :
  0 <= m <= 11 ->
  make_day y m (days_in_month y m - 1) = mkDay y m (days_in_month y m - 1).
Proof.
  intros Hm. unfold make_day. rewrite norm_month_in_range by exact Hm.
  apply carry_in_range. pose proof (days_in_month_bounds y m). lia.
Qed.

Lemma norm_month_prev (today : Date) :
  0 <= month today <= 11 -> norm_month (year today) (month today - 1) = prev_month today.
Proof.
  intros Hm. unfold prev_month. destruct (Z.eqb_spec (month today) 0) as [E|E].
  - rewrite E. reflexivity.
  - apply norm_month_in_range. lia.
Qed.

Lemma norm_month_next_of_prev (today : Date) :
  0 <= month today <= 11 ->
  norm_month (fst (prev_month today)) (snd (prev_month today) + 1)
  = (year today, month today).
Proof.
  intros Hm. unfold prev_month. destruct (Z.eqb_spec (month today) 0) as [E|E]; cbn [fst snd].
  - rewrite E. change (11 + 1) with 12. rewrite norm_month_after. f_equal. lia.
  - rewrite norm_month_in_range by lia. f_equal. lia.
Qed.

(** [setMonth] to the previous month on a day that month does not have:
    the days in excess carry into the current month. *)
Lemma setMonth_carries (today : Date) :
  0 <= month today <= 11 ->
  days_in_month (fst (prev_month today)) (snd (prev_month today)) < day today
    <= days_in_month (year today) (month today) ->
  setMonth today (month today - 1)
  = mkDay (year today) (month today)
      (day today - days_in_month (fst (prev_month today)) (snd (prev_month today))).
Proof.
  intros Hm Hd. unfold setMonth, make_day. rewrite (norm_month_prev today Hm).
  destruct (prev_month today) as [py pm] eqn:Hp. cbn [fst snd] in *.
  pose proof (days_in_month_bounds py pm) as Hb.
  pose proof (norm_month_next_of_prev today Hm) as Hn. rewrite Hp in Hn. cbn [fst snd] in Hn.
  destruct (Z.abs_nat (day today)) as [|k] eqn:Hk; [lia|].
  cbn [carry].
  destruct (Z.ltb_spec (day today) 1); [lia|].
  destruct (Z.ltb_spec (days_in_month py pm) (day today)); [|lia].
  rewrite Hn. apply carry_in_range. lia.
Qed.

Section DigestMore.

Variable db : Trace -> Query -> Completion (list Row).
Variable clock : Trace -> Clock.
Variable ahead_of_utc : Date -> bool.
Variable month_label : Date -> string.

Local Abbreviation top := (getTopWatchedContent db clock ahead_of_utc).
Local Abbreviation digest := (getMonthlySummaryData db clock ahead_of_utc month_label).
Local Abbreviation iso := (iso_day ahead_of_utc).

(** One call of [getTopWatchedContent]: one statement, whose failure is
    printed and answered with no rows. *)
Lemma getTopWatchedContent_run (contentType period : string) (limit : Z) (t : Trace) :
  exists q,
    top contentType period limit t
    = (Normal (rows_or_empty (db t q)),
       (t ++ DbQuery q (db t q) :: sql_error_log contentType (db t q))%list).
Proof.
  unfold getTopWatchedContent, new_Date_now. unfold_M.
  match goal with |- context [db t ?q] => exists q; destruct (db t q) as [rows|e] end.
  - reflexivity.
  - cbn [rows_or_empty sql_error_log]. norm_trace. reflexivity.
Qed.

Lemma getTopWatchedContent_month_run (contentType : string) (limit : Z) (t : Trace) :
  let today := local (clock t) in
  let since := iso (new_Date (year today) (month today - 1) 1) in
  let q := if (contentType =? "movie")%string then TopMovies since limit
           else if (contentType =? "series")%string then TopSeries since limit
           else NoQuery in
  top contentType "month" limit t
  = (Normal (rows_or_empty (db t q)),
     (t ++ DbQuery q (db t q) :: sql_error_log contentType (db t q))%list).
Proof.
  cbv zeta. unfold getTopWatchedContent, new_Date_now. unfold_M.
  cbn [String.eqb Ascii.eqb Bool.eqb]. cbn beta iota.
  match goal with |- context [db t ?q] => destruct (db t q) as [rows|e] end.
  - reflexivity.
  - cbn [rows_or_empty sql_error_log]. norm_trace. reflexivity.
Qed.

(** A run of the digest builder, statement by statement. *)
Lemma getMonthlySummaryData_run (t : Trace) :
  let d1 := local (clock t) in
  let q1 := TopMovies (iso (new_Date (year d1) (month d1 - 1) 1)) 5 in
  let t1 := (t ++ DbQuery q1 (db t q1) :: sql_error_log "movie" (db t q1))%list in
  let d2 := local (clock t1) in
  let q2 := TopSeries (iso (new_Date (year d2) (month d2 - 1) 1)) 5 in
  let t2 := (t1 ++ DbQuery q2 (db t1 q2) :: sql_error_log "series" (db t1 q2))%list in
  let now := local (clock t2) in
  let prevMonth := setMonth now (month now - 1) in
  let from := iso (new_Date (year prevMonth) (month prevMonth) 1) in
  let to := iso (new_Date (year prevMonth) (month prevMonth + 1) 0) in
  let q3 := GeneralStats from to in
  digest t
  = match db t2 q3 with
    | Normal rows =>
        (Normal {| period_start := from;
                   period_end := to;
                   period_name := month_label prevMonth;
                   topMovies := rows_or_empty (db t q1);
                   topSeries := rows_or_empty (db t1 q2);
                   stats := match rows with
                            | r :: _ => r
                            | [] => [("active_users", VNum 0); ("total_plays", VNum 0);
                                     ("total_hours", VNum 0)]
                            end |},
         (t2 ++ [DbQuery q3 (Normal rows)])%list)
    | Throw e =>
        (Throw e,
         (t2 ++ [DbQuery q3 (Throw e);
                 ConsoleError "[WEBHOOK] Error while getting data:" [ArgStr (message e)]])%list)
    end.
Proof.
  cbv zeta. unfold getMonthlySummaryData. unfold_M.
  rewrite (getTopWatchedContent_month_run "movie" 5 t). cbv zeta.
  cbn [String.eqb Ascii.eqb Bool.eqb]. cbn beta iota.
  rewrite (getTopWatchedContent_month_run "series" 5). cbv zeta.
  cbn [String.eqb Ascii.eqb Bool.eqb]. cbn beta iota.
  unfold new_Date_now.
  match goal with |- context [db ?s (GeneralStats ?a ?b)] =>
    destruct (db s (GeneralStats a b)) as [rows|e] end.
  - reflexivity.
  - norm_trace. reflexivity.
Qed.

(** The statements of a digest, for a clock that does not move. *)
Lemma getMonthlySummaryData_queries (t : Trace) (today : Date) :
  (forall s, local (clock s) = today) ->
  let prevMonth := setMonth today (month today - 1) in
  let since := iso (new_Date (year today) (month today - 1) 1) in
  queries (new_events t (snd (digest t)))
  = [TopMovies since 5; TopSeries since 5;
     GeneralStats (iso (new_Date (year prevMonth) (month prevMonth) 1))
                  (iso (new_Date (year prevMonth) (month prevMonth + 1) 0))].
Proof.
  intros Hclock. cbv zeta. rewrite getMonthlySummaryData_run. cbv zeta.
  rewrite !Hclock.
  match goal with |- context [db ?s (GeneralStats ?a ?b)] =>
    destruct (db s (GeneralStats a b)) as [rows|e] end;
    cbn [snd]; norm_trace; rewrite new_events_app;
    repeat (rewrite queries_cons || rewrite queries_app);
    do 2 match goal with |- context [sql_error_log ?c ?o] =>
           destruct o; cbn [sql_error_log] end;
    reflexivity.
Qed.

(** X17: [getTopWatchedContent] never rejects: it sends one statement,
    and when the store fails it prints the error and answers with no
    rows; it sends no request. *)
Theorem getTopWatchedContent_absorbs_store_errors
    (contentType period : string) (limit : Z) (t : Trace) :
  let r := top contentType period limit t in
  exists q,
    fst r = Normal (rows_or_empty (db t q)) /\
    new_events t (snd r) = DbQuery q (db t q) :: sql_error_log contentType (db t q) /\
    queries (new_events t (snd r)) = [q] /\
    http_calls (new_events t (snd r)) = [].
Proof.
  destruct (getTopWatchedContent_run contentType period limit t) as [q Hrun].
  exists q. rewrite Hrun. cbn [fst snd]. rewrite new_events_app.
  repeat split; destruct (db t q); reflexivity.
Qed.

(** A period that is neither [month] nor [week] is read as [month]. *)
Lemma getTopWatchedContent_unknown_period
    (contentType period : string) (limit : Z) (t : Trace) :
  period <> "week" ->
  top contentType period limit t = top contentType "month" limit t.
Proof.
  intros Hne. unfold getTopWatchedContent.
  destruct (String.eqb_spec period "month") as [->|_]; [reflexivity|].
  destruct (String.eqb_spec period "week") as [E|_]; [contradiction|].
  reflexivity.
Qed.

(** X18: the digest is rejected exactly when the statistics statement
    fails, with the error of that statement; a failure of one of the two
    top-5 statements is absorbed, and the digest then holds an empty list. *)
Theorem digest_rejected_iff_statistics_fail (t : Trace) :
  let r := digest t in
  let evs := new_events t (snd r) in
  (forall e, fst r = Throw e <->
             exists from to, In (DbQuery (GeneralStats from to) (Throw e)) evs) /\
  (forall d, fst r = Normal d ->
     (forall since limit e,
        In (DbQuery (TopMovies since limit) (Throw e)) evs -> topMovies d = []) /\
     (forall since limit e,
        In (DbQuery (TopSeries since limit) (Throw e)) evs -> topSeries d = [])).
Proof.
  cbv zeta. rewrite getMonthlySummaryData_run. cbv zeta.
  set (q1 := TopMovies _ 5).
  set (t1 := (t ++ DbQuery q1 (db t q1) :: _)%list).
  set (q2 := TopSeries _ 5).
  set (t2 := (t1 ++ DbQuery q2 (db t1 q2) :: _)%list).
  set (q3 := GeneralStats _ _).
  assert (Ht2 : exists evs12,
             t2 = (t ++ evs12)%list /\
             (forall from to e, ~ In (DbQuery (GeneralStats from to) (Throw e)) evs12) /\
             (forall since limit e, In (DbQuery (TopMovies since limit) (Throw e)) evs12 ->
                rows_or_empty (db t q1) = []) /\
             (forall since limit e, In (DbQuery (TopSeries since limit) (Throw e)) evs12 ->
                rows_or_empty (db t1 q2) = [])).
  { exists (DbQuery q1 (db t q1) :: sql_error_log "movie" (db t q1)
            ++ DbQuery q2 (db t1 q2) :: sql_error_log "series" (db t1 q2))%list.
    split; [subst t2 t1; norm_trace; reflexivity|].
    subst q1 q2. destruct (db t _) as [r1|e1]; destruct (db t1 _) as [r2|e2];
      cbn [sql_error_log app rows_or_empty]; repeat split; unfold not; intros;
      try reflexivity;
      match goal with
      | H : In _ _ |- _ =>
          cbn in H; repeat (destruct H as [H|H]; [try discriminate H|]);
          try contradiction
      end. }
  destruct Ht2 as [evs12 [-> [Hno [Hm Hs]]]].
  destruct (db _ q3) as [rows|e3]; cbn [fst snd]; norm_trace; rewrite new_events_app.
  - split.
    + intros e. split; [discriminate|].
      intros [from [to Hin]]. apply in_app_or in Hin as [Hin|Hin].
      * now destruct (Hno _ _ _ Hin).
      * in_list Hin.
    + intros d Hd. injection Hd as <-. cbn [topMovies topSeries]. split.
      * intros since limit e Hin. apply in_app_or in Hin as [Hin|Hin].
        -- exact (Hm _ _ _ Hin).
        -- in_list Hin.
      * intros since limit e Hin. apply in_app_or in Hin as [Hin|Hin].
        -- exact (Hs _ _ _ Hin).
        -- in_list Hin.
  - split; [|discriminate].
    intros e. split.
    + intros He. injection He as <-. exists (match q3 with GeneralStats a _ => a | _ => mkDay 0 0 0 end),
        (match q3 with GeneralStats _ b => b | _ => mkDay 0 0 0 end).
      apply in_or_app. right. left. reflexivity.
    + intros [from [to Hin]]. apply in_app_or in Hin as [Hin|Hin].
      * now destruct (Hno _ _ _ Hin).
      * cbn in Hin. destruct Hin as [Hin|[Hin|[]]]; [|discriminate Hin].
        subst q3. now injection Hin as _ _ <-.
Qed.

(** X19: on a day of the month that the previous month does not have
    (the 31st of March, the 31st of May, ...) [setMonth] overflows back
    into the current month: the statistics of the digest are then those of
    the current month, from its first to its last day, while the two top-5
    statements still start on the first day of the previous month. *)
Theorem digest_window_at_month_end (t : Trace) (today : Date) :
  (forall s, local (clock s) = today) ->
  1970 <= year today ->
  0 <= month today <= 11 ->
  days_in_month (fst (prev_month today)) (snd (prev_month today)) < day today
    <= days_in_month (year today) (month today) ->
  let since := iso (first_of_prev today) in
  let first := mkDay (year today) (month today) 1 in
  let last := mkDay (year today) (month today)
                (days_in_month (year today) (month today)) in
  queries (new_events t (snd (digest t)))
  = [TopMovies since 5; TopSeries since 5; GeneralStats (iso first) (iso last)].
Proof.
  intros Hclock Hy Hm Hd. cbv zeta.
  rewrite (getMonthlySummaryData_queries t today Hclock). cbv zeta.
  rewrite (setMonth_carries today Hm Hd). cbn [year month].
  rewrite new_Date_first_of_prev by assumption.
  rewrite !new_Date_plain by lia.
  rewrite make_day_in_range by lia.
  rewrite make_day_last by lia. reflexivity.
Qed.

(** X20: in a zone ahead of UTC the days passed to the statements are one
    day early: the three statements start on the last day of the month
    before the previous month, and the statistics stop on the day before
    the last day of the previous month. *)
Theorem digest_window_ahead_of_utc (t : Trace) (today : Date) :
  (forall s, local (clock s) = today) ->
  (forall d, ahead_of_utc d = true) ->
  1970 <= year today ->
  0 <= month today <= 11 ->
  1 <= day today <= 28 ->
  let since := last_of_month_before (first_of_prev today) in
  let until := mkDay (fst (prev_month today)) (snd (prev_month today))
                 (days_in_month (fst (prev_month today)) (snd (prev_month today)) - 1) in
  queries (new_events t (snd (digest t)))
  = [TopMovies since 5; TopSeries since 5; GeneralStats since until].
Proof.
  intros Hclock Hz Hy Hm Hd. cbv zeta.
  rewrite (getMonthlySummaryData_queries t today Hclock). cbv zeta.
  rewrite (setMonth_prev today Hm Hd). cbn [year month].
  pose proof (prev_month_range today Hm) as Hpm.
  pose proof (prev_month_year today) as Hpy.
  rewrite new_Date_first_of_prev by assumption.
  rewrite !new_Date_plain by lia.
  rewrite make_day_in_range by lia.
  rewrite make_day_last by lia.
  unfold iso_day. rewrite !Hz.
  unfold first_of_prev. destruct (prev_month today) as [py pm]. cbn [fst snd year month day] in *.
  change (1 - 1) with 0.
  rewrite make_day_zero by lia. rewrite make_day_before_last by lia. reflexivity.
Qed.

(** X21: the period a digest reports is the window of its statistics
    statement, the last thing the builder does, and both this window and
    the name of the period come from one reading of the clock, the one
    taken just before that statement: the name is the label of the date
    [setMonth] lands on, the window the first and the last day of the
    month of that date, as ISO dates. *)
Theorem digest_period_is_statistics_window (t : Trace) (d : Digest) :
  fst (digest t) = Normal d ->
  exists (before : list Event) (rows : list Row),
    new_events t (snd (digest t))
    = before ++ [DbQuery (GeneralStats (period_start d) (period_end d)) (Normal rows)] /\
    let now := local (clock (t ++ before)) in
    let prevMonth := setMonth now (month now - 1) in
    period_name d = month_label prevMonth /\
    period_start d = iso (new_Date (year prevMonth) (month prevMonth) 1) /\
    period_end d = iso (new_Date (year prevMonth) (month prevMonth + 1) 0).
Proof.
  rewrite getMonthlySummaryData_run. cbv zeta.
  set (q1 := TopMovies _ 5).
  set (t1 := t ++ DbQuery q1 (db t q1) :: _).
  set (q2 := TopSeries _ 5).
  set (before := DbQuery q1 (db t q1) :: sql_error_log "movie" (db t q1)
                 ++ DbQuery q2 (db t1 q2) :: sql_error_log "series" (db t1 q2)).
  assert (E : t1 ++ DbQuery q2 (db t1 q2) :: sql_error_log "series" (db t1 q2)
              = t ++ before).
  { subst t1 before. now rewrite <- app_assoc. }
  rewrite E.
  destruct (db (t ++ before) _) as [rows|e]; [|discriminate].
  cbn [fst snd]. intros Hd. injection Hd as <-.
  cbn [period_start period_end period_name].
  exists before, rows. split; [|repeat split].
  rewrite <- app_assoc. now rewrite new_events_app.
Qed.

End DigestMore.

Lemma digest_window_at_month_end_witness :
  let today := mkDay 2025 2 31 in
  queries (new_events []
    (snd (getMonthlySummaryData db_ok (clock_on today 1) zone_utc figures_label [])))
  = [TopMovies (iso_day zone_utc (first_of_prev today)) 5;
     TopSeries (iso_day zone_utc (first_of_prev today)) 5;
     GeneralStats
       (iso_day zone_utc (mkDay (year today) (month today) 1))
       (iso_day zone_utc (mkDay (year today) (month today)
                            (days_in_month (year today) (month today))))].
Proof.
  refine (digest_window_at_month_end db_ok (clock_on (mkDay 2025 2 31) 1) zone_utc
            figures_label [] (mkDay 2025 2 31) _ _ _ _).
  - reflexivity.
  - cbn. lia.
  - cbn. lia.
  - vm_compute. split; [reflexivity | discriminate].
Defined.

Lemma digest_window_ahead_of_utc_witness :
  let today := mkDay 2025 2 15 in
  queries (new_events []
    (snd (getMonthlySummaryData db_ok (clock_on today 6) zone_ahead figures_label [])))
  = [TopMovies (last_of_month_before (first_of_prev today)) 5;
     TopSeries (last_of_month_before (first_of_prev today)) 5;
     GeneralStats (last_of_month_before (first_of_prev today))
       (mkDay (fst (prev_month today)) (snd (prev_month today))
          (days_in_month (fst (prev_month today)) (snd (prev_month today)) - 1))].
Proof.
  refine (digest_window_ahead_of_utc db_ok (clock_on (mkDay 2025 2 15) 6) zone_ahead
            figures_label [] (mkDay 2025 2 15) _ _ _ _ _).
  - reflexivity.
  - reflexivity.
  - cbn. lia.
  - cbn. lia.
  - cbn. lia.
Defined.

Lemma digest_period_is_statistics_window_witness :
  let clock := clock_on (mkDay 2025 2 15) 6 in
  let run := getMonthlySummaryData db_ok clock zone_utc figures_label [] in
  let d := {| period_start := mkDay 2025 1 1; period_end := mkDay 2025 1 28;
              period_name := "2/2025"; topMovies := []; topSeries := [];
              stats := [("active_users", VNum 0); ("total_plays", VNum 0);
                        ("total_hours", VNum 0)] |} in
  exists (before : list Event) (rows : list Row),
    new_events [] (snd run)
    = before ++ [DbQuery (GeneralStats (period_start d) (period_end d)) (Normal rows)] /\
    let now := local (clock ([] ++ before)) in
    let prevMonth := setMonth now (month now - 1) in
    period_name d = figures_label prevMonth /\
    period_start d = iso_day zone_utc (new_Date (year prevMonth) (month prevMonth) 1) /\
    period_end d = iso_day zone_utc (new_Date (year prevMonth) (month prevMonth + 1) 0).
Proof.
  refine (digest_period_is_statistics_window db_ok (clock_on (mkDay 2025 2 15) 6) zone_utc
            figures_label []
            {| period_start := mkDay 2025 1 1; period_end := mkDay 2025 1 28;
               period_name := "2/2025"; topMovies := []; topSeries := [];
               stats := [("active_users", VNum 0); ("total_plays", VNum 0);
                         ("total_hours", VNum 0)] |} _).
  reflexivity.
Defined.

(** A store that cannot compute the statistics makes the digest fail; one
    that cannot compute the top lists leaves them empty. *)
Example digest_rejected_without_statistics :
  fst (getMonthlySummaryData db_no_stats (clock_on (mkDay 2025 2 15) 6) zone_utc
         figures_label [])
  = Throw (DbError "statement timeout").
Proof. reflexivity. Qed.

Example digest_without_top_lists :
  exists d,
    fst (getMonthlySummaryData db_no_tops (clock_on (mkDay 2025 2 15) 6) zone_utc
           figures_label []) = Normal d /\
    topMovies d = [] /\ topSeries d = [].
Proof. eexists. repeat split. Qed.

(** * The Discord helper *)

Lemma executeDiscordWebhook_run (axios : Trace -> Request -> Completion Response)
    (webhook : Webhook) (data : value) (t : Trace) :
  let t0 := (t ++ [ConsoleLog ("Execution of discord webhook: "
                               +:+ label (name webhook))])%list in
  let req := post_request (url webhook) data in
  executeDiscordWebhook axios webhook data t
  = match axios t0 req with
    | Normal r =>
        (Normal ((200 <=? status r) && (status r <? 300)),
         (t0 ++ [AxiosCall req (Normal r);
                 ConsoleLog ("[WEBHOOK] Discord response: " +:+ integer_text (status r))])%list)
    | Throw e =>
        (Normal false,
         (t0 ++ AxiosCall req (Throw e)
             :: ConsoleError ("[WEBHOOK] Error with Discord webhook "
                              +:+ label (name webhook) +:+ ":") [ArgStr (message e)]
             :: match response e with
                | Some r =>
                    [ConsoleError "[WEBHOOK] Response status:" [ArgVal (VNum (status r))];
                     ConsoleError "[WEBHOOK] Response data:" [ArgVal (resp_data r)]]
                | None => []
                end)%list)
    end.
Proof.
  cbv zeta. unfold executeDiscordWebhook. unfold_M.
  destruct (axios _ _) as [r|e].
  - norm_trace. reflexivity.
  - destruct (response e); norm_trace; reflexivity.
Qed.

(** X22: [executeDiscordWebhook] never throws and sends exactly one
    request, a [post] of the data as they are to the url of the webhook;
    it answers [true] exactly when the call resolved with a status from
    200 to 299, and it sends nothing to the store: the time of the last
    trigger is not recorded. *)
Theorem executeDiscordWebhook_true_iff_2xx
    (axios : Trace -> Request -> Completion Response)
    (webhook : Webhook) (data : value) (t : Trace) :
  let r := executeDiscordWebhook axios webhook data t in
  let evs := new_events t (snd r) in
  let req := post_request (url webhook) data in
  (exists b, fst r = Normal b) /\
  http_calls evs = [req] /\
  queries evs = [] /\
  (fst r = Normal true <->
   exists resp, In (AxiosCall req (Normal resp)) evs /\ 200 <= status resp < 300).
Proof.
  cbv zeta. rewrite executeDiscordWebhook_run. cbv zeta.
  destruct (axios _ _) as [r|e]; cbn [fst snd]; norm_trace; rewrite new_events_app.
  - split; [eauto|]. split; [reflexivity|]. split; [reflexivity|]. split.
    + intros H. injection H as H. apply andb_prop in H as [H1 H2].
      exists r. split; [cbn; auto|]. lia.
    + intros [resp [Hin Hs]]. in_list Hin. injection Hin as <-.
      f_equal. apply andb_true_intro. split; lia.
  - split; [eauto|]. split; [now destruct (response e)|].
    split; [now destruct (response e)|]. split; [discriminate|].
    intros [resp [Hin _]]. destruct (response e); in_list Hin.
Qed.

(** * The event emitter *)

Section EmitterFacts.

Variable proto : value -> string -> value.
Variable JSON_parse : string -> Completion value.
Variable axios : Trace -> Request -> Completion Response.
Variable db : Trace -> Query -> Completion (list Row).
Variable registry : Trace -> string -> Completion (list Webhook).
Variable now_iso : Trace -> string.
Variable unhandled : value -> JsError.

Local Abbreviation trigger := (triggerEventWebhooks proto JSON_parse axios db registry now_iso).
Local Abbreviation construct := (constructor proto JSON_parse axios db registry now_iso).
Local Abbreviation after := (constructed proto JSON_parse axios db registry now_iso).

(** Every listener dispatches under the name it is registered for. *)
Lemma setupEventListeners_names :
  setupEventListeners proto JSON_parse axios db registry now_iso []
  = List.map (listener_for proto JSON_parse axios db registry now_iso) known_events.
Proof. reflexivity. Qed.

Lemma constructed_kept (n : nat) (this : Manager) : after n (Some this) = Some this.
Proof. induction n as [|n IH]; [reflexivity | exact IH]. Qed.

(** The manager is built once: every construction yields the first one. *)
Lemma constructor_singleton (n : nat) :
  fst (construct (after n None))
  = {| eventEmitter := setupEventListeners proto JSON_parse axios db registry now_iso [] |}.
Proof.
  destruct n as [|n]; [reflexivity|].
  cbn [constructed constructor snd]. now rewrite constructed_kept.
Qed.

Lemma dispatch_settles (eventType : string) (data : value) (t : Trace) :
  exists v, trigger eventType data t = (Normal v, snd (trigger eventType data t)).
Proof.
  destruct (registry t eventType) as [[|w ws]|e] eqn:Hreg.
  - exists VUndef. unfold triggerEventWebhooks, getWebhooksByEventType. unfold_M.
    now rewrite Hreg.
  - exists (VBool true).
    now rewrite (triggerEventWebhooks_fanout proto JSON_parse axios db registry now_iso
                   eventType data t (w :: ws) Hreg).
  - exists (VBool false). unfold triggerEventWebhooks, getWebhooksByEventType. unfold_M.
    now rewrite Hreg.
Qed.

(** X23: however many times the manager has been constructed, emitting
    one of the three events it listens to runs exactly one dispatch, for
    that event and with the data emitted, and returns normally. *)
Theorem emitEvent_dispatches_once
    (n : nat) (eventType : string) (data : value) (t : Trace) :
  In eventType known_events ->
  let this := fst (construct (after n None)) in
  emitEvent unhandled this eventType data t
  = (Normal tt, snd (trigger eventType data t)).
Proof.
  intros Hin. cbv zeta. rewrite constructor_singleton.
  unfold emitEvent, EventEmitter_emit, setupEventListeners. cbn [eventEmitter app].
  destruct (dispatch_settles eventType data t) as [v Hv].
  cbn in Hin. destruct Hin as [<-|[<-|[<-|[]]]];
    cbn [List.filter fst String.eqb Ascii.eqb Bool.eqb]; cbn beta iota;
    cbn [call_listeners]; unfold_M; rewrite Hv; reflexivity.
Qed.

(** X24: an event the manager does not listen to is dropped: nothing is
    read, sent or printed, and [emitEvent] returns normally, unless the
    event is [error], which the emitter throws back. *)
Theorem emitEvent_unknown_event_dropped
    (n : nat) (eventType : string) (data : value) (t : Trace) :
  ~ In eventType known_events ->
  let this := fst (construct (after n None)) in
  emitEvent unhandled this eventType data t
  = (if (eventType =? "error")%string then Throw (unhandled data) else Normal tt, t).
Proof.
  intros Hin. cbv zeta. rewrite constructor_singleton.
  unfold emitEvent, EventEmitter_emit, setupEventListeners. cbn [eventEmitter app].
  cbn [List.filter fst].
  assert (H1 : ("playback_started" =? eventType)%string = false)
    by (apply String.eqb_neq; intros <-; apply Hin; cbn; auto).
  assert (H2 : ("playback_ended" =? eventType)%string = false)
    by (apply String.eqb_neq; intros <-; apply Hin; cbn; auto).
  assert (H3 : ("media_recently_added" =? eventType)%string = false)
    by (apply String.eqb_neq; intros <-; apply Hin; cbn; auto).
  rewrite H1, H2, H3. unfold_M. now destruct (eventType =? "error")%string.
Qed.

End EmitterFacts.

Lemma emitEvent_dispatches_once_witness :
  emitEvent (fun _ => TypeError "Unhandled error.")
    (fst (constructor no_proto parse_examples axios_ok db_ok (registry_with two_hooks)
            fixed_time
            (constructed no_proto parse_examples axios_ok db_ok (registry_with two_hooks)
               fixed_time 2 None)))
    "playback_ended" event_data []
  = (Normal tt,
     snd (triggerEventWebhooks no_proto parse_examples axios_ok db_ok
            (registry_with two_hooks) fixed_time "playback_ended" event_data [])).
Proof.
  refine (emitEvent_dispatches_once no_proto parse_examples axios_ok db_ok
            (registry_with two_hooks) fixed_time (fun _ => TypeError "Unhandled error.")
            2 "playback_ended" event_data [] _).
  cbn. auto.
Defined.

Lemma emitEvent_unknown_event_dropped_witness :
  emitEvent (fun _ => TypeError "Unhandled error.")
    (fst (constructor no_proto parse_examples axios_ok db_ok (registry_with two_hooks)
            fixed_time
            (constructed no_proto parse_examples axios_ok db_ok (registry_with two_hooks)
               fixed_time 1 None)))
    "playback_paused" event_data []
  = (if ("playback_paused" =? "error")%string
     then Throw (TypeError "Unhandled error.") else Normal tt, []).
Proof.
  refine (emitEvent_unknown_event_dropped no_proto parse_examples axios_ok db_ok
            (registry_with two_hooks) fixed_time (fun _ => TypeError "Unhandled error.")
            1 "playback_paused" event_data [] _).
  cbn. intros [H|[H|[H|[]]]]; discriminate H.
Defined.

(** * The monthly report *)

Lemma http_calls_In (req : Request) (out : Completion Response) (evs : list Event) :
  In (AxiosCall req out) evs -> In req (http_calls evs).
Proof.
  induction evs as [|ev evs IH]; [intros []|]. intros [->|Hin].
  - now left.
  - rewrite http_calls_cons. destruct ev; try (now apply IH). right. now apply IH.
Qed.

Lemma touched_In (id : value) (out : Completion (list Row)) (evs : list Event) :
  In (DbQuery (UpdateLastTriggered id) out) evs -> In id (touched evs).
Proof.
  induction evs as [|ev evs IH]; [intros []|]. intros [->|Hin].
  - now left.
  - destruct ev as [| | | |q o]; cbn; try (now apply IH).
    destruct q; cbn; try (now apply IH). right. now apply IH.
Qed.




Section ReportFacts.

Variable db : Trace -> Query -> Completion (list Row).
Variable clock : Trace -> Clock.
Variable ahead_of_utc : Date -> bool.
Variable month_label : Date -> string.
Variable axios : Trace -> Request -> Completion Response.
Variable find_webhook : Trace -> value -> Completion (list Webhook).
Variable round_text : value -> Completion string.
Variable en_US_date : Date -> string.

Local Abbreviation digest := (getMonthlySummaryData db clock ahead_of_utc month_label).
Local Abbreviation report :=
  (triggerMonthlySummaryWebhook db clock ahead_of_utc month_label axios find_webhook
     round_text en_US_date).
Local Abbreviation render := (monthlyPayload round_text en_US_date).

(** The digest builder only adds statements of its own to the trace. *)
Lemma getMonthlySummaryData_adds (t : Trace) :
  exists devs,
    snd (digest t) = (t ++ devs)%list /\ http_calls devs = [] /\ touched devs = [].
Proof.
  rewrite getMonthlySummaryData_run. cbv zeta.
  match goal with |- context [db ?s (GeneralStats ?a ?b)] =>
    destruct (db s (GeneralStats a b)) as [rows|e] end;
    cbn [snd]; norm_trace; eexists; (split; [reflexivity|]);
    do 2 match goal with |- context [sql_error_log ?c ?o] =>
           destruct o; cbn [sql_error_log app] end;
    split; reflexivity.
Qed.

(** The run after the row of the webhook was found. *)
Lemma triggerMonthlySummaryWebhook_run
    (webhookId : value) (t : Trace) (webhook : Webhook) (rest : list Webhook) :
  find_webhook t webhookId = Normal (webhook :: rest) ->
  report webhookId t
  = match digest t with
    | (Throw e, t1) => (Normal false, (t1 ++ [prepare_log e])%list)
    | (Normal data, t1) =>
        match render data with
        | Throw e => (Normal false, (t1 ++ [prepare_log e])%list)
        | Normal body =>
            let req := chat_request webhook body in
            match axios t1 req with
            | Throw e => (Normal false, (t1 ++ [AxiosCall req (Throw e); prepare_log e])%list)
            | Normal r =>
                let t2 := (t1 ++ [AxiosCall req (Normal r);
                                  ConsoleLog ("[WEBHOOK] Monthly report webhook "
                                              +:+ label (name webhook)
                                              +:+ " sent successfully")])%list in
                let q := UpdateLastTriggered (id webhook) in
                match db t2 q with
                | Normal rows => (Normal true, (t2 ++ [DbQuery q (Normal rows)])%list)
                | Throw e => (Normal false, (t2 ++ [DbQuery q (Throw e); prepare_log e])%list)
                end
            end
        end
    end.
Proof.
  intros Hfind. unfold triggerMonthlySummaryWebhook. unfold_M. rewrite Hfind.
  destruct (digest t) as [[data|e] t1]; [|reflexivity].
  destruct (render data) as [body|e]; [|reflexivity].
  cbv zeta. unfold chat_request.
  destruct (axios t1 _) as [r|e]; [|norm_trace; reflexivity].
  norm_trace. destruct (db _ _) as [rows|e]; norm_trace; reflexivity.
Qed.

(** Without a row for the id, one error line is all that happens. *)
Lemma triggerMonthlySummaryWebhook_no_row (webhookId : value) (t : Trace) :
  find_webhook t webhookId = Normal [] \/ (exists e, find_webhook t webhookId = Throw e) ->
  exists msg args, report webhookId t = (Normal false, (t ++ [ConsoleError msg args])%list).
Proof.
  intros H. unfold triggerMonthlySummaryWebhook. unfold_M.
  destruct H as [->|[e ->]]; [destruct (ToString webhookId) as [text|e]|];
    eexists _, _; reflexivity.
Qed.

(** X26: without a row for the id, be it that the read fails or that no
    enabled webhook has the id, the report is given up: an error is
    printed, the digest is not computed, and nothing is sent. *)
Theorem monthly_report_without_row (webhookId : value) (t : Trace) :
  find_webhook t webhookId = Normal [] \/ (exists e, find_webhook t webhookId = Throw e) ->
  let r := report webhookId t in
  fst r = Normal false /\
  printed_error (new_events t (snd r)) /\
  queries (new_events t (snd r)) = [] /\
  http_calls (new_events t (snd r)) = [].
Proof.
  intros H. destruct (triggerMonthlySummaryWebhook_no_row webhookId t H) as [msg [args ->]].
  cbn [fst snd]. rewrite new_events_app.
  split; [reflexivity|]. split; [|split; reflexivity].
  eexists _, _. left. reflexivity.
Qed.

(** X27: when the digest cannot be built, the report is given up: the
    error is printed by the inner catch block, nothing is sent and no
    timestamp is written. *)
Theorem monthly_report_digest_failure
    (webhookId : value) (t : Trace) (webhook : Webhook) (rest : list Webhook)
    (e : JsError) :
  find_webhook t webhookId = Normal (webhook :: rest) ->
  fst (digest t) = Throw e ->
  let r := report webhookId t in
  fst r = Normal false /\
  In (prepare_log e) (new_events t (snd r)) /\
  http_calls (new_events t (snd r)) = [] /\
  touched (new_events t (snd r)) = [].
Proof.
  intros Hfind Hd. cbv zeta.
  rewrite (triggerMonthlySummaryWebhook_run webhookId t webhook rest Hfind).
  destruct (getMonthlySummaryData_adds t) as [devs [Ht [Hc Hu]]].
  destruct (digest t) as [[data|e'] t1]; [discriminate Hd|].
  cbn [fst snd] in *. injection Hd as ->. subst t1. norm_trace.
  rewrite new_events_app, http_calls_app, touched_app, Hc, Hu.
  split; [reflexivity|]. split; [|split; reflexivity].
  apply in_or_app. right. now left.
Qed.

(** X28: the report is sent in one request, to the url of the first row
    found, with the method of that row or [POST], the single header
    [Content-Type: application/json] and the generated report as its body;
    the headers and the payload stored with the webhook play no part. *)
Theorem monthly_report_request
    (webhookId : value) (t : Trace) (webhook : Webhook) (rest : list Webhook)
    (data : Digest) (body : value) :
  find_webhook t webhookId = Normal (webhook :: rest) ->
  fst (digest t) = Normal data ->
  render data = Normal body ->
  http_calls (new_events t (snd (report webhookId t)))
  = [{| req_method := js_or (method webhook) (VStr "POST");
        req_url := url webhook;
        req_headers := VObj [("Content-Type", VStr "application/json")];
        req_data := body;
        req_timeout := 10000 |}].
Proof.
  intros Hfind Hd Hbody.
  rewrite (triggerMonthlySummaryWebhook_run webhookId t webhook rest Hfind).
  destruct (getMonthlySummaryData_adds t) as [devs [Ht [Hc Hu]]].
  destruct (digest t) as [[data'|e'] t1]; [|discriminate Hd].
  cbn [fst snd] in *. injection Hd as ->. subst t1. rewrite Hbody. cbv zeta.
  unfold chat_request, json_content_type.
  destruct (axios _ _) as [r|e]; [destruct (db _ _) as [rows|e]|];
    cbn [snd]; norm_trace; rewrite new_events_app, http_calls_app, Hc;
    calls; reflexivity.
Qed.

(** X29: [triggerMonthlySummaryWebhook] never throws and sends at most
    one request.  It answers [true] exactly when the row was found, the
    request resolved and the timestamp of that row was written; every
    [false] comes with a printed error. *)
Theorem monthly_report_true_iff (webhookId : value) (t : Trace) :
  let r := report webhookId t in
  let evs := new_events t (snd r) in
  (exists b, fst r = Normal b) /\
  (List.length (http_calls evs) <= 1)%nat /\
  (fst r = Normal true <->
   exists webhook rest,
     find_webhook t webhookId = Normal (webhook :: rest) /\
     call_resolved evs /\ update_done (id webhook) evs) /\
  (fst r = Normal false -> printed_error evs).
Proof.
  cbv zeta.
  destruct (find_webhook t webhookId) as [[|webhook rest]|e0] eqn:Hfind.
  1,3: destruct (triggerMonthlySummaryWebhook_no_row webhookId t) as [msg [args ->]];
       [rewrite Hfind; eauto|];
       cbn [fst snd]; rewrite new_events_app;
       (split; [eauto|]); (split; [cbn; lia|]);
       (split; [|intros _; eexists _, _; left; reflexivity]);
       (split; [discriminate|]); intros [w [rs [Hw _]]]; discriminate Hw.
  rewrite (triggerMonthlySummaryWebhook_run webhookId t webhook rest Hfind).
  destruct (getMonthlySummaryData_adds t) as [devs [Ht [Hc Hu]]].
  assert (Hno_call : forall req out, ~ In (AxiosCall req out) devs).
  { intros req out Hin. apply http_calls_In in Hin. now rewrite Hc in Hin. }
  assert (Hno_upd : forall i out, ~ In (DbQuery (UpdateLastTriggered i) out) devs).
  { intros i out Hin. apply touched_In in Hin. now rewrite Hu in Hin. }
  destruct (digest t) as [[data|e] t1]; cbn [snd] in Ht; subst t1.
  2:{ cbn [fst snd]. norm_trace. rewrite new_events_app, http_calls_app, Hc.
      split; [eauto|]. split; [cbn; lia|]. split.
      - split; [discriminate|]. intros [w [rs [_ [[req [resp Hin]] _]]]].
        apply in_app_or in Hin as [Hin|Hin]; [now destruct (Hno_call _ _ Hin) | in_list Hin].
      - intros _. eexists _, _. apply in_or_app. right. now left. }
  destruct (render data) as [body|e].
  2:{ cbn [fst snd]. norm_trace. rewrite new_events_app, http_calls_app, Hc.
      split; [eauto|]. split; [cbn; lia|]. split.
      - split; [discriminate|]. intros [w [rs [_ [[req [resp Hin]] _]]]].
        apply in_app_or in Hin as [Hin|Hin]; [now destruct (Hno_call _ _ Hin) | in_list Hin].
      - intros _. eexists _, _. apply in_or_app. right. now left. }
  cbv zeta. destruct (axios _ _) as [r|e].
  2:{ cbn [fst snd]. norm_trace. rewrite new_events_app, http_calls_app, Hc.
      split; [eauto|]. split; [cbn; lia|]. split.
      - split; [discriminate|]. intros [w [rs [_ [[req [resp Hin]] _]]]].
        apply in_app_or in Hin as [Hin|Hin]; [now destruct (Hno_call _ _ Hin) | in_list Hin].
      - intros _. eexists _, _. apply in_or_app. right. right. now left. }
  destruct (db _ _) as [rows|e]; cbn [fst snd]; norm_trace;
    rewrite new_events_app, http_calls_app, Hc.
  - split; [eauto|]. split; [cbn; lia|]. split; [|discriminate].
    split; [|reflexivity]. intros _. exists webhook, rest. split; [reflexivity|]. split.
    + eexists _, _. apply in_or_app. right. now left.
    + eexists. apply in_or_app. right. right. right. now left.
  - split; [eauto|]. split; [cbn; lia|]. split.
    + split; [discriminate|]. intros [w [rs [_ [_ [rows Hin]]]]].
      apply in_app_or in Hin as [Hin|Hin]; [now destruct (Hno_upd _ _ Hin) | in_list Hin].
    + intros _. eexists _, _. apply in_or_app. right. right. right. right. now left.
Qed.

End ReportFacts.


Lemma monthly_report_without_row_witness :
  let r := triggerMonthlySummaryWebhook db_ok (clock_on (mkDay 2025 2 15) 6) zone_utc
             figures_label axios_ok find_none round_whole month_first (VNum 9) [] in
  fst r = Normal false /\
  printed_error (new_events [] (snd r)) /\
  queries (new_events [] (snd r)) = [] /\
  http_calls (new_events [] (snd r)) = [].
Proof.
  refine (monthly_report_without_row db_ok (clock_on (mkDay 2025 2 15) 6) zone_utc
            figures_label axios_ok find_none round_whole month_first (VNum 9) [] _).
  left. reflexivity.
Defined.

Lemma monthly_report_digest_failure_witness :
  let r := triggerMonthlySummaryWebhook db_no_stats (clock_on (mkDay 2025 2 15) 6) zone_utc
             figures_label axios_ok find_chat round_whole month_first (VNum 2) [] in
  fst r = Normal false /\
  In (prepare_log (DbError "statement timeout")) (new_events [] (snd r)) /\
  http_calls (new_events [] (snd r)) = [] /\
  touched (new_events [] (snd r)) = [].
Proof.
  refine (monthly_report_digest_failure db_no_stats (clock_on (mkDay 2025 2 15) 6) zone_utc
            figures_label axios_ok find_chat round_whole month_first (VNum 2) []
            hook_chat [] (DbError "statement timeout") _ _); reflexivity.
Defined.

Lemma monthly_report_request_witness :
  http_calls (new_events []
    (snd (triggerMonthlySummaryWebhook db_ok (clock_on (mkDay 2025 2 15) 6) zone_utc
            figures_label axios_ok find_chat round_whole month_first (VNum 2) [])))
  = [{| req_method := js_or (method hook_chat) (VStr "POST");
        req_url := url hook_chat;
        req_headers := VObj [("Content-Type", VStr "application/json")];
        req_data := report_example;
        req_timeout := 10000 |}].
Proof.
  refine (monthly_report_request db_ok (clock_on (mkDay 2025 2 15) 6) zone_utc
            figures_label axios_ok find_chat round_whole month_first (VNum 2) []
            hook_chat [] digest_example report_example _ _ _); reflexivity.
Defined.

(** The report of a month without activity. *)
Example report_without_activity :
  nested report_example ["content"] = Some (VStr "📊 **Monthly Report - 2/2025**") /\
  exists movies series general,
    nested report_example ["embeds"] = Some (VArr [movies; series; general]) /\
    embed_fields movies
    = [VObj [("name", VStr "No data"); ("value", VStr "No movies watch this month")]] /\
    embed_fields series
    = [VObj [("name", VStr "No data"); ("value", VStr "No Series watch this month")]].
Proof. split; [reflexivity|]. eexists _, _, _. repeat split. Qed.

(** * Numbers as text *)

(** Up to [2 ^ 53] in magnitude an integer is written with all its digits. *)
Lemma integer_text_safe (a : Z) :
  - 9007199254740992 <= a <= 9007199254740992 -> integer_text a = pretty a.
Proof.
  intros H. unfold integer_text, positive_text.
  destruct a as [|p|p]; [reflexivity| |].
  - cbn [Z.eqb Z.ltb Z.compare].
    destruct (Z.leb_spec (Z.pos p) 9007199254740992); [reflexivity | lia].
  - cbn [Z.eqb Z.ltb Z.compare]. change (- Z.neg p) with (Z.pos p).
    destruct (Z.leb_spec (Z.pos p) 9007199254740992); [reflexivity | lia].
Qed.

(** Beyond, the digits are those that single out the nearest double, and
    from [10 ^ 21] on the exponent is written. *)
Example integer_text_examples :
  List.map integer_text
    [2 ^ 60; 999999999999999900000; 10 ^ 21; 2 ^ 70; - 10 ^ 23; 2 ^ 1024]
  = ["1152921504606847000"; "999999999999999900000"; "1e+21";
     "1.1805916207174113e+21"; "-1e+23"; "Infinity"].
Proof. vm_compute. reflexivity. Qed.

Example compile_numbers :
  compileTemplate no_proto (VStr "n={{n}} h={{h}} big={{big}}")
    (VObj [("n", VNum 42); ("h", VNum (NonInt "0.5"));
           ("big", VNum 1000000000000000000000)])
  = Normal (VStr "n=42 h=0.5 big=1e+21").
Proof. vm_compute. reflexivity. Qed.
